(** * MealOrderSystem: a shallow embedding of [main.py] and its properties

    The program is Python 2: objects are references, dictionaries and
    lists are mutated in place.  The embedding keeps that: dictionaries,
    [Restaurant] instances, [Team] instances, restaurant lists and
    [OrderSystem] instances live in a store ([World]) and are named by
    their position in it; every method is a computation over the store
    that may raise, and the store at the time of the raise is kept.
    [d.copy()] allocates a new dictionary; an attribute that holds a
    dictionary holds its reference, so two attributes may name the same
    dictionary.

    Integers are Python's unbounded [int], hence [Z].  Names are [string].
    A dictionary is the list of its items in iteration order, each key
    once; assigning to a key that is there keeps the order, and only the
    [OrderedDict] built by [optimizeOrder] ever receives a new key, which
    goes to the end.  The messages of the exceptions are the strings the
    program formats.

    The file has three parts: the program, the vocabulary in which its
    properties are stated, and the properties with their proofs. *)

From stdpp Require Import base list strings pretty.
From Stdlib Require Import ZArith Lia Permutation Sorted Ascii.

Local Open Scope Z_scope.

(** ** Constant food names *)

Definition NORMAL : string := "normal".
Definition VEGETARIAN : string := "vegetarian".
Definition GLUTEN_FREE : string := "gluten_free".
Definition NUT_FREE : string := "nut_free".
Definition FISH_FREE : string := "fish_free".
Definition TOTAL : string := "total".

(** ** Dictionaries (contents) *)

Module Dict.

Definition t : Type := list (string * Z).

(** [k in d] *)
Fixpoint contains (k : string) (d : t) : bool :=
  match d with
  | [] => false
  | (k', _) :: d' => if String.eqb k k' then true else contains k d'
  end.

(** [d[k]]; [None] stands for the KeyError *)
Fixpoint get (k : string) (d : t) : option Z :=
  match d with
  | [] => None
  | (k', v) :: d' => if String.eqb k k' then Some v else get k d'
  end.

(** [d[k] = v]: the value is replaced where the key is, a new key is
    added last *)
Fixpoint set (k : string) (v : Z) (d : t) : t :=
  match d with
  | [] => [(k, v)]
  | (k', v') :: d' =>
      if String.eqb k k' then (k', v) :: d' else (k', v') :: set k v d'
  end.

(** iteration [for k in d] *)
Definition keys (d : t) : list string := map fst d.

(** [d.values()] *)
Definition values (d : t) : list Z := map snd d.

(** [d.copy()]: the contents of the new dictionary *)
Definition copy (d : t) : t := d.

(** [d[k]] read as a count, an absent key counting for nothing *)
Definition count (k : string) (d : t) : Z :=
  match get k d with Some v => v | None => 0 end.

End Dict.

(** Python's [sum] over a list of integers *)
Definition sum (l : list Z) : Z := fold_left Z.add l 0.

(** ** Values, exceptions *)

(** References are positions in the store. *)
Abbreviation ref := nat (only parsing).

#[warnings="-register-all"]
Inductive value : Type :=
| VNone
| VInt (n : Z)
| VStr (s : string)
| VDict (d : ref)
| VList (items : list value)
| VTeam (t : ref)
| VRestaurant (r : ref).

(** [Dangling] and [OutOfFuel] are not Python exceptions.  [Dangling] is
    what the embedding answers when an index names no object of the store,
    which no Python reference can do; [OutOfFuel] is what a [while] loop
    answers when the bound given to it is used up. *)
Inductive exn : Type :=
| Exception (msg : string)
| TypeError (msg : string)
| AttributeError (msg : string)
| KeyError (key : string)
| Dangling
| OutOfFuel.

Definition type_name (v : value) : string :=
  match v with
  | VNone => "NoneType"
  | VInt _ => "int"
  | VStr _ => "str"
  | VDict _ => "dict"
  | VList _ => "list"
  | VTeam _ => "Team"
  | VRestaurant _ => "Restaurant"
  end.

Definition no_attribute (v : value) (attr : string) : exn :=
  AttributeError ("'" ++ type_name v ++ "' object has no attribute '" ++ attr ++ "'").

(** ** Objects and the store *)

Module RestaurantObj.
Record t : Type := mk {
  _name : string;
  _rate : Z;
  _capacity : ref;
  _orderHistory : list (string * ref);
  _foodInStock : ref
}.
End RestaurantObj.

Module TeamObj.
Record t : Type := mk {
  _name : string;
  _demand : ref;
  _orderResult : list (string * ref)
}.
End TeamObj.

Record World : Type := mkWorld {
  dicts : list Dict.t;
  restaurants : list RestaurantObj.t;
  teams : list TeamObj.t;
  lists : list (list ref);
  systems : list (list value)
}.

Definition empty_world : World := mkWorld [] [] [] [] [].

(** ** Computations: a store, and either a result or a raised exception *)

Definition M (A : Type) : Type := World -> World * (exn + A).

Definition ret {A} (a : A) : M A := fun w => (w, inr a).

Definition raise {A} (e : exn) : M A := fun w => (w, inl e).

Definition bind {A B} (m : M A) (f : A -> M B) : M B :=
  fun w => match m w with
           | (w', inr a) => f a w'
           | (w', inl e) => (w', inl e)
           end.

Notation "x <- m ;; k" := (bind m (fun x => k))
  (at level 100, m at next level, right associativity).
Notation "m ;;; k" := (bind m (fun _ => k))
  (at level 100, right associativity).

(** [for x in xs: body x] *)
Fixpoint for_each {A} (xs : list A) (body : A -> M unit) : M unit :=
  match xs with
  | [] => ret tt
  | x :: xs' => body x ;;; for_each xs' body
  end.

(** [for x in xs: acc = body acc x], for a loop that builds up the value
    of a local variable *)
Fixpoint fold_each {A B} (xs : list A) (body : B -> A -> M B) (acc : B) : M B :=
  match xs with
  | [] => ret acc
  | x :: xs' => acc' <- body acc x ;; fold_each xs' body acc'
  end.

Definition from_option {A} (o : option A) : M A :=
  match o with Some a => ret a | None => raise Dangling end.

Section Store.

Definition dict_read (d : ref) : M Dict.t :=
  fun w => from_option (dicts w !! d) w.

Definition dict_write (d : ref) (c : Dict.t) : M unit :=
  fun w => (mkWorld (<[d := c]> (dicts w)) (restaurants w) (teams w) (lists w) (systems w), inr tt).

Definition dict_new (c : Dict.t) : M ref :=
  fun w => (mkWorld (dicts w ++ [c]) (restaurants w) (teams w) (lists w) (systems w),
            inr (length (dicts w))).

Definition rest_read (r : ref) : M RestaurantObj.t :=
  fun w => from_option (restaurants w !! r) w.

Definition rest_write (r : ref) (o : RestaurantObj.t) : M unit :=
  fun w => (mkWorld (dicts w) (<[r := o]> (restaurants w)) (teams w) (lists w) (systems w), inr tt).

Definition rest_new (o : RestaurantObj.t) : M ref :=
  fun w => (mkWorld (dicts w) (restaurants w ++ [o]) (teams w) (lists w) (systems w),
            inr (length (restaurants w))).

Definition team_read (t : ref) : M TeamObj.t :=
  fun w => from_option (teams w !! t) w.

Definition team_write (t : ref) (o : TeamObj.t) : M unit :=
  fun w => (mkWorld (dicts w) (restaurants w) (<[t := o]> (teams w)) (lists w) (systems w), inr tt).

Definition team_new (o : TeamObj.t) : M ref :=
  fun w => (mkWorld (dicts w) (restaurants w) (teams w ++ [o]) (lists w) (systems w),
            inr (length (teams w))).

Definition list_read (l : ref) : M (list ref) :=
  fun w => from_option (lists w !! l) w.

Definition list_write (l : ref) (c : list ref) : M unit :=
  fun w => (mkWorld (dicts w) (restaurants w) (teams w) (<[l := c]> (lists w)) (systems w), inr tt).

Definition list_new (c : list ref) : M ref :=
  fun w => (mkWorld (dicts w) (restaurants w) (teams w) (lists w ++ [c]) (systems w),
            inr (length (lists w))).

Definition fifo_read (s : ref) : M (list value) :=
  fun w => from_option (systems w !! s) w.

Definition fifo_write (s : ref) (c : list value) : M unit :=
  fun w => (mkWorld (dicts w) (restaurants w) (teams w) (lists w) (<[s := c]> (systems w)), inr tt).

Definition system_new (c : list value) : M ref :=
  fun w => (mkWorld (dicts w) (restaurants w) (teams w) (lists w) (systems w ++ [c]),
            inr (length (systems w))).

(** [k in d] *)
Definition contains (d : ref) (k : string) : M bool :=
  c <- dict_read d ;; ret (Dict.contains k c).

(** [d[k]] *)
Definition getitem (d : ref) (k : string) : M Z :=
  c <- dict_read d ;;
  match Dict.get k c with
  | Some v => ret v
  | None => raise (KeyError k)
  end.

(** [d[k] = v] *)
Definition setitem (d : ref) (k : string) (v : Z) : M unit :=
  c <- dict_read d ;; dict_write d (Dict.set k v c).

(** [d.copy()] *)
Definition dict_copy (d : ref) : M ref :=
  c <- dict_read d ;; dict_new (Dict.copy c).

(** [for k in d]: the keys the iteration goes through *)
Definition dict_keys (d : ref) : M (list string) :=
  c <- dict_read d ;; ret (Dict.keys c).

(** [sum(d.values())] *)
Definition sum_values (d : ref) : M Z :=
  c <- dict_read d ;; ret (sum (Dict.values c)).

End Store.

(** ** class Restaurant *)

Module Restaurant.
Import RestaurantObj.

Definition __init__ (name : string) (rate : Z) (capacity : ref) : M ref :=
  foodInStock <- dict_copy capacity ;;
  rest_new (mk name rate capacity [] foodInStock).

Definition name (self : ref) : M string :=
  o <- rest_read self ;; ret (_name o).

Definition rate (self : ref) : M Z :=
  o <- rest_read self ;; ret (_rate o).

Definition capacity (self : ref) : M ref :=
  o <- rest_read self ;; ret (_capacity o).

(** the setter of [capacity] *)
Definition set_capacity (self : ref) (capacity : ref) : M unit :=
  o <- rest_read self ;;
  rest_write self (mk (_name o) (_rate o) capacity (_orderHistory o) (_foodInStock o)) ;;;
  foodInStock <- dict_copy capacity ;;
  o <- rest_read self ;;
  rest_write self (mk (_name o) (_rate o) (_capacity o) (_orderHistory o) foodInStock).

Definition checkFood (self : ref) : M ref :=
  o <- rest_read self ;; ret (_foodInStock o).

Definition not_served (name meal : string) : string :=
  "The restaurant " ++ name ++ " doesn't serve " ++ meal ++ ". Need to review order.".

Definition too_much (meal : string) : string :=
  "The order for " ++ meal ++ " is too much. Need to review order.".

Definition not_a_dict : string :=
  "Param order should be a dictionary in method addOrder()".

(** the body of the first [for meal in order] *)
Definition check_meal (self order : ref) (meal : string) : M unit :=
  foodInStock <- checkFood self ;;
  served <- contains foodInStock meal ;;
  if negb served then
    name <- name self ;; raise (Exception (not_served name meal))
  else
    asked <- getitem order meal ;;
    foodInStock <- checkFood self ;;
    avail <- getitem foodInStock meal ;;
    if asked >? avail then raise (Exception (too_much meal)) else ret tt.

(** the body of the second [for meal in order] *)
Definition take_meal (self order : ref) (meal : string) : M unit :=
  foodInStock <- checkFood self ;;
  avail <- getitem foodInStock meal ;;
  asked <- getitem order meal ;;
  setitem foodInStock meal (avail - asked).

Definition addOrder (self : ref) (teamName : string) (order : value) : M unit :=
  match order with
  | VDict order =>
      meals <- dict_keys order ;;
      for_each meals (check_meal self order) ;;;
      meals <- dict_keys order ;;
      for_each meals (take_meal self order) ;;;
      o <- rest_read self ;;
      rest_write self (mk (_name o) (_rate o) (_capacity o)
                          (_orderHistory o ++ [(teamName, order)]) (_foodInStock o))
  | _ => raise (Exception not_a_dict)
  end.

End Restaurant.

(** ** class Team *)

Module Team.
Import TeamObj.

Definition __init__ (name : string) (demand : ref) : M ref :=
  team_new (mk name demand []).

Definition demand (self : ref) : M ref :=
  o <- team_read self ;; ret (_demand o).

(** the setter of [demand] *)
Definition set_demand (self : ref) (demand : ref) : M unit :=
  o <- team_read self ;;
  team_write self (mk (_name o) demand (_orderResult o)).

Definition name (self : ref) : M string :=
  o <- team_read self ;; ret (_name o).

Definition addOrder (self : ref) (restName : string) (order : ref) : M unit :=
  o <- team_read self ;;
  team_write self (mk (_name o) (_demand o) (_orderResult o ++ [(restName, order)])).

End Team.

(** ** [list.sort(key = ..., reverse = True)]

    The sort is stable, also when reversed: of two elements with equal
    keys the one that came first stays first.  The keys are computed
    first, so a key function that raises leaves the list as it was. *)

Section Sort.
Context {K : Type} (ltb : K -> K -> bool).

Fixpoint insert_desc (x : K * ref) (l : list (K * ref)) : list (K * ref) :=
  match l with
  | [] => [x]
  | y :: l' => if ltb (fst x) (fst y) then y :: insert_desc x l' else x :: l
  end.

Definition sort_desc (l : list (K * ref)) : list (K * ref) :=
  foldr insert_desc [] l.

Fixpoint with_keys (key : ref -> M K) (xs : list ref) : M (list (K * ref)) :=
  match xs with
  | [] => ret []
  | x :: xs' => k <- key x ;; ks <- with_keys key xs' ;; ret ((k, x) :: ks)
  end.

Definition list_sort_reverse (l : ref) (key : ref -> M K) : M unit :=
  xs <- list_read l ;;
  keyed <- with_keys key xs ;;
  list_write l (map snd (sort_desc keyed)).

End Sort.

(** ** class OrderSystem *)

Module OrderSystem.

Definition FOODTYPE : list string :=
  [NORMAL; VEGETARIAN; GLUTEN_FREE; NUT_FREE; FISH_FREE].

Definition __init__ : M ref := system_new [].

(** the list given to [addTeam] is a list of its own, not the queue *)
Definition addTeam (self : ref) (team : value) : M unit :=
  match team with
  | VTeam _ =>
      FIFO <- fifo_read self ;; fifo_write self (FIFO ++ [team])
  | VList items =>
      for_each items (fun i =>
        FIFO <- fifo_read self ;; fifo_write self (FIFO ++ [i]))
  | _ => ret tt
  end.

(** an attribute of [team] that only a [Team] has *)
Definition the_team (team : value) (attr : string) : M ref :=
  match team with
  | VTeam t => ret t
  | _ => raise (no_attribute team attr)
  end.

Definition not_callable : string := "'dict' object is not callable".

(** [lambda x: x.rate] *)
Definition key_rate (x : ref) : M Z := Restaurant.rate x.

(** [lambda x: (x.rate, sum(x.checkFood().values()))]: [checkFood] is a
    property, its value is the dictionary, and the call of a dictionary
    raises *)
Definition key_rate_size (x : ref) : M (Z * Z) :=
  rate <- Restaurant.rate x ;;
  foodInStock <- Restaurant.checkFood x ;;
  raise (TypeError not_callable).

Definition pair_ltb (a b : Z * Z) : bool :=
  ((fst a <? fst b) || ((fst a =? fst b) && (snd a <? snd b)))%Z.

Definition not_satisfied (teamName foodType : string) : string :=
  "Order from team-" ++ teamName ++ " cannot be satisfied on food type " ++ foodType.

(** the body of [for foodType in OrderSystem.FOODTYPE] *)
Definition fill (demand rest orderResult : ref) (foodType : string) : M unit :=
  asked <- contains demand foodType ;;
  both <- (if asked then
             foodInStock <- Restaurant.checkFood rest ;;
             contains foodInStock foodType
           else ret false) ;;
  if both then
    d <- getitem demand foodType ;;
    foodInStock <- Restaurant.checkFood rest ;;
    s <- getitem foodInStock foodType ;;
    setitem orderResult foodType (Z.min d s) ;;;
    d <- getitem demand foodType ;;
    o <- getitem orderResult foodType ;;
    setitem demand foodType (d - o)
  else ret tt.

(** the body of [for rest in restaurantList]; the local list
    [orderResultList] is written and never read, and is left out *)
Definition serve (team demand : ref) (rest : ref) : M unit :=
  foodInStock <- Restaurant.checkFood rest ;;
  total <- sum_values foodInStock ;;
  if total =? 0 then ret tt
  else
    orderResult <- dict_new [] ;;
    for_each FOODTYPE (fill demand rest orderResult) ;;;
    teamName <- Team.name team ;;
    Restaurant.addOrder rest teamName (VDict orderResult) ;;;
    restName <- Restaurant.name rest ;;
    Team.addOrder team restName orderResult.

(** the body of [for foodType in demand] *)
Definition check (team demand : ref) (foodType : string) : M unit :=
  d <- getitem demand foodType ;;
  if d >? 0 then
    teamName <- Team.name team ;;
    raise (Exception (not_satisfied teamName foodType))
  else ret tt.

(** [optimizeOrder] up to the end of [for rest in restaurantList]; it
    hands over the team and the working demand *)
Definition place_orders (team : value) (restaurantList : ref)
    (chooseLargeRestWhenEqualRate : bool) : M (ref * ref) :=
  (if negb chooseLargeRestWhenEqualRate then
     list_sort_reverse Z.ltb restaurantList key_rate
   else
     list_sort_reverse pair_ltb restaurantList key_rate_size) ;;;
  t <- the_team team "demand" ;;
  original <- Team.demand t ;;
  demand <- dict_copy original ;;
  rests <- list_read restaurantList ;;
  for_each rests (serve t demand) ;;;
  ret (t, demand).

(** the rest of [optimizeOrder]: [for foodType in demand] *)
Definition check_demand (t demand : ref) : M unit :=
  foodTypes <- dict_keys demand ;;
  for_each foodTypes (check t demand).

Definition optimizeOrder (team : value) (restaurantList : ref)
    (chooseLargeRestWhenEqualRate : bool) : M unit :=
  placed <- place_orders team restaurantList chooseLargeRestWhenEqualRate ;;
  check_demand (fst placed) (snd placed).

(** [while self.FIFO: ...], at most [fuel] turns *)
Fixpoint while_FIFO (fuel : nat) (self restaurantList : ref)
    (chooseLargeRestWhenEqualRate : bool) : M unit :=
  match fuel with
  | O => raise OutOfFuel
  | S fuel' =>
      FIFO <- fifo_read self ;;
      match FIFO with
      | [] => ret tt
      | team :: FIFO' =>
          fifo_write self FIFO' ;;;
          optimizeOrder team restaurantList chooseLargeRestWhenEqualRate ;;;
          while_FIFO fuel' self restaurantList chooseLargeRestWhenEqualRate
      end
  end.

(** every turn of the loop takes one element off the queue, so one turn
    more than the queue is long is enough *)
Definition processOrder (self restaurantList : ref)
    (chooseLargeRestWhenEqualRate : bool) : M unit :=
  FIFO <- fifo_read self ;;
  while_FIFO (S (length FIFO)) self restaurantList chooseLargeRestWhenEqualRate.

(** ["\n" + "\t"*3] *)
Definition COMMON_INDENT : string :=
  String "010"%char (String "009"%char (String "009"%char (String "009"%char ""))).

(** ["{foodType} = {count}".format(foodType = foodType, count = count)],
    the count an integer written in decimal *)
Definition format_count (foodType : string) (count : Z) : string :=
  foodType ++ " = " ++ pretty count.

(** the body of [for foodType in OrderSystem.FOODTYPE] in the two format
    functions, [indent] being what they put before the food type *)
Definition format_line (indent : string) (order : ref) (orderStr foodType : string) : M string :=
  present <- contains order foodType ;;
  if present then
    count <- getitem order foodType ;;
    ret (orderStr ++ indent ++ format_count foodType count)%string
  else ret orderStr.

Definition formatOrder (order : ref) : M string :=
  fold_each FOODTYPE (format_line COMMON_INDENT order) "".

Definition formatOrderList (orderList : list (string * ref)) : M string :=
  fold_each orderList
    (fun orderStr entry =>
       fold_each FOODTYPE
         (format_line (COMMON_INDENT ++ String "009"%char "") (snd entry))
         (orderStr ++ COMMON_INDENT ++ fst entry ++ ":")%string)
    "".

End OrderSystem.

(** ** The tests of [OrderSystemTests], as computations *)

Module OrderSystemTests.

Definition team1_demand : Dict.t := [(NORMAL, 38); (VEGETARIAN, 5); (GLUTEN_FREE, 7)].
Definition team2_demand : Dict.t := [(NORMAL, 30); (VEGETARIAN, 8); (GLUTEN_FREE, 10)].
Definition rest1_capacity : Dict.t := [(NORMAL, 36); (VEGETARIAN, 4)].
Definition rest2_capacity : Dict.t := [(NORMAL, 60); (VEGETARIAN, 20); (GLUTEN_FREE, 20)].

(** the objects of the single-team tests: the team and the list *)
Definition single_team : M (ref * ref) :=
  d <- dict_new team1_demand ;;
  team1 <- Team.__init__ "cisco1" d ;;
  c1 <- dict_new rest1_capacity ;;
  rest1 <- Restaurant.__init__ "rest1" 5 c1 ;;
  c2 <- dict_new rest2_capacity ;;
  rest2 <- Restaurant.__init__ "rest2" 3 c2 ;;
  l <- list_new [rest1; rest2] ;;
  ret (team1, l).

Definition testSingleTeamTestWithUniqueRates : M unit :=
  o <- single_team ;;
  OrderSystem.optimizeOrder (VTeam (fst o)) (snd o) false.

Definition testSingleTeamTestWithEqualRates : M unit :=
  o <- single_team ;;
  OrderSystem.optimizeOrder (VTeam (fst o)) (snd o) false.

(** the objects of the test with two teams: the order system with both
    teams in its queue, and the list *)
Definition two_teams : M (ref * ref) :=
  d1 <- dict_new team1_demand ;;
  team1 <- Team.__init__ "cisco1" d1 ;;
  d2 <- dict_new team2_demand ;;
  team2 <- Team.__init__ "cisco2" d2 ;;
  c1 <- dict_new rest1_capacity ;;
  rest1 <- Restaurant.__init__ "rest1" 5 c1 ;;
  c2 <- dict_new rest2_capacity ;;
  rest2 <- Restaurant.__init__ "rest2" 3 c2 ;;
  orderSystem <- OrderSystem.__init__ ;;
  OrderSystem.addTeam orderSystem (VList [VTeam team1; VTeam team2]) ;;;
  l <- list_new [rest1; rest2] ;;
  ret (orderSystem, l).

Definition testMultipleTeamTest : M unit :=
  o <- two_teams ;;
  OrderSystem.processOrder (fst o) (snd o) false.

End OrderSystemTests.


(** * The vocabulary of the properties *)

Definition with_dicts (w : World) (ds : list Dict.t) : World :=
  mkWorld ds (restaurants w) (teams w) (lists w) (systems w).

(** What the first loop of [addOrder] answers: the exception of the first
    meal that is refused, if there is one. *)
Fixpoint checked (name : string) (S O : Dict.t) (meals : list string) : option exn :=
  match meals with
  | [] => None
  | meal :: meals' =>
      match Dict.get meal S with
      | None => Some (Exception (Restaurant.not_served name meal))
      | Some avail =>
          match Dict.get meal O with
          | None => Some (KeyError meal)
          | Some asked =>
              if asked >? avail then Some (Exception (Restaurant.too_much meal))
              else checked name S O meals'
          end
      end
  end.

(** What the second loop of [addOrder] leaves in stock. *)
Fixpoint taken (S O : Dict.t) (meals : list string) : Dict.t :=
  match meals with
  | [] => S
  | meal :: meals' =>
      taken (Dict.set meal (Dict.count meal S - Dict.count meal O) S) O meals'
  end.

Definition with_history (R : RestaurantObj.t) (h : list (string * ref)) : RestaurantObj.t :=
  RestaurantObj.mk (RestaurantObj._name R) (RestaurantObj._rate R)
    (RestaurantObj._capacity R) h (RestaurantObj._foodInStock R).

Definition with_result (T : TeamObj.t) (h : list (string * ref)) : TeamObj.t :=
  TeamObj.mk (TeamObj._name T) (TeamObj._demand T) h.

(** One turn of [for foodType in OrderSystem.FOODTYPE], on the contents of
    the working demand and of the order under construction, for a
    restaurant whose stock holds [S]. *)
Definition fill_step (S : Dict.t) (DO : Dict.t * Dict.t) (foodType : string) : Dict.t * Dict.t :=
  match Dict.get foodType (fst DO), Dict.get foodType S with
  | Some d, Some s =>
      (Dict.set foodType (d - Z.min d s) (fst DO), Dict.set foodType (Z.min d s) (snd DO))
  | _, _ => DO
  end.

Definition filled (S D O : Dict.t) (foodTypes : list string) : Dict.t * Dict.t :=
  fold_left (fill_step S) foodTypes (D, O).

Arguments filled : simpl never.

Definition nonneg (d : Dict.t) : Prop := forall k v, Dict.get k d = Some v -> 0 <= v.

(** every count of the order [O] is within the stock [S] *)
Definition within (S O : Dict.t) : Prop :=
  forall k v, Dict.get k O = Some v -> exists s, Dict.get k S = Some s /\ v <= s.

(** The store after a turn that places an order: the order is a new
    dictionary, the working demand and the stock are updated, the
    restaurant and the team both record the order. *)
Definition served (w : World) (t demand rest : ref)
    (T : TeamObj.t) (R : RestaurantObj.t) (S D : Dict.t) : World :=
  let DO := filled S D [] OrderSystem.FOODTYPE in
  let orderResult := length (dicts w) in
  mkWorld
    (<[RestaurantObj._foodInStock R := taken S (snd DO) (Dict.keys (snd DO))]>
       (<[demand := fst DO]> (dicts w ++ [snd DO])))
    (<[rest := with_history R
                 (RestaurantObj._orderHistory R ++ [(TeamObj._name T, orderResult)])]>
       (restaurants w))
    (<[t := with_result T
              (TeamObj._orderResult T ++ [(RestaurantObj._name R, orderResult)])]>
       (teams w))
    (lists w) (systems w).

Arguments served : simpl never.

Definition desc (a b : Z * nat) : Prop := fst b <= fst a.

(** the restaurants in the order the sort leaves them in, [f] giving
    the rate of each *)
Definition by_rate (f : nat -> Z) (rs : list nat) : list nat :=
  map snd (sort_desc Z.ltb (map (fun r => (f r, r)) rs)).

Definition rate_of (w : World) (r : ref) : Z :=
  match restaurants w !! r with
  | Some R => RestaurantObj._rate R
  | None => 0
  end.

(** the restaurant [r] exists and so does its stock dictionary *)
Definition has_stock (w : World) (r : ref) : bool :=
  match restaurants w !! r with
  | Some R => (RestaurantObj._foodInStock R <? length (dicts w))%nat
  | None => false
  end.

(** [ready w t l]: in [w], [t] is a team with its demand dictionary and
    [l] is a list of restaurants with their stock dictionaries. *)
Definition ready (w : World) (t l : ref) : bool :=
  match teams w !! t, lists w !! l with
  | Some T, Some rs =>
      (TeamObj._demand T <? length (dicts w))%nat && forallb (has_stock w) rs
  | _, _ => false
  end.

(** [apart w t l]: no restaurant of [l] has the demand dictionary of [t]
    for its stock. *)
Definition apart (w : World) (t l : ref) : bool :=
  match teams w !! t, lists w !! l with
  | Some T, Some rs =>
      forallb (fun r => match restaurants w !! r with
                        | Some R => negb (RestaurantObj._foodInStock R =? TeamObj._demand T)%nat
                        | None => true
                        end) rs
  | _, _ => false
  end.

Definition with_lists (w : World) (ls : list (list nat)) : World :=
  mkWorld (dicts w) (restaurants w) (teams w) ls (systems w).

(** What the loop needs of the store: the team, the working demand, and
    for every restaurant its stock dictionary, older than the working
    demand. *)
Definition Valid (t demand : ref) (rs : list ref) (w : World) : Prop :=
  is_Some (teams w !! t) /\ is_Some (dicts w !! demand) /\
  forall r, In r rs ->
    exists R, restaurants w !! r = Some R /\ (RestaurantObj._foodInStock R < demand)%nat.

(** the first food type of [foodTypes] of which [D] still asks some *)
Fixpoint unmet (D : Dict.t) (foodTypes : list string) : option string :=
  match foodTypes with
  | [] => None
  | foodType :: foodTypes' =>
      if Dict.count foodType D >? 0 then Some foodType else unmet D foodTypes'
  end.

Definition verdict (teamName : string) (D : Dict.t) : exn + unit :=
  match unmet D (Dict.keys D) with
  | Some foodType => inl (Exception (OrderSystem.not_satisfied teamName foodType))
  | None => inr tt
  end.

(** the store when the loop starts: the list is sorted and the working
    demand is a new dictionary *)
Definition started (w : World) (l : ref) (rs : list ref) (D0 : Dict.t) : World :=
  mkWorld (dicts w ++ [D0]) (restaurants w) (teams w)
          (<[l := by_rate (rate_of w) rs]> (lists w)) (systems w).

(** the count of [c] in the order dictionary [o] *)
Definition granted (w : World) (c : string) (o : ref) : Z :=
  match dicts w !! o with
  | Some order => Dict.count c order
  | None => 0
  end.

(** the counts of [c] in the orders of a history, added up *)
Definition total_granted (w : World) (c : string) (history : list (string * ref)) : Z :=
  foldr (fun e acc => granted w c (snd e) + acc) 0 history.

(** The invariant of the loop that counts: the team keeps its name and
    its demand, its result grows by orders made in this run, and for every
    food type what the working demand still asks and what the orders of
    this run grant add up to the original demand. *)
Definition Accounted (t demand : ref) (T : TeamObj.t) (D0 : Dict.t) (w : World) : Prop :=
  exists T' new D,
    teams w !! t = Some T' /\
    TeamObj._name T' = TeamObj._name T /\
    TeamObj._demand T' = TeamObj._demand T /\
    TeamObj._orderResult T' = TeamObj._orderResult T ++ new /\
    Forall (fun e => (demand < snd e < length (dicts w))%nat) new /\
    dicts w !! demand = Some D /\
    Dict.keys D = Dict.keys D0 /\
    (nonneg D0 -> nonneg D) /\
    forall c, Dict.count c D + total_granted w c new = Dict.count c D0.

Definition nonneg_b (d : Dict.t) : bool := forallb (fun kv => 0 <=? snd kv) d.

(** the store of the single-team tests before the call, its team and its
    list *)
Definition single_team_world : World := fst (OrderSystemTests.single_team empty_world).

(** the store of a team "t" that asks [n] normal meals and of one
    restaurant "r" that has 3 *)
Definition short_world (n : Z) : World :=
  fst ((d <- dict_new [(NORMAL, n)] ;;
        t <- Team.__init__ "t" d ;;
        c <- dict_new [(NORMAL, 3)] ;;
        r <- Restaurant.__init__ "r" 1 c ;;
        list_new [r]) empty_world).

(** the store of a team "t" with the demand [d] and of one restaurant
    "r" that has 5 normal meals *)
Definition lone_world (d : Dict.t) : World :=
  fst ((d <- dict_new d ;;
        t <- Team.__init__ "t" d ;;
        c <- dict_new [(NORMAL, 5)] ;;
        r <- Restaurant.__init__ "r" 1 c ;;
        list_new [r]) empty_world).

(** From [w0] to [w]: the lists are the same, and every restaurant is
    still there with its name, its rate and its two dictionaries. *)
Definition Settled (w0 w : World) : Prop :=
  lists w = lists w0 /\
  forall r R, restaurants w0 !! r = Some R ->
    exists R', restaurants w !! r = Some R' /\
      RestaurantObj._name R' = RestaurantObj._name R /\
      RestaurantObj._rate R' = RestaurantObj._rate R /\
      RestaurantObj._capacity R' = RestaurantObj._capacity R /\
      RestaurantObj._foodInStock R' = RestaurantObj._foodInStock R.

(** the store of a team "t" that asks one normal meal and of two
    restaurants of rate 5, "a" with 1 normal meal and "b" with 2, listed
    in that order *)
Definition tie_world : World :=
  fst ((d <- dict_new [(NORMAL, 1)] ;;
        t <- Team.__init__ "t" d ;;
        c <- dict_new [(NORMAL, 1)] ;;
        a <- Restaurant.__init__ "a" 5 c ;;
        c <- dict_new [(NORMAL, 2)] ;;
        b <- Restaurant.__init__ "b" 5 c ;;
        list_new [a; b]) empty_world).

(** the store of the single-team tests with one more dictionary, an order
    of two normal meals *)
Definition order_world : World := fst (dict_new [(NORMAL, 2)] single_team_world).

(** What a caller does about a restaurant, one step at a time: it
    writes out a dictionary ([{...}]), it places an order
    ([rest.addOrder(teamName, order)], the order any value it holds, a
    dictionary by its reference), or it resets the capacity
    ([rest.capacity = capacity]). *)
Inductive call : Type :=
| NewDict (contents : Dict.t)
| AddOrder (teamName : string) (order : value)
| SetCapacity (capacity : ref).

Definition do_call (self : ref) (c : call) : M unit :=
  match c with
  | NewDict contents => dict_new contents ;;; ret tt
  | AddOrder teamName order => Restaurant.addOrder self teamName order
  | SetCapacity capacity => Restaurant.set_capacity self capacity
  end.

Definition history_length (w : World) (self : ref) : nat :=
  match restaurants w !! self with
  | Some R => length (RestaurantObj._orderHistory R)
  | None => 0%nat
  end.

(** The calls one after the other, a caller going on after a call that
    raised.  Beside the store goes the length the history had at the
    latest [SetCapacity]. *)
Fixpoint after_calls (self : ref) (cs : list call) (w : World) (mark : nat) : World * nat :=
  match cs with
  | [] => (w, mark)
  | c :: cs' =>
      let w' := fst (do_call self c w) in
      after_calls self cs' w'
        (match c with
         | SetCapacity _ => history_length w' self
         | _ => mark
         end)
  end.

(** What is asked of a call in the store [w] it is made in.  An order
    that is a dictionary is a dictionary of the store, each key once, with
    counts that are not negative, and it is not the dictionary in which
    the restaurant keeps its stock; the dictionary of a reset is a
    dictionary of the store with counts that are not negative. *)
Definition call_ok (self : ref) (w : World) (c : call) : Prop :=
  match c with
  | NewDict _ => True
  | AddOrder _ (VDict order) =>
      (forall R, restaurants w !! self = Some R -> order <> RestaurantObj._foodInStock R) /\
      exists O, dicts w !! order = Some O /\ List.NoDup (Dict.keys O) /\ nonneg O
  | AddOrder _ _ => True
  | SetCapacity capacity => exists C, dicts w !! capacity = Some C /\ nonneg C
  end.

(** every call of [cs] is as [call_ok] asks, in the store the calls
    before it have left *)
Fixpoint calls_ok (self : ref) (cs : list call) (w : World) : Prop :=
  match cs with
  | [] => True
  | c :: cs' => call_ok self w c /\ calls_ok self cs' (fst (do_call self c w))
  end.

Definition is_reset (c : call) : Prop :=
  match c with SetCapacity _ => True | _ => False end.

(** the store of a restaurant "r" of rate 1 made with the capacity
    dictionary [{NORMAL: 5}]: the capacity is dictionary 0, the stock
    dictionary 1 *)
Definition lone_restaurant_world : World :=
  fst ((c <- dict_new [(NORMAL, 5)] ;; Restaurant.__init__ "r" 1 c) empty_world).

(** The invariant of a restaurant through its calls: its stock dictionary
    is its own, every count of the stock is between 0 and the capacity,
    and what is gone from the stock is what the orders recorded since
    [mark] grant. *)
Definition Conserved (self : ref) (w : World) (mark : nat) : Prop :=
  exists R C S,
    restaurants w !! self = Some R /\
    dicts w !! RestaurantObj._capacity R = Some C /\
    dicts w !! RestaurantObj._foodInStock R = Some S /\
    RestaurantObj._capacity R <> RestaurantObj._foodInStock R /\
    (mark <= length (RestaurantObj._orderHistory R))%nat /\
    Forall (fun e => snd e <> RestaurantObj._foodInStock R /\ (snd e < length (dicts w))%nat)
           (RestaurantObj._orderHistory R) /\
    forall c qty, Dict.get c C = Some qty ->
      exists s, Dict.get c S = Some s /\ 0 <= s <= qty /\
        qty - s = total_granted w c (drop mark (RestaurantObj._orderHistory R)).

(** A computation is quiet when it leaves the queues of the order systems
    alone and does not run out of fuel. *)
Definition quiet {A} (m : M A) : Prop :=
  forall w, systems (fst (m w)) = systems w /\ snd (m w) <> inl OutOfFuel.

Definition with_systems (w : World) (ss : list (list value)) : World :=
  mkWorld (dicts w) (restaurants w) (teams w) (lists w) ss.

(** the store of the test with two teams before [processOrder], its order
    system and its list *)
Definition two_teams_world : World := fst (OrderSystemTests.two_teams empty_world).

(** From [w0] to [w] the store of dictionaries has only grown, and
    nothing is touched but the team [t], the restaurants of [rs] and the
    stock dictionaries that the restaurants of [rs] had in [w0]. *)
Definition Framed (t : ref) (rs : list ref) (w0 w : World) : Prop :=
  (length (dicts w0) <= length (dicts w))%nat /\
  systems w = systems w0 /\
  (forall t', t' <> t -> teams w !! t' = teams w0 !! t') /\
  (forall r, ~ In r rs -> restaurants w !! r = restaurants w0 !! r) /\
  (forall x, (x < length (dicts w0))%nat ->
     (forall r R, In r rs -> restaurants w0 !! r = Some R -> RestaurantObj._foodInStock R <> x) ->
     dicts w !! x = dicts w0 !! x).

(** the store of the test with two teams, with one more list that holds
    the first restaurant only *)
Definition short_list_world : World := fst (list_new [0%nat] two_teams_world).

(** the store of a team "t" that asks, as the example at the head of
    the program words it, a total of 50 meals of which 5 vegetarian, and
    of one restaurant "r" with 100 normal and 20 vegetarian meals *)
Definition total_world : World :=
  fst ((d <- dict_new [(TOTAL, 50); (VEGETARIAN, 5)] ;;
        t <- Team.__init__ "t" d ;;
        c <- dict_new [(NORMAL, 100); (VEGETARIAN, 20)] ;;
        r <- Restaurant.__init__ "r" 1 c ;;
        list_new [r]) empty_world).

(** the stock dictionary of the restaurant [r] *)
Definition stock_ref (w : World) (r : ref) : ref :=
  match restaurants w !! r with
  | Some R => RestaurantObj._foodInStock R
  | None => 0%nat
  end.

(** the count of [c] that the restaurant [r] has in stock *)
Definition in_stock (w : World) (r : ref) (c : string) : Z :=
  granted w c (stock_ref w r).

(** what the restaurants of [rs] have of [c] in stock, added up *)
Definition supply (w : World) (rs : list ref) (c : string) : Z :=
  foldr (fun r acc => in_stock w r c + acc) 0 rs.

(** What the loop over [rs] needs to serve from every stock once: the
    team, a working demand without negative counts, and restaurants with
    stock dictionaries of their own, without negative counts. *)
Definition Stocked (t demand : ref) (rs : list ref) (w : World) : Prop :=
  is_Some (teams w !! t) /\
  (exists D, dicts w !! demand = Some D /\ nonneg D) /\
  (forall r, In r rs ->
     exists R S, restaurants w !! r = Some R /\
       (RestaurantObj._foodInStock R < demand)%nat /\
       dicts w !! RestaurantObj._foodInStock R = Some S /\ nonneg_b S = true) /\
  List.NoDup (map (stock_ref w) rs).

(** the store of a team "t" that asks 2 normal meals and of two
    restaurants with 5 normal meals each, "b" of rate 3 and "a" of rate 5,
    listed in that order *)
Definition plenty_world : World :=
  fst ((d <- dict_new [(NORMAL, 2)] ;;
        t <- Team.__init__ "t" d ;;
        c <- dict_new [(NORMAL, 5)] ;;
        b <- Restaurant.__init__ "b" 3 c ;;
        c <- dict_new [(NORMAL, 5)] ;;
        a <- Restaurant.__init__ "a" 5 c ;;
        list_new [b; a]) empty_world).

(** the demand dictionary of the team [t] *)
Definition demand_ref (w : World) (t : ref) : ref :=
  match teams w !! t with
  | Some T => TeamObj._demand T
  | None => 0%nat
  end.

(** the count of [c] that the team [t] asks *)
Definition asked (w : World) (t : ref) (c : string) : Z :=
  granted w c (demand_ref w t).

(** what the teams of [ts] ask of [c], added up *)
Definition total_asked (w : World) (ts : list ref) (c : string) : Z :=
  foldr (fun t acc => asked w t c + acc) 0 ts.

(** What [processOrder] needs of the store to serve a queue of teams
    [ts] from the list [l]: the list holds the restaurants [rs], each with
    a stock dictionary of its own without negative counts, and every team
    has a demand dictionary without negative counts that is not the stock
    of a restaurant of the list. *)
Definition Orderly (w : World) (l : ref) (rs ts : list ref) : Prop :=
  lists w !! l = Some rs /\
  (forall r, In r rs ->
     exists R S, restaurants w !! r = Some R /\
       dicts w !! RestaurantObj._foodInStock R = Some S /\ nonneg_b S = true) /\
  List.NoDup (map (stock_ref w) rs) /\
  (forall t, In t ts ->
     exists T D, teams w !! t = Some T /\
       dicts w !! TeamObj._demand T = Some D /\ nonneg D /\
       forall r, In r rs -> stock_ref w r <> TeamObj._demand T).

(** the store of the single-team tests with an order system whose queue
    holds the name of the team, a string, before the team itself *)
Definition stray_world : World :=
  fst ((orderSystem <- OrderSystem.__init__ ;;
        OrderSystem.addTeam orderSystem (VList [VStr "cisco1"; VTeam 0%nat]))
         single_team_world).

(** The lines that the format functions write for an order that holds
    [O]: one line for each food type of [foodTypes] that [O] has a count
    for, [indent] before each. *)
Fixpoint shown (indent : string) (O : Dict.t) (foodTypes : list string) : string :=
  match foodTypes with
  | [] => ""
  | foodType :: foodTypes' =>
      match Dict.get foodType O with
      | Some count =>
          indent ++ OrderSystem.format_count foodType count ++ shown indent O foodTypes'
      | None => shown indent O foodTypes'
      end
  end.

(** a string without a newline *)
Fixpoint one_line (s : string) : Prop :=
  match s with
  | EmptyString => True
  | String a s' => a <> "010"%char /\ one_line s'
  end.

(** a string that is empty or starts with a newline *)
Definition new_line (s : string) : Prop :=
  s = "" \/ exists s', s = String "010"%char s'.

(** * Properties *)

(** ** Dictionaries *)

Section DictFacts.
Implicit Types (k : string) (v : Z) (d : Dict.t).

Lemma contains_get k d :
  Dict.contains k d = match Dict.get k d with Some _ => true | None => false end.
Proof.
  induction d as [|[k' v'] d IH]; simpl; [reflexivity|].
  destruct (String.eqb k k'); [reflexivity|exact IH].
Qed.

Lemma get_set_eq k v d : Dict.get k (Dict.set k v d) = Some v.
Proof.
  induction d as [|[k' v'] d IH]; simpl.
  - rewrite String.eqb_refl. reflexivity.
  - destruct (String.eqb k k') eqn:E; simpl; rewrite E; [reflexivity|exact IH].
Qed.

Lemma get_set_ne k k' v d : k <> k' -> Dict.get k' (Dict.set k v d) = Dict.get k' d.
Proof.
  intros Hne. induction d as [|[k0 v0] d IH]; simpl.
  - apply String.eqb_neq in Hne. rewrite String.eqb_sym in Hne. rewrite Hne. reflexivity.
  - destruct (String.eqb k k0) eqn:E; simpl.
    + apply String.eqb_eq in E. subst k0.
      destruct (String.eqb k' k) eqn:E'; [|reflexivity].
      apply String.eqb_eq in E'. congruence.
    + rewrite IH. reflexivity.
Qed.

Lemma get_set k k' v d :
  Dict.get k' (Dict.set k v d) = if String.eqb k k' then Some v else Dict.get k' d.
Proof.
  destruct (String.eqb k k') eqn:E.
  - apply String.eqb_eq in E. subst. apply get_set_eq.
  - apply String.eqb_neq in E. apply get_set_ne, E.
Qed.

Lemma count_set k k' v d :
  Dict.count k' (Dict.set k v d) = if String.eqb k k' then v else Dict.count k' d.
Proof. unfold Dict.count. rewrite get_set. destruct (String.eqb k k'); reflexivity. Qed.

Lemma keys_set_old k v d :
  Dict.contains k d = true -> Dict.keys (Dict.set k v d) = Dict.keys d.
Proof.
  induction d as [|[k' v'] d IH]; simpl; [discriminate|].
  destruct (String.eqb k k'); simpl; [reflexivity|].
  intros H. rewrite (IH H). reflexivity.
Qed.

Lemma keys_set_new k v d :
  Dict.contains k d = false -> Dict.keys (Dict.set k v d) = Dict.keys d ++ [k].
Proof.
  induction d as [|[k' v'] d IH]; simpl; [reflexivity|].
  destruct (String.eqb k k'); simpl; [discriminate|].
  intros H. rewrite (IH H). reflexivity.
Qed.

Lemma get_In_keys k d : In k (Dict.keys d) <-> Dict.contains k d = true.
Proof.
  induction d as [|[k' v'] d IH]; simpl; [split; [tauto|discriminate]|].
  destruct (String.eqb k k') eqn:E.
  - apply String.eqb_eq in E. subst. tauto.
  - apply String.eqb_neq in E. rewrite <- IH. split; [intros [H|H]; congruence|tauto].
Qed.

Lemma contains_set k k' v d :
  Dict.contains k' (Dict.set k v d) = String.eqb k k' || Dict.contains k' d.
Proof.
  rewrite !contains_get, get_set. destruct (String.eqb k k'); reflexivity.
Qed.

End DictFacts.

(** ** Running a computation step by step *)

Section Steps.
Context {A B : Type}.

Lemma bind_ok (m : M A) (f : A -> M B) w w' a :
  m w = (w', inr a) -> bind m f w = f a w'.
Proof. unfold bind. intros ->. reflexivity. Qed.

Lemma bind_raise (m : M A) (f : A -> M B) w w' e :
  m w = (w', inl e) -> bind m f w = (w', inl e).
Proof. unfold bind. intros ->. reflexivity. Qed.

Lemma bind_inr (m : M A) (f : A -> M B) w w2 b :
  bind m f w = (w2, inr b) ->
  exists w1 a, m w = (w1, inr a) /\ f a w1 = (w2, inr b).
Proof.
  unfold bind. destruct (m w) as [w1 [e|a]]; [discriminate|]. eauto.
Qed.

End Steps.

Lemma dict_read_ok d w c : dicts w !! d = Some c -> dict_read d w = (w, inr c).
Proof. unfold dict_read. intros ->. reflexivity. Qed.

Lemma rest_read_ok r w o : restaurants w !! r = Some o -> rest_read r w = (w, inr o).
Proof. unfold rest_read. intros ->. reflexivity. Qed.

Lemma team_read_ok t w o : teams w !! t = Some o -> team_read t w = (w, inr o).
Proof. unfold team_read. intros ->. reflexivity. Qed.

Lemma list_read_ok l w c : lists w !! l = Some c -> list_read l w = (w, inr c).
Proof. unfold list_read. intros ->. reflexivity. Qed.

Lemma fifo_read_ok s w c : systems w !! s = Some c -> fifo_read s w = (w, inr c).
Proof. unfold fifo_read. intros ->. reflexivity. Qed.

Lemma contains_ok d k w c :
  dicts w !! d = Some c -> contains d k w = (w, inr (Dict.contains k c)).
Proof. intros H. unfold contains. rewrite (bind_ok _ _ _ _ _ (dict_read_ok _ _ _ H)). reflexivity. Qed.

Lemma getitem_ok d k w c v :
  dicts w !! d = Some c -> Dict.get k c = Some v -> getitem d k w = (w, inr v).
Proof.
  intros H G. unfold getitem. rewrite (bind_ok _ _ _ _ _ (dict_read_ok _ _ _ H)).
  rewrite G. reflexivity.
Qed.

Lemma getitem_missing d k w c :
  dicts w !! d = Some c -> Dict.get k c = None -> getitem d k w = (w, inl (KeyError k)).
Proof.
  intros H G. unfold getitem. rewrite (bind_ok _ _ _ _ _ (dict_read_ok _ _ _ H)).
  rewrite G. reflexivity.
Qed.

Lemma setitem_ok d k v w c :
  dicts w !! d = Some c ->
  setitem d k v w = (with_dicts w (<[d := Dict.set k v c]> (dicts w)), inr tt).
Proof.
  intros H. unfold setitem. rewrite (bind_ok _ _ _ _ _ (dict_read_ok _ _ _ H)).
  reflexivity.
Qed.

Lemma sum_values_ok d w c :
  dicts w !! d = Some c -> sum_values d w = (w, inr (sum (Dict.values c))).
Proof. intros H. unfold sum_values. rewrite (bind_ok _ _ _ _ _ (dict_read_ok _ _ _ H)). reflexivity. Qed.

Lemma dict_keys_ok d w c :
  dicts w !! d = Some c -> dict_keys d w = (w, inr (Dict.keys c)).
Proof. intros H. unfold dict_keys. rewrite (bind_ok _ _ _ _ _ (dict_read_ok _ _ _ H)). reflexivity. Qed.

Lemma checkFood_ok r w o :
  restaurants w !! r = Some o -> Restaurant.checkFood r w = (w, inr (RestaurantObj._foodInStock o)).
Proof. intros H. unfold Restaurant.checkFood. rewrite (bind_ok _ _ _ _ _ (rest_read_ok _ _ _ H)). reflexivity. Qed.

Lemma rest_name_ok r w o :
  restaurants w !! r = Some o -> Restaurant.name r w = (w, inr (RestaurantObj._name o)).
Proof. intros H. unfold Restaurant.name. rewrite (bind_ok _ _ _ _ _ (rest_read_ok _ _ _ H)). reflexivity. Qed.

Lemma rest_rate_ok r w o :
  restaurants w !! r = Some o -> Restaurant.rate r w = (w, inr (RestaurantObj._rate o)).
Proof. intros H. unfold Restaurant.rate. rewrite (bind_ok _ _ _ _ _ (rest_read_ok _ _ _ H)). reflexivity. Qed.

Lemma team_name_ok t w o :
  teams w !! t = Some o -> Team.name t w = (w, inr (TeamObj._name o)).
Proof. intros H. unfold Team.name. rewrite (bind_ok _ _ _ _ _ (team_read_ok _ _ _ H)). reflexivity. Qed.

Lemma team_demand_ok t w o :
  teams w !! t = Some o -> Team.demand t w = (w, inr (TeamObj._demand o)).
Proof. intros H. unfold Team.demand. rewrite (bind_ok _ _ _ _ _ (team_read_ok _ _ _ H)). reflexivity. Qed.

(** ** [Restaurant.addOrder] *)

Section AddOrder.
Variables (self order : ref) (R : RestaurantObj.t).
Let stock := RestaurantObj._foodInStock R.

Lemma check_loop meals w S O :
  restaurants w !! self = Some R ->
  dicts w !! stock = Some S ->
  dicts w !! order = Some O ->
  for_each meals (Restaurant.check_meal self order) w =
    (w, match checked (RestaurantObj._name R) S O meals with
        | Some e => inl e
        | None => inr tt
        end).
Proof.
  intros HR HS HO. induction meals as [|meal meals IH]; simpl; [reflexivity|].
  unfold Restaurant.check_meal at 1.
  unfold bind at 1.
  rewrite (bind_ok _ _ _ _ _ (checkFood_ok _ _ _ HR)).
  rewrite (bind_ok _ _ _ _ _ (contains_ok _ meal _ _ HS)).
  rewrite contains_get.
  destruct (Dict.get meal S) as [avail|] eqn:GS; simpl.
  - destruct (Dict.get meal O) as [asked|] eqn:GO.
    + rewrite (bind_ok _ _ _ _ _ (getitem_ok _ _ _ _ _ HO GO)).
      rewrite (bind_ok _ _ _ _ _ (checkFood_ok _ _ _ HR)).
      rewrite (bind_ok _ _ _ _ _ (getitem_ok _ _ _ _ _ HS GS)).
      destruct (asked >? avail); [reflexivity|]. unfold ret. exact IH.
    + rewrite (bind_raise _ _ _ _ _ (getitem_missing _ _ _ _ HO GO)). reflexivity.
  - rewrite (bind_ok _ _ _ _ _ (rest_name_ok _ _ _ HR)). reflexivity.
Qed.

Lemma take_loop meals w S O :
  restaurants w !! self = Some R ->
  dicts w !! stock = Some S ->
  dicts w !! order = Some O ->
  order <> stock ->
  Forall (fun meal => Dict.contains meal S = true /\ Dict.contains meal O = true) meals ->
  for_each meals (Restaurant.take_meal self order) w =
    (with_dicts w (<[stock := taken S O meals]> (dicts w)), inr tt).
Proof.
  intros HR HS HO Hne. revert w S HR HS HO.
  induction meals as [|meal meals IH]; intros w S HR HS HO Hall; simpl.
  - rewrite list_insert_id by exact HS. destruct w; reflexivity.
  - inversion Hall as [|? ? [HcS HcO] Hall']; subst.
    rewrite !contains_get in HcS, HcO.
    destruct (Dict.get meal S) as [avail|] eqn:GS; [|discriminate].
    destruct (Dict.get meal O) as [asked|] eqn:GO; [|discriminate].
    unfold Restaurant.take_meal at 1. unfold bind at 1.
    rewrite (bind_ok _ _ _ _ _ (checkFood_ok _ _ _ HR)).
    rewrite (bind_ok _ _ _ _ _ (getitem_ok _ _ _ _ _ HS GS)).
    rewrite (bind_ok _ _ _ _ _ (getitem_ok _ _ _ _ _ HO GO)).
    rewrite (setitem_ok _ _ _ _ _ HS).
    assert (Hlt : (stock < length (dicts w))%nat) by (eapply lookup_lt_Some; eassumption).
    rewrite IH with (S := Dict.set meal (avail - asked) S).
    + simpl. rewrite list_insert_insert_eq.
      unfold Dict.count. rewrite GS, GO. reflexivity.
    + exact HR.
    + simpl. apply list_lookup_insert_eq. exact Hlt.
    + simpl. rewrite list_lookup_insert_ne by congruence. exact HO.
    + eapply Forall_impl; [exact Hall'|]. simpl. intros m [H1 H2]. split; [|exact H2].
      rewrite contains_set, H1. apply orb_true_r.
Qed.

Lemma checked_contains name S O meals :
  checked name S O meals = None ->
  Forall (fun meal => Dict.contains meal S = true /\ Dict.contains meal O = true) meals.
Proof.
  induction meals as [|meal meals IH]; simpl; intros H; constructor.
  - rewrite !contains_get.
    destruct (Dict.get meal S); [|discriminate]. destruct (Dict.get meal O); [|discriminate].
    split; reflexivity.
  - apply IH.
    destruct (Dict.get meal S); [|discriminate]. destruct (Dict.get meal O); [|discriminate].
    destruct (_ >? _); [discriminate|exact H].
Qed.

Lemma addOrder_spec teamName w S O :
  restaurants w !! self = Some R ->
  dicts w !! stock = Some S ->
  dicts w !! order = Some O ->
  order <> stock ->
  Restaurant.addOrder self teamName (VDict order) w =
    match checked (RestaurantObj._name R) S O (Dict.keys O) with
    | Some e => (w, inl e)
    | None =>
        (mkWorld (<[stock := taken S O (Dict.keys O)]> (dicts w))
                 (<[self := with_history R (RestaurantObj._orderHistory R ++ [(teamName, order)])]>
                    (restaurants w))
                 (teams w) (lists w) (systems w), inr tt)
    end.
Proof.
  intros HR HS HO Hne. unfold Restaurant.addOrder.
  rewrite (bind_ok _ _ _ _ _ (dict_keys_ok _ _ _ HO)).
  unfold bind at 1. rewrite (check_loop _ _ _ _ HR HS HO).
  destruct (checked _ S O (Dict.keys O)) as [e|] eqn:Hc; [reflexivity|].
  rewrite (bind_ok _ _ _ _ _ (dict_keys_ok _ _ _ HO)).
  unfold bind at 1.
  rewrite (take_loop _ _ _ _ HR HS HO Hne (checked_contains _ _ _ _ Hc)).
  unfold with_dicts, rest_read, rest_write, bind, from_option. simpl.
  rewrite HR. reflexivity.
Qed.

End AddOrder.

Section Taken.
Implicit Types (S O : Dict.t) (meals : list string).

Lemma taken_get_out c S O meals :
  ~ In c meals -> Dict.get c (taken S O meals) = Dict.get c S.
Proof.
  revert S. induction meals as [|meal meals IH]; intros S Hn; simpl; [reflexivity|].
  rewrite IH by (intros H; apply Hn; right; exact H).
  apply get_set_ne. intros ->. apply Hn. left. reflexivity.
Qed.

Lemma taken_get_in c S O meals :
  List.NoDup meals -> In c meals ->
  Dict.get c (taken S O meals) = Some (Dict.count c S - Dict.count c O).
Proof.
  revert S. induction meals as [|meal meals IH]; intros S Hnd Hin; simpl; [destruct Hin|].
  inversion Hnd as [|? ? Hnot Hnd']; subst.
  destruct Hin as [->|Hin].
  - rewrite taken_get_out by exact Hnot. apply get_set_eq.
  - rewrite IH by assumption.
    rewrite count_set.
    destruct (String.eqb meal c) eqn:E; [|reflexivity].
    apply String.eqb_eq in E. subst. contradiction.
Qed.

Lemma count_absent c O : ~ In c (Dict.keys O) -> Dict.count c O = 0.
Proof.
  intros H. unfold Dict.count.
  destruct (Dict.get c O) eqn:G; [|reflexivity].
  exfalso. apply H. apply get_In_keys. rewrite contains_get, G. reflexivity.
Qed.

(** After the second loop every count of the stock is lower by what the
    order asks of it. *)
Lemma taken_keys c S O avail :
  List.NoDup (Dict.keys O) -> Dict.get c S = Some avail ->
  Dict.get c (taken S O (Dict.keys O)) = Some (avail - Dict.count c O).
Proof.
  intros Hnd G. destruct (in_dec String.string_dec c (Dict.keys O)) as [Hin|Hout].
  - rewrite taken_get_in by assumption. unfold Dict.count at 1. rewrite G. reflexivity.
  - rewrite taken_get_out by assumption. rewrite count_absent by assumption.
    rewrite G. f_equal. lia.
Qed.

Lemma taken_none c S O :
  Forall (fun meal => Dict.contains meal S = true /\ Dict.contains meal O = true) (Dict.keys O) ->
  Dict.get c S = None -> Dict.get c (taken S O (Dict.keys O)) = None.
Proof.
  intros Hall G. rewrite taken_get_out; [exact G|].
  intros Hin. rewrite List.Forall_forall in Hall. destruct (Hall _ Hin) as [H _].
  rewrite contains_get, G in H. discriminate.
Qed.

Lemma taken_same_keys S O meals :
  Forall (fun meal => Dict.contains meal S = true) meals ->
  Dict.keys (taken S O meals) = Dict.keys S.
Proof.
  revert S. induction meals as [|meal meals IH]; intros S Hall; simpl; [reflexivity|].
  inversion Hall as [|? ? Hc Hall']; subst.
  rewrite IH.
  - apply keys_set_old, Hc.
  - eapply Forall_impl; [exact Hall'|]. simpl. intros m H.
    rewrite contains_set, H. apply orb_true_r.
Qed.

End Taken.

(** ** The grant of one restaurant *)

Section Fill.
Variables (demand rest orderResult : ref) (R : RestaurantObj.t).
Let stock := RestaurantObj._foodInStock R.
Hypothesis demand_order : demand <> orderResult.
Hypothesis stock_demand : stock <> demand.
Hypothesis stock_order : stock <> orderResult.

Lemma fill_spec foodType w S D O :
  restaurants w !! rest = Some R ->
  dicts w !! stock = Some S ->
  dicts w !! demand = Some D ->
  dicts w !! orderResult = Some O ->
  OrderSystem.fill demand rest orderResult foodType w =
    (with_dicts w (<[demand := fst (fill_step S (D, O) foodType)]>
                     (<[orderResult := snd (fill_step S (D, O) foodType)]> (dicts w))),
     inr tt).
Proof.
  intros HR HS HD HO.
  assert (Hsame : (with_dicts w (<[demand := D]> (<[orderResult := O]> (dicts w))), inr tt)
                  = (w, @inr exn unit tt)).
  { rewrite (list_insert_id (dicts w) orderResult O) by exact HO.
    rewrite list_insert_id by exact HD. destruct w; reflexivity. }
  unfold OrderSystem.fill, fill_step. simpl fst. simpl snd.
  rewrite (bind_ok _ _ _ _ _ (contains_ok _ foodType _ _ HD)).
  rewrite contains_get.
  destruct (Dict.get foodType D) as [d|] eqn:GD.
  2:{ unfold bind, ret. symmetry. exact Hsame. }
  assert (Hin : (foodInStock <- Restaurant.checkFood rest ;; contains foodInStock foodType) w
                = (w, inr (Dict.contains foodType S))).
  { rewrite (bind_ok _ _ _ _ _ (checkFood_ok _ _ _ HR)). apply contains_ok, HS. }
  rewrite (bind_ok _ _ _ _ _ Hin).
  rewrite contains_get.
  destruct (Dict.get foodType S) as [s|] eqn:GS.
  2:{ unfold ret. symmetry. exact Hsame. }
  rewrite (bind_ok _ _ _ _ _ (getitem_ok _ _ _ _ _ HD GD)).
  rewrite (bind_ok _ _ _ _ _ (checkFood_ok _ _ _ HR)).
  rewrite (bind_ok _ _ _ _ _ (getitem_ok _ _ _ _ _ HS GS)).
  rewrite (bind_ok _ _ _ _ _ (setitem_ok _ _ _ _ _ HO)).
  assert (Ho : (orderResult < length (dicts w))%nat) by (eapply lookup_lt_Some; eassumption).
  set (w1 := with_dicts w _).
  assert (HD1 : dicts w1 !! demand = Some D).
  { subst w1. simpl. rewrite list_lookup_insert_ne by congruence. exact HD. }
  assert (HO1 : dicts w1 !! orderResult = Some (Dict.set foodType (Z.min d s) O)).
  { subst w1. simpl. apply list_lookup_insert_eq, Ho. }
  rewrite (bind_ok _ _ _ _ _ (getitem_ok _ _ _ _ _ HD1 GD)).
  rewrite (bind_ok _ _ _ _ _ (getitem_ok _ _ _ _ _ HO1 (get_set_eq _ _ _))).
  rewrite (setitem_ok _ _ _ _ _ HD1).
  subst w1. reflexivity.
Qed.

Lemma fill_loop foodTypes w S D O :
  restaurants w !! rest = Some R ->
  dicts w !! stock = Some S ->
  dicts w !! demand = Some D ->
  dicts w !! orderResult = Some O ->
  for_each foodTypes (OrderSystem.fill demand rest orderResult) w =
    (with_dicts w (<[demand := fst (filled S D O foodTypes)]>
                     (<[orderResult := snd (filled S D O foodTypes)]> (dicts w))),
     inr tt).
Proof.
  revert w D O. induction foodTypes as [|foodType foodTypes IH]; intros w D O HR HS HD HO.
  - simpl. unfold ret.
    rewrite (list_insert_id (dicts w) orderResult O) by exact HO.
    rewrite list_insert_id by exact HD. destruct w; reflexivity.
  - simpl for_each. unfold bind at 1. rewrite (fill_spec _ _ _ _ _ HR HS HD HO).
    assert (Hd : (demand < length (dicts w))%nat) by (eapply lookup_lt_Some; eassumption).
    assert (Ho : (orderResult < length (dicts w))%nat) by (eapply lookup_lt_Some; eassumption).
    destruct (fill_step S (D, O) foodType) as [D1 O1] eqn:E.
    rewrite (IH _ D1 O1).
    + simpl. unfold filled. simpl. rewrite E.
      unfold with_dicts. simpl. f_equal. f_equal.
      rewrite (list_insert_insert_ne _ orderResult demand) by congruence.
      rewrite !list_insert_insert_eq. reflexivity.
    + exact HR.
    + simpl. rewrite !list_lookup_insert_ne by congruence. exact HS.
    + simpl. apply list_lookup_insert_eq. rewrite length_insert. exact Hd.
    + simpl. rewrite list_lookup_insert_ne by congruence.
      apply list_lookup_insert_eq, Ho.
Qed.

End Fill.

Section Filled.
Variable S : Dict.t.

Lemma within_nil : within S [].
Proof. intros k v H. discriminate. Qed.

Lemma fill_step_within D O foodType :
  within S O -> within S (snd (fill_step S (D, O) foodType)).
Proof.
  intros HO. unfold fill_step. simpl.
  destruct (Dict.get foodType D) as [d|]; [|exact HO].
  destruct (Dict.get foodType S) as [s|] eqn:GS; [|exact HO].
  simpl. intros k v. rewrite get_set.
  destruct (String.eqb foodType k) eqn:E; [|apply HO].
  apply String.eqb_eq in E. subst k. intros [= <-]. exists s. split; [exact GS|lia].
Qed.

Lemma filled_within foodTypes D O :
  within S O -> within S (snd (filled S D O foodTypes)).
Proof.
  revert D O. induction foodTypes as [|ft fts IH]; intros D O HO; [exact HO|].
  unfold filled. simpl.
  destruct (fill_step S (D, O) ft) as [D1 O1] eqn:E.
  apply IH. replace O1 with (snd (fill_step S (D, O) ft)) by (rewrite E; reflexivity).
  apply fill_step_within, HO.
Qed.

Lemma within_checked name O meals :
  within S O -> (forall meal, In meal meals -> In meal (Dict.keys O)) ->
  checked name S O meals = None.
Proof.
  intros HO. induction meals as [|meal meals IH]; intros Hsub; simpl; [reflexivity|].
  assert (Hin : In meal (Dict.keys O)) by (apply Hsub; left; reflexivity).
  apply get_In_keys in Hin. rewrite contains_get in Hin.
  destruct (Dict.get meal O) as [v|] eqn:GO; [|discriminate].
  destruct (HO _ _ GO) as [s [GS Hle]]. rewrite GS.
  replace (v >? s) with false by (symmetry; rewrite Z.gtb_ltb; apply Z.ltb_ge; exact Hle).
  apply IH. intros m Hm. apply Hsub. right. exact Hm.
Qed.

Lemma fill_step_contains D O foodType c :
  Dict.contains c (fst (fill_step S (D, O) foodType)) = Dict.contains c D.
Proof.
  unfold fill_step. simpl.
  destruct (Dict.get foodType D) as [d|] eqn:GD; [|reflexivity].
  destruct (Dict.get foodType S) as [s|]; [|reflexivity].
  simpl. rewrite contains_set.
  destruct (String.eqb foodType c) eqn:E; [|reflexivity].
  apply String.eqb_eq in E. subst. rewrite contains_get, GD. reflexivity.
Qed.

Lemma filled_contains foodTypes D O c :
  Dict.contains c (fst (filled S D O foodTypes)) = Dict.contains c D.
Proof.
  revert D O. induction foodTypes as [|ft fts IH]; intros D O; [reflexivity|].
  unfold filled. simpl. destruct (fill_step S (D, O) ft) as [D1 O1] eqn:E.
  fold (filled S D1 O1 fts). rewrite IH.
  replace D1 with (fst (fill_step S (D, O) ft)) by (rewrite E; reflexivity).
  apply fill_step_contains.
Qed.

Lemma fill_step_keys D O foodType :
  Dict.keys (fst (fill_step S (D, O) foodType)) = Dict.keys D.
Proof.
  unfold fill_step. simpl.
  destruct (Dict.get foodType D) as [d|] eqn:GD; [|reflexivity].
  destruct (Dict.get foodType S) as [s|]; [|reflexivity].
  simpl. apply keys_set_old. rewrite contains_get, GD. reflexivity.
Qed.

Lemma filled_keys foodTypes D O :
  Dict.keys (fst (filled S D O foodTypes)) = Dict.keys D.
Proof.
  revert D O. induction foodTypes as [|ft fts IH]; intros D O; [reflexivity|].
  unfold filled. simpl. destruct (fill_step S (D, O) ft) as [D1 O1] eqn:E.
  fold (filled S D1 O1 fts). rewrite IH.
  replace D1 with (fst (fill_step S (D, O) ft)) by (rewrite E; reflexivity).
  apply fill_step_keys.
Qed.

Lemma fill_step_nonneg D O foodType :
  nonneg D -> nonneg (fst (fill_step S (D, O) foodType)).
Proof.
  intros HD. unfold fill_step. simpl.
  destruct (Dict.get foodType D) as [d|] eqn:GD; [|exact HD].
  destruct (Dict.get foodType S) as [s|]; [|exact HD].
  simpl. intros k v. rewrite get_set.
  destruct (String.eqb foodType k); [|apply HD].
  intros [= <-]. lia.
Qed.

Lemma filled_nonneg foodTypes D O :
  nonneg D -> nonneg (fst (filled S D O foodTypes)).
Proof.
  revert D O. induction foodTypes as [|ft fts IH]; intros D O HD; [exact HD|].
  unfold filled. simpl. destruct (fill_step S (D, O) ft) as [D1 O1] eqn:E.
  apply IH. replace D1 with (fst (fill_step S (D, O) ft)) by (rewrite E; reflexivity).
  apply fill_step_nonneg, HD.
Qed.

(** the keys of the order are food types gone through *)
Lemma fill_step_order_keys D O foodType k :
  In k (Dict.keys (snd (fill_step S (D, O) foodType))) ->
  k = foodType \/ In k (Dict.keys O).
Proof.
  unfold fill_step. simpl.
  destruct (Dict.get foodType D) as [d|]; [|tauto].
  destruct (Dict.get foodType S) as [s|]; [|tauto].
  simpl. rewrite !get_In_keys, contains_set.
  destruct (String.eqb foodType k) eqn:E; simpl; [|tauto].
  apply String.eqb_eq in E. intros _. left. congruence.
Qed.

(** what leaves the demand enters the order *)
Lemma fill_step_count D O foodType c :
  ~ In foodType (Dict.keys O) ->
  Dict.count c (fst (fill_step S (D, O) foodType))
    + Dict.count c (snd (fill_step S (D, O) foodType))
  = Dict.count c D + Dict.count c O.
Proof.
  intros Hnew. unfold fill_step. simpl.
  destruct (Dict.get foodType D) as [d|] eqn:GD; [|reflexivity].
  destruct (Dict.get foodType S) as [s|]; [|reflexivity].
  simpl. rewrite !count_set.
  destruct (String.eqb foodType c) eqn:E; [|reflexivity].
  apply String.eqb_eq in E. subst c.
  rewrite (count_absent _ _ Hnew). unfold Dict.count. rewrite GD. lia.
Qed.

Lemma filled_count foodTypes D O c :
  List.NoDup foodTypes ->
  (forall ft, In ft foodTypes -> ~ In ft (Dict.keys O)) ->
  Dict.count c (fst (filled S D O foodTypes))
    + Dict.count c (snd (filled S D O foodTypes))
  = Dict.count c D + Dict.count c O.
Proof.
  revert D O. induction foodTypes as [|ft fts IH]; intros D O Hnd Hnew; [reflexivity|].
  inversion Hnd as [|? ? Hft Hnd']; subst.
  unfold filled. simpl. destruct (fill_step S (D, O) ft) as [D1 O1] eqn:E.
  fold (filled S D1 O1 fts). rewrite IH.
  - replace D1 with (fst (fill_step S (D, O) ft)) by (rewrite E; reflexivity).
    replace O1 with (snd (fill_step S (D, O) ft)) by (rewrite E; reflexivity).
    apply fill_step_count. apply Hnew. left. reflexivity.
  - exact Hnd'.
  - intros k Hk Hin.
    replace O1 with (snd (fill_step S (D, O) ft)) in Hin by (rewrite E; reflexivity).
    apply fill_step_order_keys in Hin. destruct Hin as [->|Hin]; [contradiction|].
    apply (Hnew k); [right; exact Hk|exact Hin].
Qed.

End Filled.

Lemma set_NoDup k v d : List.NoDup (Dict.keys d) -> List.NoDup (Dict.keys (Dict.set k v d)).
Proof.
  intros H. destruct (Dict.contains k d) eqn:E.
  - rewrite keys_set_old by exact E. exact H.
  - rewrite keys_set_new by exact E.
    apply NoDup_ListNoDup, NoDup_app. apply NoDup_ListNoDup in H.
    split; [exact H|]. split; [|apply NoDup_singleton].
    intros x Hx Hx'. apply list_elem_of_singleton in Hx'. subst x.
    apply list_elem_of_In, get_In_keys in Hx. congruence.
Qed.

Lemma filled_NoDup S foodTypes D O :
  List.NoDup (Dict.keys O) -> List.NoDup (Dict.keys (snd (filled S D O foodTypes))).
Proof.
  revert D O. induction foodTypes as [|ft fts IH]; intros D O HO; [exact HO|].
  unfold filled. simpl. destruct (fill_step S (D, O) ft) as [D1 O1] eqn:E.
  apply IH. revert E. unfold fill_step. simpl.
  destruct (Dict.get ft D); [|intros [= <- <-]; exact HO].
  destruct (Dict.get ft S); intros [= <- <-]; [|exact HO].
  apply set_NoDup, HO.
Qed.

Lemma FOODTYPE_NoDup : List.NoDup OrderSystem.FOODTYPE.
Proof.
  unfold OrderSystem.FOODTYPE.
  repeat (constructor; [simpl; intros H; repeat (destruct H as [H|H]; [discriminate|]); exact H|]).
  constructor.
Qed.

(** ** One turn of [for rest in restaurantList] *)

Lemma insert_at_end {A} (l : list A) (x y : A) : <[length l := y]> (l ++ [x]) = l ++ [y].
Proof.
  rewrite insert_app_r_alt by lia. rewrite Nat.sub_diag. reflexivity.
Qed.

Lemma lookup_at_end {A} (l : list A) (x : A) : (l ++ [x]) !! length l = Some x.
Proof.
  rewrite lookup_app_r by lia. rewrite Nat.sub_diag. reflexivity.
Qed.

Lemma serve_spec w t demand rest T R S D :
  teams w !! t = Some T ->
  restaurants w !! rest = Some R ->
  dicts w !! RestaurantObj._foodInStock R = Some S ->
  dicts w !! demand = Some D ->
  RestaurantObj._foodInStock R <> demand ->
  OrderSystem.serve t demand rest w =
    (if sum (Dict.values S) =? 0 then w else served w t demand rest T R S D, inr tt).
Proof.
  intros HT HR HS HD Hne. unfold OrderSystem.serve.
  set (stock := RestaurantObj._foodInStock R) in *.
  rewrite (bind_ok _ _ _ _ _ (checkFood_ok _ _ _ HR)). fold stock.
  rewrite (bind_ok _ _ _ _ _ (sum_values_ok _ _ _ HS)).
  destruct (sum (Dict.values S) =? 0); [reflexivity|].
  assert (Hs : (stock < length (dicts w))%nat) by (eapply lookup_lt_Some; eassumption).
  assert (Hd : (demand < length (dicts w))%nat) by (eapply lookup_lt_Some; eassumption).
  unfold bind at 1. unfold dict_new at 1.
  set (o := length (dicts w)).
  set (w1 := mkWorld _ _ _ _ _).
  assert (HR1 : restaurants w1 !! rest = Some R) by exact HR.
  assert (HS1 : dicts w1 !! stock = Some S) by (apply lookup_app_l_Some, HS).
  assert (HD1 : dicts w1 !! demand = Some D) by (apply lookup_app_l_Some, HD).
  assert (HO1 : dicts w1 !! o = Some []) by apply lookup_at_end.
  unfold bind at 1.
  rewrite (fill_loop demand rest o R ltac:(lia) Hne ltac:(fold stock; lia)
             OrderSystem.FOODTYPE w1 S D [] HR1 HS1 HD1 HO1).
  set (DO := filled _ _ _ _).
  set (w2 := with_dicts w1 _).
  assert (HT2 : teams w2 !! t = Some T) by exact HT.
  rewrite (bind_ok _ _ _ _ _ (team_name_ok _ _ _ HT2)).
  assert (HR2 : restaurants w2 !! rest = Some R) by exact HR.
  assert (HS2 : dicts w2 !! stock = Some S).
  { subst w2. simpl. rewrite !list_lookup_insert_ne by (fold stock; lia). exact HS1. }
  assert (HO2 : dicts w2 !! o = Some (snd DO)).
  { subst w2. simpl. rewrite list_lookup_insert_ne by lia.
    apply list_lookup_insert_eq. rewrite length_app. simpl. lia. }
  assert (Hchk : checked (RestaurantObj._name R) S (snd DO) (Dict.keys (snd DO)) = None).
  { apply within_checked; [|auto]. apply filled_within, within_nil. }
  unfold bind at 1.
  rewrite (addOrder_spec rest o R (TeamObj._name T) w2 S (snd DO) HR2 HS2 HO2
             ltac:(fold stock; lia)).
  rewrite Hchk.
  set (w3 := mkWorld _ _ _ _ _).
  assert (HR3 : restaurants w3 !! rest = Some (with_history R
            (RestaurantObj._orderHistory R ++ [(TeamObj._name T, o)]))).
  { subst w3. simpl. apply list_lookup_insert_eq. eapply lookup_lt_Some; eassumption. }
  rewrite (bind_ok _ _ _ _ _ (rest_name_ok _ _ _ HR3)).
  unfold Team.addOrder.
  assert (HT3 : teams w3 !! t = Some T) by exact HT.
  rewrite (bind_ok _ _ _ _ _ (team_read_ok _ _ _ HT3)).
  unfold team_write, served. subst w3 w2 w1. simpl.
  f_equal. unfold with_result. simpl. f_equal.
  fold stock. f_equal. f_equal. apply insert_at_end.
Qed.

(** ** The sort *)

Section SortFacts.

Lemma insert_desc_perm {K} (ltb : K -> K -> bool) x l :
  Permutation (x :: l) (insert_desc ltb x l).
Proof.
  induction l as [|y l IH]; simpl; [reflexivity|].
  destruct (ltb (fst x) (fst y)); [|reflexivity].
  rewrite perm_swap. apply perm_skip, IH.
Qed.

Lemma sort_desc_perm {K} (ltb : K -> K -> bool) l :
  Permutation l (sort_desc ltb l).
Proof.
  induction l as [|x l IH]; simpl; [reflexivity|].
  rewrite <- insert_desc_perm. apply perm_skip, IH.
Qed.

Lemma insert_desc_sorted x l :
  StronglySorted desc l -> StronglySorted desc (insert_desc Z.ltb x l).
Proof.
  induction 1 as [|y l Hl IH Hy]; simpl; [repeat constructor|].
  destruct (Z.ltb_spec (fst x) (fst y)) as [Hlt|Hge].
  - constructor; [exact IH|].
    eapply Permutation_Forall; [apply insert_desc_perm|].
    constructor; [unfold desc; lia|exact Hy].
  - constructor; [constructor; assumption|].
    constructor; [exact Hge|].
    eapply Forall_impl; [exact Hy|]. unfold desc. simpl. intros a Ha. lia.
Qed.

Lemma sort_desc_sorted l : StronglySorted desc (sort_desc Z.ltb l).
Proof.
  induction l as [|x l IH]; simpl; [constructor|]. apply insert_desc_sorted, IH.
Qed.

Lemma insert_desc_stable v x l :
  List.filter (fun y : Z * nat => fst y =? v) (insert_desc Z.ltb x l)
  = List.filter (fun y : Z * nat => fst y =? v) (x :: l).
Proof.
  induction l as [|y l IH]; [reflexivity|].
  simpl insert_desc. destruct (Z.ltb_spec (fst x) (fst y)) as [Hlt|Hge]; [|reflexivity].
  simpl in *. rewrite IH.
  destruct (Z.eqb_spec (fst x) v) as [Hx|Hx]; [|reflexivity].
  destruct (Z.eqb_spec (fst y) v) as [Hy|Hy]; [lia|reflexivity].
Qed.

Lemma sort_desc_stable v l :
  List.filter (fun y : Z * nat => fst y =? v) (sort_desc Z.ltb l)
  = List.filter (fun y : Z * nat => fst y =? v) l.
Proof.
  induction l as [|x l IH]; [reflexivity|].
  simpl sort_desc. rewrite insert_desc_stable. simpl. rewrite IH. reflexivity.
Qed.

Lemma by_rate_keyed f rs :
  sort_desc Z.ltb (map (fun r => (f r, r)) rs) = map (fun r => (f r, r)) (by_rate f rs).
Proof.
  unfold by_rate.
  assert (H : Forall (fun x : Z * nat => fst x = f (snd x))
                (sort_desc Z.ltb (map (fun r => (f r, r)) rs))).
  { eapply Permutation_Forall; [apply sort_desc_perm|].
    apply List.Forall_forall. intros x Hx. apply in_map_iff in Hx.
    destruct Hx as [r [<- _]]. reflexivity. }
  induction H as [|[k r] l Hx _ IH]; simpl; [reflexivity|].
  simpl in Hx. subst k. f_equal. exact IH.
Qed.

Lemma by_rate_perm f rs : Permutation rs (by_rate f rs).
Proof.
  unfold by_rate.
  rewrite <- (sort_desc_perm Z.ltb (map (fun r => (f r, r)) rs)).
  rewrite map_map. simpl. rewrite map_id. reflexivity.
Qed.

Lemma by_rate_sorted f rs :
  StronglySorted (fun a b => f b <= f a) (by_rate f rs).
Proof.
  pose proof (sort_desc_sorted (map (fun r => (f r, r)) rs)) as H.
  rewrite by_rate_keyed in H.
  induction (by_rate f rs) as [|a l IH]; [constructor|].
  simpl in H. inversion H as [|? ? Hl Ha]; subst.
  constructor; [apply IH, Hl|].
  apply List.Forall_forall. intros b Hb.
  rewrite List.Forall_forall in Ha.
  apply (Ha (f b, b)). apply in_map_iff. exists b. split; [reflexivity|exact Hb].
Qed.

Lemma filter_keyed f v l :
  List.filter (fun y : Z * nat => fst y =? v) (map (fun r => (f r, r)) l)
  = map (fun r => (f r, r)) (List.filter (fun r => f r =? v) l).
Proof.
  induction l as [|a l IH]; simpl; [reflexivity|].
  destruct (f a =? v); simpl; rewrite IH; reflexivity.
Qed.

Lemma by_rate_stable f v rs :
  List.filter (fun r => f r =? v) (by_rate f rs) = List.filter (fun r => f r =? v) rs.
Proof.
  pose proof (sort_desc_stable v (map (fun r => (f r, r)) rs)) as H.
  rewrite by_rate_keyed, !filter_keyed in H.
  apply (f_equal (map snd)) in H. rewrite !map_map in H. simpl in H.
  rewrite !map_id in H. exact H.
Qed.

Lemma by_rate_nil f : by_rate f [] = [].
Proof. reflexivity. Qed.

End SortFacts.

(** ** Stores in which a call finds its objects *)

Lemma has_stock_inv w r :
  has_stock w r = true ->
  exists R S, restaurants w !! r = Some R /\ dicts w !! RestaurantObj._foodInStock R = Some S.
Proof.
  unfold has_stock. destruct (restaurants w !! r) as [R|]; [|discriminate].
  intros H. apply Nat.ltb_lt, lookup_lt_is_Some in H. destruct H as [S HS]. eauto.
Qed.

Lemma ready_inv w t l :
  ready w t l = true ->
  exists T D rs, teams w !! t = Some T /\ dicts w !! TeamObj._demand T = Some D /\
    lists w !! l = Some rs /\ Forall (fun r => has_stock w r = true) rs.
Proof.
  unfold ready. destruct (teams w !! t) as [T|]; [|discriminate].
  destruct (lists w !! l) as [rs|]; [|discriminate].
  intros H. apply andb_prop in H. destruct H as [H1 H2].
  apply Nat.ltb_lt, lookup_lt_is_Some in H1. destruct H1 as [D HD].
  exists T, D, rs. repeat split; try assumption.
  apply List.Forall_forall. rewrite forallb_forall in H2. exact H2.
Qed.

Lemma with_keys_rate w rs :
  Forall (fun r => has_stock w r = true) rs ->
  with_keys OrderSystem.key_rate rs w = (w, inr (map (fun r => (rate_of w r, r)) rs)).
Proof.
  induction 1 as [|r rs Hr _ IH]; simpl; [reflexivity|].
  destruct (has_stock_inv _ _ Hr) as [R [S [HR _]]].
  unfold OrderSystem.key_rate at 1.
  rewrite (bind_ok _ _ _ _ _ (rest_rate_ok _ _ _ HR)).
  rewrite (bind_ok _ _ _ _ _ IH). unfold rate_of. rewrite HR. reflexivity.
Qed.

Lemma sort_by_rate w l rs :
  lists w !! l = Some rs ->
  Forall (fun r => has_stock w r = true) rs ->
  list_sort_reverse Z.ltb l OrderSystem.key_rate w
  = (with_lists w (<[l := by_rate (rate_of w) rs]> (lists w)), inr tt).
Proof.
  intros Hl Hrs. unfold list_sort_reverse.
  rewrite (bind_ok _ _ _ _ _ (list_read_ok _ _ _ Hl)).
  rewrite (bind_ok _ _ _ _ _ (with_keys_rate _ _ Hrs)). reflexivity.
Qed.

Lemma sort_by_rate_size_nil w l :
  lists w !! l = Some [] ->
  list_sort_reverse OrderSystem.pair_ltb l OrderSystem.key_rate_size w
  = (with_lists w (<[l := []]> (lists w)), inr tt).
Proof.
  intros Hl. unfold list_sort_reverse.
  rewrite (bind_ok _ _ _ _ _ (list_read_ok _ _ _ Hl)). reflexivity.
Qed.

Lemma sort_by_rate_size_raises w l r rs R :
  lists w !! l = Some (r :: rs) ->
  restaurants w !! r = Some R ->
  list_sort_reverse OrderSystem.pair_ltb l OrderSystem.key_rate_size w
  = (w, inl (TypeError OrderSystem.not_callable)).
Proof.
  intros Hl HR. unfold list_sort_reverse.
  rewrite (bind_ok _ _ _ _ _ (list_read_ok _ _ _ Hl)).
  simpl with_keys. unfold OrderSystem.key_rate_size at 1.
  unfold bind at 1. unfold bind at 1. unfold bind at 1.
  rewrite (rest_rate_ok _ _ _ HR).
  unfold bind at 1. rewrite (checkFood_ok _ _ _ HR). reflexivity.
Qed.

(** ** The loop over the restaurants *)

Lemma served_valid t demand rs w rest T R S D :
  Valid t demand rs w ->
  teams w !! t = Some T ->
  restaurants w !! rest = Some R ->
  Valid t demand rs (served w t demand rest T R S D).
Proof.
  intros (Ht & Hd & Hrs) HT HR. unfold Valid, served. simpl. repeat split.
  - apply list_lookup_insert_is_Some. exact Ht.
  - apply lookup_lt_is_Some. rewrite !length_insert, length_app.
    apply lookup_lt_is_Some in Hd. simpl. lia.
  - intros r Hr. destruct (Hrs r Hr) as [R' [HR' Hlt]].
    destruct (Nat.eq_dec rest r) as [->|Hne].
    + rewrite list_lookup_insert_eq by (eapply lookup_lt_Some; eassumption).
      eexists. split; [reflexivity|]. simpl. congruence.
    + rewrite list_lookup_insert_ne by exact Hne. eauto.
Qed.

Section Loop.
Variables (t demand : ref) (rs : list ref).
Variable P : World -> Prop.

Hypothesis step : forall w rest T R S D,
  Valid t demand rs w -> P w -> In rest rs ->
  teams w !! t = Some T ->
  restaurants w !! rest = Some R ->
  dicts w !! RestaurantObj._foodInStock R = Some S ->
  dicts w !! demand = Some D ->
  (RestaurantObj._foodInStock R < demand)%nat ->
  sum (Dict.values S) <> 0 ->
  P (served w t demand rest T R S D).

Lemma serve_loop_from rs' w :
  (forall r, In r rs' -> In r rs) ->
  Valid t demand rs w -> P w ->
  exists w', for_each rs' (OrderSystem.serve t demand) w = (w', inr tt) /\
             Valid t demand rs w' /\ P w'.
Proof.
  revert w. induction rs' as [|rest rs' IH]; intros w Hsub HV HP.
  - exists w. simpl. auto.
  - assert (Hin : In rest rs) by (apply Hsub; left; reflexivity).
    destruct HV as (Ht & Hd & Hrs).
    destruct Ht as [T HT]. destruct Hd as [D HD].
    destruct (Hrs rest Hin) as [R [HR Hlt]].
    assert (HS : is_Some (dicts w !! RestaurantObj._foodInStock R)).
    { apply lookup_lt_is_Some. apply lookup_lt_Some in HD. lia. }
    destruct HS as [S HS].
    assert (HV : Valid t demand rs w) by (repeat split; eauto).
    simpl for_each. unfold bind at 1.
    rewrite (serve_spec w t demand rest T R S D HT HR HS HD ltac:(lia)).
    destruct (Z.eqb_spec (sum (Dict.values S)) 0) as [Hz|Hnz].
    + apply IH; [intros r Hr; apply Hsub; right; exact Hr|exact HV|exact HP].
    + apply IH; [intros r Hr; apply Hsub; right; exact Hr| |].
      * apply served_valid; assumption.
      * eapply step; eauto.
Qed.

Lemma serve_loop w :
  Valid t demand rs w -> P w ->
  exists w', for_each rs (OrderSystem.serve t demand) w = (w', inr tt) /\
             Valid t demand rs w' /\ P w'.
Proof. apply serve_loop_from. auto. Qed.

End Loop.

(** ** The final check *)

Lemma check_loop_spec w t demand T D foodTypes :
  teams w !! t = Some T ->
  dicts w !! demand = Some D ->
  (forall ft, In ft foodTypes -> In ft (Dict.keys D)) ->
  for_each foodTypes (OrderSystem.check t demand) w =
    (w, match unmet D foodTypes with
        | Some foodType =>
            inl (Exception (OrderSystem.not_satisfied (TeamObj._name T) foodType))
        | None => inr tt
        end).
Proof.
  intros HT HD. induction foodTypes as [|ft fts IH]; intros Hsub; simpl; [reflexivity|].
  assert (Hin : In ft (Dict.keys D)) by (apply Hsub; left; reflexivity).
  apply get_In_keys in Hin. rewrite contains_get in Hin.
  destruct (Dict.get ft D) as [d|] eqn:G; [|discriminate].
  unfold OrderSystem.check at 1. unfold bind at 1.
  rewrite (bind_ok _ _ _ _ _ (getitem_ok _ _ _ _ _ HD G)).
  unfold Dict.count. rewrite G.
  destruct (d >? 0).
  - rewrite (bind_ok _ _ _ _ _ (team_name_ok _ _ _ HT)). reflexivity.
  - unfold ret. apply IH. intros k Hk. apply Hsub. right. exact Hk.
Qed.

Lemma check_demand_spec w t demand T D :
  teams w !! t = Some T ->
  dicts w !! demand = Some D ->
  OrderSystem.check_demand t demand w = (w, verdict (TeamObj._name T) D).
Proof.
  intros HT HD. unfold OrderSystem.check_demand, verdict.
  rewrite (bind_ok _ _ _ _ _ (dict_keys_ok _ _ _ HD)).
  rewrite (check_loop_spec w t demand T D (Dict.keys D) HT HD) by auto.
  destruct (unmet D (Dict.keys D)); reflexivity.
Qed.

Lemma unmet_Some D foodTypes ft :
  unmet D foodTypes = Some ft -> In ft foodTypes /\ 0 < Dict.count ft D.
Proof.
  induction foodTypes as [|k fts IH]; simpl; [discriminate|].
  destruct (Z.gtb_spec (Dict.count k D) 0) as [Hgt|Hle].
  - intros [= <-]. split; [left; reflexivity|lia].
  - intros H. destruct (IH H). split; [right|]; assumption.
Qed.

Lemma unmet_None D foodTypes :
  unmet D foodTypes = None <-> forall ft, In ft foodTypes -> Dict.count ft D <= 0.
Proof.
  induction foodTypes as [|k fts IH]; simpl; [split; [intros _ ft []|reflexivity]|].
  destruct (Z.gtb_spec (Dict.count k D) 0) as [Hgt|Hle].
  - split; [discriminate|]. intros H. specialize (H k (or_introl eq_refl)). lia.
  - rewrite IH. split.
    + intros H ft [<-|Hin]; [exact Hle|apply H, Hin].
    + intros H ft Hin. apply H. right. exact Hin.
Qed.

(** ** [optimizeOrder] up to the final check *)

Section Place.
Variables (w : World) (t l : ref) (T : TeamObj.t) (D0 : Dict.t) (rs : list ref).
Hypothesis HT : teams w !! t = Some T.
Hypothesis HD0 : dicts w !! TeamObj._demand T = Some D0.
Hypothesis Hl : lists w !! l = Some rs.
Hypothesis Hrs : Forall (fun r => has_stock w r = true) rs.

Let demand := length (dicts w).
Let sorted := by_rate (rate_of w) rs.

Lemma started_valid : Valid t demand sorted (started w l rs D0).
Proof.
  unfold Valid, started. simpl. repeat split.
  - eauto.
  - exists D0. apply lookup_at_end.
  - intros r Hr.
    assert (Hin : In r rs).
    { eapply Permutation_in; [symmetry; apply by_rate_perm|exact Hr]. }
    rewrite List.Forall_forall in Hrs. specialize (Hrs r Hin).
    unfold has_stock in Hrs. destruct (restaurants w !! r) as [R|]; [|discriminate].
    exists R. split; [reflexivity|]. apply Nat.ltb_lt, Hrs.
Qed.

Variable P : World -> Prop.
Hypothesis init : P (started w l rs D0).
Hypothesis step : forall w' rest T' R S D,
  Valid t demand sorted w' -> P w' -> In rest sorted ->
  teams w' !! t = Some T' ->
  restaurants w' !! rest = Some R ->
  dicts w' !! RestaurantObj._foodInStock R = Some S ->
  dicts w' !! demand = Some D ->
  (RestaurantObj._foodInStock R < demand)%nat ->
  sum (Dict.values S) <> 0 ->
  P (served w' t demand rest T' R S D).

Lemma place_orders_spec :
  exists w', OrderSystem.place_orders (VTeam t) l false w = (w', inr (t, demand)) /\
             for_each sorted (OrderSystem.serve t demand) (started w l rs D0) = (w', inr tt) /\
             Valid t demand sorted w' /\ P w'.
Proof.
  destruct (serve_loop t demand sorted P step _ started_valid init) as [w' [Hrun [HV HP]]].
  exists w'. split; [|split; [exact Hrun|split; assumption]].
  unfold OrderSystem.place_orders. simpl negb. cbv iota.
  unfold bind at 1. rewrite (sort_by_rate _ _ _ Hl Hrs).
  unfold OrderSystem.the_team. unfold bind at 1. unfold ret at 1.
  set (w1 := with_lists w _).
  assert (HT1 : teams w1 !! t = Some T) by exact HT.
  rewrite (bind_ok _ _ _ _ _ (team_demand_ok _ _ _ HT1)).
  assert (HD1 : dicts w1 !! TeamObj._demand T = Some D0) by exact HD0.
  unfold dict_copy. unfold bind at 1.
  rewrite (bind_ok _ _ _ _ _ (dict_read_ok _ _ _ HD1)).
  unfold dict_new, Dict.copy.
  set (w2 := mkWorld _ _ _ _ _).
  assert (Hl2 : lists w2 !! l = Some sorted).
  { subst w2 w1. simpl. apply list_lookup_insert_eq. eapply lookup_lt_Some; eassumption. }
  rewrite (bind_ok _ _ _ _ _ (list_read_ok _ _ _ Hl2)).
  unfold bind. subst w2 w1. simpl. unfold started in Hrun. fold demand.
  rewrite Hrun. reflexivity.
Qed.

End Place.

(** ** What a run grants *)

Lemma total_granted_app w c h1 h2 :
  total_granted w c (h1 ++ h2) = total_granted w c h1 + total_granted w c h2.
Proof.
  induction h1 as [|e h1 IH]; simpl; [reflexivity|]. rewrite IH. lia.
Qed.

Lemma total_granted_ext w w' c h :
  Forall (fun e => dicts w' !! snd e = dicts w !! snd e) h ->
  total_granted w' c h = total_granted w c h.
Proof.
  induction 1 as [|e h He _ IH]; simpl; [reflexivity|].
  rewrite IH. unfold granted. rewrite He. reflexivity.
Qed.

Section ServedFacts.
Variables (w : World) (t demand rest : ref)
          (T : TeamObj.t) (R : RestaurantObj.t) (S D : Dict.t).
Hypothesis Hstock : (RestaurantObj._foodInStock R < demand)%nat.
Hypothesis Hdemand : (demand < length (dicts w))%nat.

Let w' := served w t demand rest T R S D.

Lemma served_length : length (dicts w') = Datatypes.S (length (dicts w)).
Proof. subst w'. unfold served. simpl. rewrite !length_insert, length_app. simpl. lia. Qed.

Lemma served_demand : dicts w' !! demand = Some (fst (filled S D [] OrderSystem.FOODTYPE)).
Proof.
  subst w'. unfold served. simpl. rewrite list_lookup_insert_ne by lia.
  apply list_lookup_insert_eq. rewrite length_app. simpl. lia.
Qed.

Lemma served_order :
  dicts w' !! length (dicts w) = Some (snd (filled S D [] OrderSystem.FOODTYPE)).
Proof.
  subst w'. unfold served. simpl. rewrite !list_lookup_insert_ne by lia.
  apply lookup_at_end.
Qed.

Lemma served_stock :
  dicts w' !! RestaurantObj._foodInStock R =
    Some (taken S (snd (filled S D [] OrderSystem.FOODTYPE))
                (Dict.keys (snd (filled S D [] OrderSystem.FOODTYPE)))).
Proof.
  subst w'. unfold served. simpl.
  apply list_lookup_insert_eq. rewrite length_insert, length_app. simpl. lia.
Qed.

Lemma served_other o :
  o <> RestaurantObj._foodInStock R -> o <> demand -> (o < length (dicts w))%nat ->
  dicts w' !! o = dicts w !! o.
Proof.
  intros H1 H2 H3. subst w'. unfold served. simpl.
  rewrite !list_lookup_insert_ne by congruence. apply lookup_app_l, H3.
Qed.

Lemma served_team :
  is_Some (teams w !! t) ->
  teams w' !! t = Some (with_result T
    (TeamObj._orderResult T ++ [(RestaurantObj._name R, length (dicts w))])).
Proof.
  intros H. subst w'. unfold served. simpl.
  apply list_lookup_insert_eq, lookup_lt_is_Some, H.
Qed.

Lemma served_restaurant :
  is_Some (restaurants w !! rest) ->
  restaurants w' !! rest = Some (with_history R
    (RestaurantObj._orderHistory R ++ [(TeamObj._name T, length (dicts w))])).
Proof.
  intros H. subst w'. unfold served. simpl.
  apply list_lookup_insert_eq, lookup_lt_is_Some, H.
Qed.

End ServedFacts.

Lemma Accounted_started w t l rs T D0 :
  teams w !! t = Some T ->
  Accounted t (length (dicts w)) T D0 (started w l rs D0).
Proof.
  intros HT. exists T, [], D0. unfold started. simpl.
  repeat split; try reflexivity; try assumption.
  - rewrite app_nil_r. reflexivity.
  - constructor.
  - apply lookup_at_end.
  - auto.
  - intros c. lia.
Qed.

Lemma Accounted_served t demand T0 D0 w rest T R S D :
  Accounted t demand T0 D0 w ->
  teams w !! t = Some T ->
  dicts w !! demand = Some D ->
  (RestaurantObj._foodInStock R < demand)%nat ->
  Accounted t demand T0 D0 (served w t demand rest T R S D).
Proof.
  intros (T' & new & D' & HT' & Hname & Hdem & Hres & Hnew & HD' & Hkeys & Hnn & Hsum) HT HD Hlt.
  assert (T' = T) by congruence. subst T'.
  assert (D' = D) by congruence. subst D'.
  assert (Hd : (demand < length (dicts w))%nat) by (eapply lookup_lt_Some; eassumption).
  exists (with_result T (TeamObj._orderResult T ++ [(RestaurantObj._name R, length (dicts w))])),
         (new ++ [(RestaurantObj._name R, length (dicts w))]),
         (fst (filled S D [] OrderSystem.FOODTYPE)).
  split; [apply served_team; eauto|].
  split; [exact Hname|]. split; [exact Hdem|].
  split; [simpl; rewrite Hres, <- app_assoc; reflexivity|].
  split.
  { rewrite served_length by assumption. apply Forall_app. split.
    - eapply Forall_impl; [exact Hnew|]. simpl. intros e He. lia.
    - constructor; [simpl; lia|constructor]. }
  split; [apply served_demand; assumption|].
  split; [rewrite filled_keys; exact Hkeys|].
  split; [intros H; apply filled_nonneg, Hnn, H|].
  intros c. rewrite total_granted_app. simpl.
  rewrite (total_granted_ext w).
  - unfold granted. rewrite served_order by assumption.
    pose proof (filled_count S OrderSystem.FOODTYPE D [] c FOODTYPE_NoDup) as Hc.
    rewrite <- (Hsum c). unfold Dict.count at 4 in Hc. simpl in Hc.
    specialize (Hc ltac:(intros ft _ [])). lia.
  - eapply Forall_impl; [exact Hnew|]. intros e He. cbv beta in He.
    apply served_other; lia.
Qed.

(** ** [optimizeOrder] as a whole *)

Lemma optimizeOrder_run w t l T D0 rs :
  teams w !! t = Some T ->
  dicts w !! TeamObj._demand T = Some D0 ->
  lists w !! l = Some rs ->
  Forall (fun r => has_stock w r = true) rs ->
  exists w' D,
    OrderSystem.place_orders (VTeam t) l false w = (w', inr (t, length (dicts w))) /\
    Valid t (length (dicts w)) (by_rate (rate_of w) rs) w' /\
    Accounted t (length (dicts w)) T D0 w' /\
    dicts w' !! length (dicts w) = Some D /\
    OrderSystem.optimizeOrder (VTeam t) l false w = (w', verdict (TeamObj._name T) D).
Proof.
  intros HT HD0 Hl Hrs.
  destruct (place_orders_spec w t l T D0 rs HT HD0 Hl Hrs
              (Accounted t (length (dicts w)) T D0)) as [w' [Hrun [_ [HV HA]]]].
  - apply Accounted_started, HT.
  - intros w1 rest T1 R S D _ HA1 _ HT1 _ _ HD1 Hlt _.
    apply Accounted_served; assumption.
  - pose proof HA as (T' & new & D & HT' & Hname & _ & _ & _ & HD & _).
    exists w', D. repeat split; try assumption; try apply HV.
    unfold OrderSystem.optimizeOrder. rewrite (bind_ok _ _ _ _ _ Hrun). simpl fst. simpl snd.
    rewrite (check_demand_spec _ _ _ _ _ HT' HD), Hname. reflexivity.
Qed.

Lemma place_orders_large_nil w team l :
  lists w !! l = Some [] ->
  OrderSystem.place_orders team l true w = OrderSystem.place_orders team l false w.
Proof.
  intros Hl. unfold OrderSystem.place_orders. simpl negb. cbv iota.
  unfold bind at 1. rewrite (sort_by_rate_size_nil _ _ Hl).
  symmetry. unfold bind at 1. rewrite (sort_by_rate _ _ [] Hl) by constructor.
  reflexivity.
Qed.

Lemma place_orders_large_cons w team l r rs R :
  lists w !! l = Some (r :: rs) ->
  restaurants w !! r = Some R ->
  OrderSystem.place_orders team l true w = (w, inl (TypeError OrderSystem.not_callable)).
Proof.
  intros Hl HR. unfold OrderSystem.place_orders. simpl negb. cbv iota.
  unfold bind at 1. rewrite (sort_by_rate_size_raises _ _ _ _ _ Hl HR). reflexivity.
Qed.

Lemma optimizeOrder_large_nil w team l :
  lists w !! l = Some [] ->
  OrderSystem.optimizeOrder team l true w = OrderSystem.optimizeOrder team l false w.
Proof.
  intros Hl. unfold OrderSystem.optimizeOrder, bind.
  rewrite (place_orders_large_nil _ _ _ Hl). reflexivity.
Qed.

Lemma optimizeOrder_large_cons w team l r rs R :
  lists w !! l = Some (r :: rs) ->
  restaurants w !! r = Some R ->
  OrderSystem.optimizeOrder team l true w = (w, inl (TypeError OrderSystem.not_callable)).
Proof.
  intros Hl HR. unfold OrderSystem.optimizeOrder.
  rewrite (bind_raise _ _ _ _ _ (place_orders_large_cons _ _ _ _ _ _ Hl HR)). reflexivity.
Qed.

(** With any flag, a ready call either is the call without the flag or
    raises the [TypeError] of the sort key and leaves the store alone. *)
Lemma optimizeOrder_flag w t l flag :
  ready w t l = true ->
  OrderSystem.optimizeOrder (VTeam t) l flag w = OrderSystem.optimizeOrder (VTeam t) l false w \/
  OrderSystem.optimizeOrder (VTeam t) l flag w = (w, inl (TypeError OrderSystem.not_callable)).
Proof.
  intros Hready. destruct flag; [|left; reflexivity].
  destruct (ready_inv _ _ _ Hready) as (T & D0 & rs & HT & HD0 & Hl & Hrs).
  destruct rs as [|r rs].
  - left. apply optimizeOrder_large_nil, Hl.
  - right. inversion Hrs as [|? ? Hr _]; subst.
    destruct (has_stock_inv _ _ Hr) as [R [S [HR _]]].
    eapply optimizeOrder_large_cons; eassumption.
Qed.

Lemma nonneg_b_nonneg d : nonneg_b d = true -> nonneg d.
Proof.
  unfold nonneg_b, nonneg. induction d as [|[k' v'] d IH]; simpl; [discriminate|].
  intros H k v. apply andb_prop in H. destruct H as [H1 H2].
  destruct (String.eqb k k'); [|apply IH, H2].
  intros [= <-]. apply Z.leb_le, H1.
Qed.

(** * The claims *)

(** C1. Demand satisfaction.  When [optimizeOrder] returns without
    raising, for a team whose demand counts are not negative, the team's
    result keeps its earlier entries, and for every food type of the
    demand the orders recorded during the run grant, added up, exactly
    the count the demand asks. *)
Theorem optimizeOrder_satisfies_demand w t l flag w' T D0 :
  ready w t l = true ->
  teams w !! t = Some T ->
  dicts w !! TeamObj._demand T = Some D0 ->
  nonneg D0 ->
  OrderSystem.optimizeOrder (VTeam t) l flag w = (w', inr tt) ->
  exists T',
    teams w' !! t = Some T' /\
    take (length (TeamObj._orderResult T)) (TeamObj._orderResult T') = TeamObj._orderResult T /\
    forall c v, Dict.get c D0 = Some v ->
      total_granted w' c (drop (length (TeamObj._orderResult T)) (TeamObj._orderResult T')) = v.
Proof.
  intros Hready HT HD0 Hnn Hrun.
  destruct (optimizeOrder_flag w t l flag Hready) as [E|E]; rewrite E in Hrun; [|discriminate].
  destruct (ready_inv _ _ _ Hready) as (T1 & D1 & rs & HT1 & HD1 & Hl & Hrs).
  assert (T1 = T) by congruence. subst T1.
  destruct (optimizeOrder_run w t l T D0 rs HT HD0 Hl Hrs) as (w1 & D & _ & _ & HA & HD & Hopt).
  rewrite Hopt in Hrun. injection Hrun as <- Hv.
  destruct HA as (T' & new & D' & HT' & _ & _ & Hres & _ & HD' & Hkeys & Hnn' & Hsum).
  assert (D' = D) by congruence. subst D'.
  exists T'. split; [exact HT'|]. rewrite Hres. split; [apply take_app_length|].
  rewrite drop_app_length. intros c v Hc.
  unfold verdict in Hv. destruct (unmet D (Dict.keys D)) eqn:Hu; [discriminate|].
  rewrite unmet_None in Hu.
  assert (Hin : In c (Dict.keys D)).
  { rewrite Hkeys. apply get_In_keys. rewrite contains_get, Hc. reflexivity. }
  pose proof (Hu c Hin) as Hle.
  pose proof Hin as Hin'. apply get_In_keys in Hin'. rewrite contains_get in Hin'.
  destruct (Dict.get c D) as [d|] eqn:G; [|discriminate].
  pose proof (Hnn' Hnn c d G) as Hge.
  specialize (Hsum c). unfold Dict.count in Hsum, Hle. rewrite G in Hsum, Hle.
  rewrite Hc in Hsum. lia.
Qed.

Lemma optimizeOrder_satisfies_demand_witness :
  exists T',
    teams (fst (OrderSystem.optimizeOrder (VTeam 0%nat) 0%nat false single_team_world)) !! 0%nat
      = Some T' /\
    take 0 (TeamObj._orderResult T') = [] /\
    forall c v, Dict.get c OrderSystemTests.team1_demand = Some v ->
      total_granted (fst (OrderSystem.optimizeOrder (VTeam 0%nat) 0%nat false single_team_world))
        c (drop 0 (TeamObj._orderResult T')) = v.
Proof.
  apply (optimizeOrder_satisfies_demand single_team_world 0%nat 0%nat false
           (fst (OrderSystem.optimizeOrder (VTeam 0%nat) 0%nat false single_team_world))
           (TeamObj.mk "cisco1" 0%nat []) OrderSystemTests.team1_demand).
  - vm_compute. reflexivity.
  - vm_compute. reflexivity.
  - vm_compute. reflexivity.
  - apply nonneg_b_nonneg. vm_compute. reflexivity.
  - vm_compute. reflexivity.
Defined.

(** C7. The orders that [optimizeOrder] hands to [Restaurant.addOrder]
    are never refused: a call of [optimizeOrder] on a team and a list of
    restaurants of the store does not end in any of the exceptions of
    [addOrder] (a food type the restaurant does not serve, an order that
    is too much, a parameter that is not a dictionary), nor in a
    [KeyError]. *)
Theorem optimizeOrder_never_refused w t l flag :
  ready w t l = true ->
  forall name meal,
    snd (OrderSystem.optimizeOrder (VTeam t) l flag w)
      <> inl (Exception (Restaurant.not_served name meal)) /\
    snd (OrderSystem.optimizeOrder (VTeam t) l flag w)
      <> inl (Exception (Restaurant.too_much meal)) /\
    snd (OrderSystem.optimizeOrder (VTeam t) l flag w)
      <> inl (Exception Restaurant.not_a_dict) /\
    snd (OrderSystem.optimizeOrder (VTeam t) l flag w) <> inl (KeyError meal).
Proof.
  intros Hready name meal.
  destruct (optimizeOrder_flag w t l flag Hready) as [E|E]; rewrite E;
    [|simpl; repeat split; discriminate].
  destruct (ready_inv _ _ _ Hready) as (T & D0 & rs & HT & HD0 & Hl & Hrs).
  destruct (optimizeOrder_run w t l T D0 rs HT HD0 Hl Hrs) as (w1 & D & _ & _ & _ & _ & Hopt).
  rewrite Hopt. simpl. unfold verdict.
  destruct (unmet D (Dict.keys D)); repeat split; try discriminate;
    unfold OrderSystem.not_satisfied, Restaurant.not_served, Restaurant.too_much,
      Restaurant.not_a_dict; simpl; discriminate.
Qed.

Lemma optimizeOrder_never_refused_witness :
  snd (OrderSystem.optimizeOrder (VTeam 0%nat) 0%nat false single_team_world)
    <> inl (Exception (Restaurant.not_served "rest1" GLUTEN_FREE)) /\
  snd (OrderSystem.optimizeOrder (VTeam 0%nat) 0%nat false single_team_world)
    <> inl (Exception (Restaurant.too_much GLUTEN_FREE)) /\
  snd (OrderSystem.optimizeOrder (VTeam 0%nat) 0%nat false single_team_world)
    <> inl (Exception Restaurant.not_a_dict) /\
  snd (OrderSystem.optimizeOrder (VTeam 0%nat) 0%nat false single_team_world)
    <> inl (KeyError GLUTEN_FREE).
Proof.
  apply (optimizeOrder_never_refused single_team_world 0%nat 0%nat false).
  vm_compute. reflexivity.
Defined.

(** C5, as stated, fails: the exception does not tell the shortfall.  A
    team that is 2 meals short and a team that is 4 meals short raise the
    same exception. *)
Lemma optimizeOrder_shortfall_not_told :
  snd (OrderSystem.optimizeOrder (VTeam 0%nat) 0%nat false (short_world 5))
    = inl (Exception "Order from team-t cannot be satisfied on food type normal") /\
  snd (OrderSystem.optimizeOrder (VTeam 0%nat) 0%nat false (short_world 7))
    = inl (Exception "Order from team-t cannot be satisfied on food type normal") /\
  dicts (fst (OrderSystem.optimizeOrder (VTeam 0%nat) 0%nat false (short_world 5))) !! 3%nat
    = Some [(NORMAL, 2)] /\
  dicts (fst (OrderSystem.optimizeOrder (VTeam 0%nat) 0%nat false (short_world 7))) !! 3%nat
    = Some [(NORMAL, 4)].
Proof. vm_compute. repeat split. Qed.

(** C5, amended.  Without the flag, [optimizeOrder] goes through the
    whole loop over the restaurants without raising; what it then answers
    is decided by the working demand [D] the loop leaves: if some food
    type of [D] still has a positive count, it raises an [Exception] whose
    message names the team and the first such food type in the iteration
    order of [D] (and not the count that is missing); otherwise it
    returns.  In both cases the store is the one the loop left: nothing
    that was placed is taken back. *)
Theorem optimizeOrder_checks_after_the_loop w t l T :
  ready w t l = true ->
  teams w !! t = Some T ->
  exists w' demand D,
    OrderSystem.place_orders (VTeam t) l false w = (w', inr (t, demand)) /\
    dicts w' !! demand = Some D /\
    OrderSystem.optimizeOrder (VTeam t) l false w =
      (w', match unmet D (Dict.keys D) with
           | Some foodType =>
               inl (Exception (OrderSystem.not_satisfied (TeamObj._name T) foodType))
           | None => inr tt
           end) /\
    (forall foodType, unmet D (Dict.keys D) = Some foodType ->
       In foodType (Dict.keys D) /\ 0 < Dict.count foodType D) /\
    (unmet D (Dict.keys D) = None <->
       forall foodType, In foodType (Dict.keys D) -> Dict.count foodType D <= 0).
Proof.
  intros Hready HT.
  destruct (ready_inv _ _ _ Hready) as (T1 & D0 & rs & HT1 & HD0 & Hl & Hrs).
  assert (T1 = T) by congruence. subst T1.
  destruct (optimizeOrder_run w t l T D0 rs HT HD0 Hl Hrs) as (w1 & D & Hrun & _ & _ & HD & Hopt).
  exists w1, (length (dicts w)), D.
  split; [exact Hrun|]. split; [exact HD|]. split; [exact Hopt|].
  split; [intros ft; apply unmet_Some|apply unmet_None].
Qed.

Lemma optimizeOrder_checks_after_the_loop_witness :
  exists w' demand D,
    OrderSystem.place_orders (VTeam 0%nat) 0%nat false (short_world 5) = (w', inr (0%nat, demand)) /\
    dicts w' !! demand = Some D /\
    OrderSystem.optimizeOrder (VTeam 0%nat) 0%nat false (short_world 5) =
      (w', match unmet D (Dict.keys D) with
           | Some foodType =>
               inl (Exception (OrderSystem.not_satisfied "t" foodType))
           | None => inr tt
           end) /\
    (forall foodType, unmet D (Dict.keys D) = Some foodType ->
       In foodType (Dict.keys D) /\ 0 < Dict.count foodType D) /\
    (unmet D (Dict.keys D) = None <->
       forall foodType, In foodType (Dict.keys D) -> Dict.count foodType D <= 0).
Proof.
  apply (optimizeOrder_checks_after_the_loop (short_world 5) 0%nat 0%nat (TeamObj.mk "t" 0%nat []));
    vm_compute; reflexivity.
Defined.

(** C3, as stated, fails: an order with no count above zero is recorded
    all the same.  A team that asks one vegetarian meal of a restaurant
    that has only normal meals gets the empty order recorded on both
    sides (and the run raises); a team that asks zero normal meals gets
    the all-zero order recorded on both sides (and the run returns). *)
Lemma optimizeOrder_records_empty_orders :
  (let r := OrderSystem.optimizeOrder (VTeam 0%nat) 0%nat false (lone_world [(VEGETARIAN, 1)]) in
   restaurants (fst r) !! 0%nat = Some (RestaurantObj.mk "r" 1 1%nat [("t", 4%nat)] 2%nat) /\
   teams (fst r) !! 0%nat = Some (TeamObj.mk "t" 0%nat [("r", 4%nat)]) /\
   dicts (fst r) !! 4%nat = Some []) /\
  (let r := OrderSystem.optimizeOrder (VTeam 0%nat) 0%nat false (lone_world [(NORMAL, 0)]) in
   snd r = inr tt /\
   restaurants (fst r) !! 0%nat = Some (RestaurantObj.mk "r" 1 1%nat [("t", 4%nat)] 2%nat) /\
   teams (fst r) !! 0%nat = Some (TeamObj.mk "t" 0%nat [("r", 4%nat)]) /\
   dicts (fst r) !! 4%nat = Some [(NORMAL, 0)]).
Proof. vm_compute. repeat split. Qed.

(** C3, amended.  In a turn of the loop of [optimizeOrder], a restaurant
    whose stock counts add up to 0 is passed over and the store stays as
    it is; for any other restaurant the turn does not raise, the order it
    builds is a new dictionary, and that order, whatever its counts and
    even when it has no key at all, is appended to the history of the
    restaurant and to the result of the team. *)
Theorem serve_records_every_order w t demand rest T R S D :
  teams w !! t = Some T ->
  restaurants w !! rest = Some R ->
  dicts w !! RestaurantObj._foodInStock R = Some S ->
  dicts w !! demand = Some D ->
  RestaurantObj._foodInStock R <> demand ->
  (sum (Dict.values S) = 0 -> OrderSystem.serve t demand rest w = (w, inr tt)) /\
  (sum (Dict.values S) <> 0 ->
     exists w',
       OrderSystem.serve t demand rest w = (w', inr tt) /\
       dicts w' !! length (dicts w) = Some (snd (filled S D [] OrderSystem.FOODTYPE)) /\
       restaurants w' !! rest =
         Some (with_history R
                 (RestaurantObj._orderHistory R ++ [(TeamObj._name T, length (dicts w))])) /\
       teams w' !! t =
         Some (with_result T
                 (TeamObj._orderResult T ++ [(RestaurantObj._name R, length (dicts w))]))).
Proof.
  intros HT HR HS HD Hne.
  rewrite (serve_spec w t demand rest T R S D HT HR HS HD Hne).
  split; intros Hsum.
  - rewrite Hsum. reflexivity.
  - destruct (Z.eqb_spec (sum (Dict.values S)) 0) as [|_]; [contradiction|].
    eexists. split; [reflexivity|].
    split; [|split; [apply served_restaurant|apply served_team]; eauto].
    unfold served. simpl.
    apply lookup_lt_Some in HS, HD.
    rewrite !list_lookup_insert_ne by lia. apply lookup_at_end.
Qed.

Lemma serve_records_every_order_witness :
  (sum (Dict.values [(NORMAL, 5)]) = 0 ->
     OrderSystem.serve 0%nat 0%nat 0%nat (lone_world [(VEGETARIAN, 1)])
       = (lone_world [(VEGETARIAN, 1)], inr tt)) /\
  (sum (Dict.values [(NORMAL, 5)]) <> 0 ->
     exists w',
       OrderSystem.serve 0%nat 0%nat 0%nat (lone_world [(VEGETARIAN, 1)]) = (w', inr tt) /\
       dicts w' !! 3%nat
         = Some (snd (filled [(NORMAL, 5)] [(VEGETARIAN, 1)] [] OrderSystem.FOODTYPE)) /\
       restaurants w' !! 0%nat =
         Some (with_history (RestaurantObj.mk "r" 1 1%nat [] 2%nat) ([] ++ [("t", 3%nat)])) /\
       teams w' !! 0%nat =
         Some (with_result (TeamObj.mk "t" 0%nat []) ([] ++ [("r", 3%nat)]))).
Proof.
  apply (serve_records_every_order (lone_world [(VEGETARIAN, 1)]) 0%nat 0%nat 0%nat
           (TeamObj.mk "t" 0%nat []) (RestaurantObj.mk "r" 1 1%nat [] 2%nat)
           [(NORMAL, 5)] [(VEGETARIAN, 1)]).
  - vm_compute. reflexivity.
  - vm_compute. reflexivity.
  - vm_compute. reflexivity.
  - vm_compute. reflexivity.
  - vm_compute. lia.
Defined.

(** ** What a run leaves alone *)

Lemma Settled_refl w : Settled w w.
Proof. split; [reflexivity|]. intros r R HR. exists R. auto. Qed.

Lemma Settled_served w0 w t demand rest T R S D :
  Settled w0 w ->
  restaurants w !! rest = Some R ->
  Settled w0 (served w t demand rest T R S D).
Proof.
  intros [Hl Hr] HR. split; [exact Hl|].
  intros r R0 HR0. destruct (Hr r R0 HR0) as (R' & HR' & Hfields).
  unfold served. simpl.
  destruct (Nat.eq_dec rest r) as [->|Hne].
  - rewrite list_lookup_insert_eq by (eapply lookup_lt_Some; eassumption).
    assert (R' = R) by congruence. subst R'.
    eexists. split; [reflexivity|]. exact Hfields.
  - rewrite list_lookup_insert_ne by exact Hne. eauto.
Qed.

Lemma apart_inv w t l T rs :
  apart w t l = true ->
  teams w !! t = Some T ->
  lists w !! l = Some rs ->
  forall r R, In r rs -> restaurants w !! r = Some R ->
    RestaurantObj._foodInStock R <> TeamObj._demand T.
Proof.
  unfold apart. intros H HT Hl r R Hin HR. rewrite HT, Hl in H.
  rewrite forallb_forall in H. specialize (H r Hin). rewrite HR in H.
  apply negb_true_iff, Nat.eqb_neq in H. exact H.
Qed.

(** C8.  [optimizeOrder] works on a copy of the demand: after the call,
    whether it returned or raised, the team still has the same demand
    dictionary and that dictionary holds what it held before.  The team
    and the restaurants are objects of the store and, as the data model
    has it, no restaurant of the list has the team's demand dictionary for
    its own stock. *)
Theorem optimizeOrder_keeps_demand w t l flag T D0 :
  ready w t l = true ->
  apart w t l = true ->
  teams w !! t = Some T ->
  dicts w !! TeamObj._demand T = Some D0 ->
  exists T',
    teams (fst (OrderSystem.optimizeOrder (VTeam t) l flag w)) !! t = Some T' /\
    TeamObj._demand T' = TeamObj._demand T /\
    dicts (fst (OrderSystem.optimizeOrder (VTeam t) l flag w)) !! TeamObj._demand T = Some D0.
Proof.
  intros Hready Hapart HT HD0.
  destruct (optimizeOrder_flag w t l flag Hready) as [E|E]; rewrite E; [|exists T; auto].
  destruct (ready_inv _ _ _ Hready) as (T1 & D1 & rs & HT1 & HD1 & Hl & Hrs).
  assert (T1 = T) by congruence. subst T1. clear HD1.
  set (demand := length (dicts w)).
  destruct (place_orders_spec w t l T D0 rs HT HD0 Hl Hrs
              (fun w' => Accounted t demand T D0 w' /\ Settled (started w l rs D0) w' /\
                         dicts w' !! TeamObj._demand T = Some D0))
    as [w' [Hrun [_ [HV (HA & _ & HD)]]]].
  - split; [apply Accounted_started, HT|]. split; [apply Settled_refl|].
    unfold started. simpl. apply lookup_app_l_Some, HD0.
  - intros w1 rest T2 R S D _ (HA1 & HS1 & HD1) Hin HT2 HR1 _ HDw Hlt _.
    split; [apply Accounted_served; assumption|].
    split; [apply Settled_served; assumption|].
    assert (Hin' : In rest rs).
    { eapply Permutation_in; [symmetry; apply by_rate_perm|exact Hin]. }
    assert (Hr : has_stock w rest = true).
    { rewrite List.Forall_forall in Hrs. apply Hrs, Hin'. }
    destruct (has_stock_inv _ _ Hr) as (R0 & S0 & HR0 & _).
    destruct HS1 as [_ HS1]. destruct (HS1 rest R0 HR0) as (R' & HR' & _ & _ & _ & Hst).
    assert (R' = R) by congruence. subst R'.
    pose proof (apart_inv w t l T rs Hapart HT Hl rest R0 Hin' HR0) as Hne.
    rewrite <- HD1.
    apply served_other.
    + congruence.
    + apply lookup_lt_Some in HD0. unfold demand. lia.
    + eapply lookup_lt_Some; eassumption.
  - destruct HA as (T' & new & D & HT' & Hname & Hdem & _ & _ & HDw & _).
    assert (Hopt : OrderSystem.optimizeOrder (VTeam t) l false w = (w', verdict (TeamObj._name T') D)).
    { unfold OrderSystem.optimizeOrder. rewrite (bind_ok _ _ _ _ _ Hrun). simpl fst. simpl snd.
      apply check_demand_spec; assumption. }
    rewrite Hopt. simpl. exists T'. auto.
Qed.

Lemma optimizeOrder_keeps_demand_witness :
  exists T',
    teams (fst (OrderSystem.optimizeOrder (VTeam 0%nat) 0%nat false single_team_world)) !! 0%nat
      = Some T' /\
    TeamObj._demand T' = 0%nat /\
    dicts (fst (OrderSystem.optimizeOrder (VTeam 0%nat) 0%nat false single_team_world)) !! 0%nat
      = Some OrderSystemTests.team1_demand.
Proof.
  apply (optimizeOrder_keeps_demand single_team_world 0%nat 0%nat false
           (TeamObj.mk "cisco1" 0%nat []) OrderSystemTests.team1_demand);
    vm_compute; reflexivity.
Defined.

(** C4.  Without the flag, the loop of [optimizeOrder] goes through the
    restaurants of the list in the order of a stable sort by descending
    rate: a rearrangement of the list, rates never going up, restaurants
    of one rate in the order they had; and the list is left in that
    order.  With the flag and a list that is not empty, the sort key
    calls the dictionary that the property [checkFood] returns:
    [optimizeOrder] raises a [TypeError] and no restaurant is tried. *)
Theorem optimizeOrder_order_of_restaurants w t l T D0 rs :
  ready w t l = true ->
  teams w !! t = Some T ->
  dicts w !! TeamObj._demand T = Some D0 ->
  lists w !! l = Some rs ->
  (exists w' rs',
     OrderSystem.place_orders (VTeam t) l false w = (w', inr (t, length (dicts w))) /\
     for_each rs' (OrderSystem.serve t (length (dicts w))) (started w l rs D0) = (w', inr tt) /\
     lists w' !! l = Some rs' /\
     Permutation rs rs' /\
     StronglySorted (fun a b => rate_of w b <= rate_of w a) rs' /\
     forall v, List.filter (fun r => rate_of w r =? v) rs'
               = List.filter (fun r => rate_of w r =? v) rs) /\
  (rs <> [] ->
     OrderSystem.optimizeOrder (VTeam t) l true w = (w, inl (TypeError OrderSystem.not_callable))).
Proof.
  intros Hready HT HD0 Hl.
  destruct (ready_inv _ _ _ Hready) as (T1 & D1 & rs1 & HT1 & HD1 & Hl1 & Hrs).
  assert (rs1 = rs) by congruence. subst rs1. split.
  - destruct (place_orders_spec w t l T D0 rs HT HD0 Hl Hrs
                (Settled (started w l rs D0))) as [w' [Hrun [Hloop [_ [Hlists _]]]]].
    + apply Settled_refl.
    + intros w1 rest T2 R S D _ HS1 _ _ HR1 _ _ _ _. apply Settled_served; assumption.
    + exists w', (by_rate (rate_of w) rs).
      split; [exact Hrun|]. split; [exact Hloop|].
      split.
      { rewrite Hlists. unfold started. simpl.
        apply list_lookup_insert_eq. eapply lookup_lt_Some; eassumption. }
      split; [apply by_rate_perm|]. split; [apply by_rate_sorted|].
      intros v. apply by_rate_stable.
  - intros Hne. destruct rs as [|r rs]; [contradiction|].
    inversion Hrs as [|? ? Hr _]; subst.
    destruct (has_stock_inv _ _ Hr) as [R [S [HR _]]].
    eapply optimizeOrder_large_cons; eassumption.
Qed.

Lemma optimizeOrder_order_of_restaurants_witness :
  (exists w' rs',
     OrderSystem.place_orders (VTeam 0%nat) 0%nat false tie_world
       = (w', inr (0%nat, length (dicts tie_world))) /\
     for_each rs' (OrderSystem.serve 0%nat (length (dicts tie_world)))
       (started tie_world 0%nat [0%nat; 1%nat] [(NORMAL, 1)]) = (w', inr tt) /\
     lists w' !! 0%nat = Some rs' /\
     Permutation [0%nat; 1%nat] rs' /\
     StronglySorted (fun a b => rate_of tie_world b <= rate_of tie_world a) rs' /\
     forall v, List.filter (fun r => rate_of tie_world r =? v) rs'
               = List.filter (fun r => rate_of tie_world r =? v) [0%nat; 1%nat]) /\
  ([0%nat; 1%nat] <> [] ->
     OrderSystem.optimizeOrder (VTeam 0%nat) 0%nat true tie_world
       = (tie_world, inl (TypeError OrderSystem.not_callable))).
Proof.
  apply (optimizeOrder_order_of_restaurants tie_world 0%nat 0%nat
           (TeamObj.mk "t" 0%nat []) [(NORMAL, 1)] [0%nat; 1%nat]);
    vm_compute; reflexivity.
Defined.

(** The call with the flag on two restaurants of equal rate: nothing is
    tried, the store is as before. *)
Lemma optimizeOrder_prefer_larger_raises :
  OrderSystem.optimizeOrder (VTeam 0%nat) 0%nat true tie_world
    = (tie_world, inl (TypeError "'dict' object is not callable")).
Proof. vm_compute. reflexivity. Qed.

(** ** [addOrder]: all or nothing *)

Lemma checked_Some name S O meals e :
  (forall meal, In meal meals -> In meal (Dict.keys O)) ->
  checked name S O meals = Some e ->
  exists meal, In meal meals /\
    ((Dict.get meal S = None /\ e = Exception (Restaurant.not_served name meal)) \/
     (exists s, Dict.get meal S = Some s /\ s < Dict.count meal O /\
                e = Exception (Restaurant.too_much meal))).
Proof.
  induction meals as [|meal meals IH]; simpl; intros Hsub; [discriminate|].
  assert (Hin : In meal (Dict.keys O)) by (apply Hsub; left; reflexivity).
  apply get_In_keys in Hin. rewrite contains_get in Hin.
  destruct (Dict.get meal S) as [s|] eqn:GS.
  - destruct (Dict.get meal O) as [v|] eqn:GO; [|discriminate].
    destruct (Z.gtb_spec v s) as [Hgt|Hle].
    + intros [= <-]. exists meal. split; [left; reflexivity|]. right.
      exists s. split; [exact GS|]. split; [unfold Dict.count; rewrite GO; lia|reflexivity].
    + intros H. destruct IH as [m [Hm Hcase]]; [auto|exact H|].
      exists m. split; [right; exact Hm|exact Hcase].
  - intros [= <-]. exists meal. split; [left; reflexivity|]. left. auto.
Qed.

Lemma checked_None name S O meals :
  (forall meal, In meal meals -> In meal (Dict.keys O)) ->
  (checked name S O meals = None <->
   forall meal, In meal meals -> exists s, Dict.get meal S = Some s /\ Dict.count meal O <= s).
Proof.
  induction meals as [|meal meals IH]; simpl; intros Hsub.
  - split; [intros _ m []|reflexivity].
  - assert (Hin : In meal (Dict.keys O)) by (apply Hsub; left; reflexivity).
    apply get_In_keys in Hin. rewrite contains_get in Hin.
    destruct (Dict.get meal O) as [v|] eqn:GO; [|discriminate].
    assert (Hv : Dict.count meal O = v) by (unfold Dict.count; rewrite GO; reflexivity).
    destruct (Dict.get meal S) as [s|] eqn:GS.
    + destruct (Z.gtb_spec v s) as [Hgt|Hle].
      * split; [discriminate|]. intros H.
        destruct (H meal (or_introl eq_refl)) as [s' [Hs' Hle]].
        rewrite GS in Hs'. injection Hs' as <-. lia.
      * rewrite IH by auto. split.
        -- intros H m [<-|Hm]; [exists s; split; [exact GS|lia]|apply H, Hm].
        -- intros H m Hm. apply H. right. exact Hm.
    + split; [discriminate|]. intros H.
      destruct (H meal (or_introl eq_refl)) as [s' [Hs' _]]. congruence.
Qed.

(** C6.  [addOrder] checks the whole order before it changes anything.
    For an order dictionary other than the restaurant's own stock
    dictionary: if some food type of the order is absent from the stock,
    or asked in a greater count than the stock has, the call raises the
    exception of such a food type and the store is unchanged; if every
    food type of the order is in stock in a sufficient count, the call
    returns, every count of the stock is lower by what the order asks of
    it, no key is added or removed, the pair of the team name and the
    order is appended to the history, and nothing else changes.  An order
    that is not a dictionary is refused with the store unchanged. *)
Theorem addOrder_all_or_nothing w self teamName order R S O :
  restaurants w !! self = Some R ->
  dicts w !! RestaurantObj._foodInStock R = Some S ->
  dicts w !! order = Some O ->
  order <> RestaurantObj._foodInStock R ->
  List.NoDup (Dict.keys O) ->
  ((exists meal, In meal (Dict.keys O) /\
      (Dict.get meal S = None \/ exists s, Dict.get meal S = Some s /\ s < Dict.count meal O)) ->
   fst (Restaurant.addOrder self teamName (VDict order) w) = w /\
   exists meal, In meal (Dict.keys O) /\
     ((Dict.get meal S = None /\
       snd (Restaurant.addOrder self teamName (VDict order) w)
         = inl (Exception (Restaurant.not_served (RestaurantObj._name R) meal))) \/
      (exists s, Dict.get meal S = Some s /\ s < Dict.count meal O /\
       snd (Restaurant.addOrder self teamName (VDict order) w)
         = inl (Exception (Restaurant.too_much meal))))) /\
  ((forall meal, In meal (Dict.keys O) ->
      exists s, Dict.get meal S = Some s /\ Dict.count meal O <= s) ->
   exists w' S',
     Restaurant.addOrder self teamName (VDict order) w = (w', inr tt) /\
     restaurants w' =
       <[self := with_history R (RestaurantObj._orderHistory R ++ [(teamName, order)])]>
         (restaurants w) /\
     teams w' = teams w /\ lists w' = lists w /\ systems w' = systems w /\
     dicts w' = <[RestaurantObj._foodInStock R := S']> (dicts w) /\
     Dict.keys S' = Dict.keys S /\
     (forall c s, Dict.get c S = Some s -> Dict.get c S' = Some (s - Dict.count c O)) /\
     (forall c, Dict.get c S = None -> Dict.get c S' = None)) /\
  (forall v, (forall d, v <> VDict d) ->
     Restaurant.addOrder self teamName v w = (w, inl (Exception Restaurant.not_a_dict))).
Proof.
  intros HR HS HO Hne Hnd.
  pose proof (addOrder_spec self order R teamName w S O HR HS HO Hne) as Hspec.
  split; [|split].
  - intros Hbad.
    destruct (checked (RestaurantObj._name R) S O (Dict.keys O)) as [e|] eqn:Hc.
    + rewrite Hspec. simpl. split; [reflexivity|].
      destruct (checked_Some _ _ _ _ _ (fun _ H => H) Hc) as [meal [Hin Hcase]].
      exists meal. split; [exact Hin|].
      destruct Hcase as [[H1 ->]|[s [H1 [H2 ->]]]]; [left; auto|right; eauto].
    + exfalso. rewrite checked_None in Hc by auto.
      destruct Hbad as [meal [Hin Hcase]]. destruct (Hc meal Hin) as [s [Hs Hle]].
      destruct Hcase as [H|[s' [Hs' Hlt]]]; [congruence|].
      rewrite Hs in Hs'. injection Hs' as <-. lia.
  - intros Hgood. pose proof Hgood as Hc. rewrite <- checked_None in Hc by auto.
    rewrite Hc in Hspec. rewrite Hspec.
    eexists. exists (taken S O (Dict.keys O)).
    split; [reflexivity|]. simpl. repeat split.
    + apply taken_same_keys. apply List.Forall_forall. intros meal Hin.
      destruct (Hgood meal Hin) as [s [Hs _]]. rewrite contains_get, Hs. reflexivity.
    + intros c s Hs. apply taken_keys; assumption.
    + intros c Hs. apply taken_none; [|exact Hs].
      eapply checked_contains. exact Hc.
  - intros v Hv. destruct v; try reflexivity. exfalso. eapply Hv. reflexivity.
Qed.

Lemma addOrder_all_or_nothing_witness :
  exists w' S',
    Restaurant.addOrder 0%nat "cisco1" (VDict 5%nat) order_world = (w', inr tt) /\
    dicts w' = <[2%nat := S']> (dicts order_world) /\
    forall c s, Dict.get c OrderSystemTests.rest1_capacity = Some s ->
      Dict.get c S' = Some (s - Dict.count c [(NORMAL, 2)]).
Proof.
  destruct (addOrder_all_or_nothing order_world 0%nat "cisco1" 5%nat
              (RestaurantObj.mk "rest1" 5 1%nat [] 2%nat)
              OrderSystemTests.rest1_capacity [(NORMAL, 2)]) as [_ [Hok _]].
  - vm_compute. reflexivity.
  - vm_compute. reflexivity.
  - vm_compute. reflexivity.
  - vm_compute. lia.
  - constructor; [simpl; tauto|constructor].
  - destruct Hok as (w' & S' & H1 & _ & _ & _ & _ & H2 & _ & H3 & _).
    + intros meal [<-|[]]. exists 36. vm_compute. split; [reflexivity|discriminate].
    + exists w', S'. auto.
Defined.

(** ** A restaurant through its calls *)

Lemma init_spec name rate capacity w C :
  dicts w !! capacity = Some C ->
  Restaurant.__init__ name rate capacity w =
    (mkWorld (dicts w ++ [C])
             (restaurants w ++ [RestaurantObj.mk name rate capacity [] (length (dicts w))])
             (teams w) (lists w) (systems w),
     inr (length (restaurants w))).
Proof.
  intros HC. unfold Restaurant.__init__, dict_copy.
  unfold bind at 1. rewrite (bind_ok _ _ _ _ _ (dict_read_ok _ _ _ HC)). reflexivity.
Qed.

Lemma set_capacity_spec self capacity w R C :
  restaurants w !! self = Some R ->
  dicts w !! capacity = Some C ->
  Restaurant.set_capacity self capacity w =
    (mkWorld (dicts w ++ [C])
             (<[self := RestaurantObj.mk (RestaurantObj._name R) (RestaurantObj._rate R)
                          capacity (RestaurantObj._orderHistory R) (length (dicts w))]>
                (restaurants w))
             (teams w) (lists w) (systems w),
     inr tt).
Proof.
  intros HR HC. unfold Restaurant.set_capacity.
  rewrite (bind_ok _ _ _ _ _ (rest_read_ok _ _ _ HR)).
  unfold bind at 1. unfold rest_write at 1.
  set (w1 := mkWorld _ _ _ _ _).
  assert (HC1 : dicts w1 !! capacity = Some C) by exact HC.
  unfold dict_copy. unfold bind at 1. rewrite (bind_ok _ _ _ _ _ (dict_read_ok _ _ _ HC1)).
  unfold dict_new at 1.
  set (w2 := mkWorld _ _ _ _ _).
  assert (HR2 : restaurants w2 !! self = Some
            (RestaurantObj.mk (RestaurantObj._name R) (RestaurantObj._rate R)
               capacity (RestaurantObj._orderHistory R) (RestaurantObj._foodInStock R))).
  { subst w2 w1. simpl. apply list_lookup_insert_eq. eapply lookup_lt_Some; eassumption. }
  rewrite (bind_ok _ _ _ _ _ (rest_read_ok _ _ _ HR2)).
  unfold rest_write. subst w2 w1. simpl. rewrite list_insert_insert_eq. reflexivity.
Qed.

Lemma count_nonneg c d : nonneg d -> 0 <= Dict.count c d.
Proof.
  intros H. unfold Dict.count. destruct (Dict.get c d) as [v|] eqn:G; [|lia].
  apply (H c v G).
Qed.

Lemma Conserved_new name rate capacity w C :
  dicts w !! capacity = Some C ->
  nonneg C ->
  exists w', Restaurant.__init__ name rate capacity w = (w', inr (length (restaurants w))) /\
             Conserved (length (restaurants w)) w' 0.
Proof.
  intros HC Hnn. rewrite (init_spec name rate capacity w C HC).
  eexists. split; [reflexivity|].
  exists (RestaurantObj.mk name rate capacity [] (length (dicts w))), C, C.
  pose proof (lookup_lt_Some _ _ _ HC) as Hlt.
  simpl. repeat split.
  - apply lookup_at_end.
  - apply lookup_app_l_Some, HC.
  - apply lookup_at_end.
  - lia.
  - lia.
  - constructor.
  - intros c qty Hc. exists qty. split; [exact Hc|].
    pose proof (Hnn c qty Hc). simpl. lia.
Qed.

(** the invariant does not see a dictionary put at the end of the store *)
Lemma Conserved_dict_new self w mark contents :
  Conserved self w mark ->
  Conserved self (fst (dict_new contents w)) mark.
Proof.
  intros (R & C & S & HR & HC & HS & Hcs & Hmark & Hhist & Hcons).
  exists R, C, S. unfold dict_new. simpl.
  split; [exact HR|]. split; [apply lookup_app_l_Some, HC|].
  split; [apply lookup_app_l_Some, HS|]. split; [exact Hcs|]. split; [exact Hmark|].
  split.
  { eapply Forall_impl; [exact Hhist|]. simpl. intros e' [H1 H2].
    split; [exact H1|]. rewrite length_app. simpl. lia. }
  intros c qty Hq. destruct (Hcons c qty Hq) as (s & Hgs & Hb & Hsum).
  exists s. split; [exact Hgs|]. split; [exact Hb|].
  rewrite Hsum. symmetry. apply total_granted_ext.
  apply Forall_drop. eapply Forall_impl; [exact Hhist|]. simpl. intros e' [_ H2].
  apply lookup_app_l, H2.
Qed.

Lemma Conserved_call self c w mark :
  call_ok self w c ->
  Conserved self w mark ->
  Conserved self (fst (do_call self c w))
    (match c with
     | SetCapacity _ => history_length (fst (do_call self c w)) self
     | _ => mark
     end).
Proof.
  intros Hok HJ. destruct c as [contents|teamName order|capacity].
  - exact (Conserved_dict_new self w mark contents HJ).
  - destruct order as [| | |order| | |]; try exact HJ.
    destruct HJ as (R & C & S & HR & HC & HS & Hcs & Hmark & Hhist & Hcons).
    destruct Hok as [Hne (O & HO & Hnd & Hnn)]. specialize (Hne R HR).
    assert (Hs : (RestaurantObj._foodInStock R < length (dicts w))%nat)
      by (eapply lookup_lt_Some; eassumption).
    assert (Ho : (order < length (dicts w))%nat) by (eapply lookup_lt_Some; eassumption).
    unfold do_call. rewrite (addOrder_spec self order R teamName w S O HR HS HO Hne).
    destruct (checked (RestaurantObj._name R) S O (Dict.keys O)) as [e|] eqn:Hchk.
    + exists R, C, S. simpl. auto 10.
    + simpl fst.
      exists (with_history R (RestaurantObj._orderHistory R ++ [(teamName, order)])), C,
             (taken S O (Dict.keys O)).
      simpl.
      split; [apply list_lookup_insert_eq; eapply lookup_lt_Some; eassumption|].
      split; [rewrite list_lookup_insert_ne by congruence; exact HC|].
      split; [apply list_lookup_insert_eq; exact Hs|].
      split; [exact Hcs|].
      split; [rewrite length_app; simpl; lia|].
      split.
      { rewrite length_insert. apply Forall_app. split; [exact Hhist|].
        constructor; [|constructor]. simpl. split; [exact Hne|exact Ho]. }
      intros c qty Hq. destruct (Hcons c qty Hq) as (s & Hgs & Hb & Hsum).
      exists (s - Dict.count c O).
      split; [apply taken_keys; assumption|].
      pose proof (count_nonneg c O Hnn) as Hge.
      assert (Hle : Dict.count c O <= s).
      { destruct (in_dec String.string_dec c (Dict.keys O)) as [Hin|Hout].
        - rewrite checked_None in Hchk by auto.
          destruct (Hchk c Hin) as (s' & Hs' & Hle). congruence.
        - rewrite count_absent by exact Hout. lia. }
      split; [lia|].
      rewrite drop_app_le by exact Hmark. rewrite total_granted_app. simpl.
      rewrite (total_granted_ext w).
      * unfold granted. simpl. rewrite list_lookup_insert_ne by congruence.
        rewrite HO. lia.
      * apply Forall_drop. eapply Forall_impl; [exact Hhist|]. simpl. intros e' [H1 H2].
        apply list_lookup_insert_ne. congruence.
  - destruct HJ as (R & C & S & HR & HC & HS & Hcs & Hmark & Hhist & Hcons).
    destruct Hok as (C' & HC' & Hnn').
    pose proof (lookup_lt_Some _ _ _ HC') as Hlt.
    unfold do_call. rewrite (set_capacity_spec self capacity w R C' HR HC').
    simpl fst. unfold history_length. simpl.
    rewrite list_lookup_insert_eq by (eapply lookup_lt_Some; eassumption). simpl.
    eexists. exists C', C'.
    split; [apply list_lookup_insert_eq; eapply lookup_lt_Some; eassumption|].
    simpl.
    split; [apply lookup_app_l_Some, HC'|].
    split; [apply lookup_at_end|].
    split; [lia|].
    split; [lia|].
    split.
    { eapply Forall_impl; [exact Hhist|]. simpl. intros e' [H1 H2].
      rewrite length_app. simpl. lia. }
    intros k qty Hq. exists qty. split; [exact Hq|].
    pose proof (Hnn' k qty Hq). rewrite drop_all. simpl. lia.
Qed.

Lemma Conserved_calls self cs : forall w mark,
  calls_ok self cs w ->
  Conserved self w mark ->
  Conserved self (fst (after_calls self cs w mark)) (snd (after_calls self cs w mark)).
Proof.
  induction cs as [|c cs IH]; intros w mark Hok HJ; [exact HJ|].
  destruct Hok as [Hc Hcs]. simpl. apply IH; [exact Hcs|].
  apply Conserved_call; assumption.
Qed.

Lemma after_calls_mark self cs w mark :
  Forall (fun c => ~ is_reset c) cs -> snd (after_calls self cs w mark) = mark.
Proof.
  intros H. revert w. induction H as [|c cs Hc _ IH]; intros w; [reflexivity|].
  simpl. destruct c; try apply IH. exfalso. apply Hc. exact I.
Qed.

(** C2, as stated, fails after a capacity reset: the setter restores the
    stock and keeps the history.  A restaurant with 5 normal meals serves
    an order of 2 and then has its capacity set to the same dictionary
    again: capacity and stock are both 5 while the history still grants
    2. *)
Lemma capacity_reset_keeps_history :
  let w := fst (after_calls 0%nat
                  [NewDict [(NORMAL, 2)]; AddOrder "t" (VDict 2%nat); SetCapacity 0%nat]
                  lone_restaurant_world 0%nat) in
  restaurants w !! 0%nat = Some (RestaurantObj.mk "r" 1 0%nat [("t", 2%nat)] 3%nat) /\
  dicts w !! 0%nat = Some [(NORMAL, 5)] /\
  dicts w !! 3%nat = Some [(NORMAL, 5)] /\
  total_granted w NORMAL [("t", 2%nat)] = 2 /\
  5 - 5 <> total_granted w NORMAL [("t", 2%nat)].
Proof. vm_compute. repeat split. discriminate. Qed.

(** It fails as well for an order that is the dictionary in which the
    restaurant keeps its stock, [rest.addOrder(teamName, rest.checkFood)]:
    the call returns, the stock goes down to 0, and the order recorded in
    the history, being that same dictionary, now reads 0.  Of a capacity
    of 5 nothing is left and nothing is recorded as granted. *)
Lemma addOrder_of_the_stock_is_not_accounted :
  Restaurant.checkFood 0%nat lone_restaurant_world = (lone_restaurant_world, inr 1%nat) /\
  let r := Restaurant.addOrder 0%nat "t" (VDict 1%nat) lone_restaurant_world in
  snd r = inr tt /\
  restaurants (fst r) !! 0%nat = Some (RestaurantObj.mk "r" 1 0%nat [("t", 1%nat)] 1%nat) /\
  dicts (fst r) !! 0%nat = Some [(NORMAL, 5)] /\
  dicts (fst r) !! 1%nat = Some [(NORMAL, 0)] /\
  total_granted (fst r) NORMAL [("t", 1%nat)] = 0 /\
  5 - 0 <> total_granted (fst r) NORMAL [("t", 1%nat)].
Proof. vm_compute. repeat split. discriminate. Qed.

(** C2, amended.  Take a restaurant made from a capacity dictionary with
    counts that are not negative, and then any steps of a caller: new
    dictionaries, calls of [addOrder] with any argument, resets of the
    capacity.  Two things are asked of the steps, each in the store in
    which it is made ([calls_ok]): an order that is a dictionary has
    counts that are not negative and is not the dictionary in which the
    restaurant keeps its stock at that moment (any other dictionary will
    do: the capacity, an order placed before, a stock given up by a
    reset), and the dictionary of a reset has counts that are not
    negative.  The steps are all that happens: nothing else writes to a
    dictionary.  Then, whether the calls return or raise, for every food
    type of the capacity the stock count is at least 0 and at most the
    capacity count, and capacity minus stock is what the orders appended
    to the history since the construction, or since the latest capacity
    reset if there was one, grant of that food type.  With no reset,
    these are all the orders of the history. *)
Theorem restaurant_conservation name rate capacity C0 cs w0 :
  dicts w0 !! capacity = Some C0 ->
  nonneg C0 ->
  calls_ok (length (restaurants w0)) cs (fst (Restaurant.__init__ name rate capacity w0)) ->
  let self := length (restaurants w0) in
  let w := fst (after_calls self cs (fst (Restaurant.__init__ name rate capacity w0)) 0%nat) in
  let mark := snd (after_calls self cs (fst (Restaurant.__init__ name rate capacity w0)) 0%nat) in
  snd (Restaurant.__init__ name rate capacity w0) = inr self /\
  (Forall (fun c => ~ is_reset c) cs -> mark = 0%nat) /\
  exists R C S,
    restaurants w !! self = Some R /\
    dicts w !! RestaurantObj._capacity R = Some C /\
    dicts w !! RestaurantObj._foodInStock R = Some S /\
    forall c qty, Dict.get c C = Some qty ->
      exists s, Dict.get c S = Some s /\ 0 <= s <= qty /\
        qty - s = total_granted w c (drop mark (RestaurantObj._orderHistory R)).
Proof.
  intros HC0 Hnn Hok self w mark.
  destruct (Conserved_new name rate capacity w0 C0 HC0 Hnn) as (w1 & Hnew & HJ).
  subst w mark. rewrite Hnew in *. simpl fst in *. simpl snd.
  split; [reflexivity|]. split; [apply after_calls_mark|].
  destruct (Conserved_calls self cs w1 0%nat Hok HJ) as (R & C & S & HR & HC & HS & _ & _ & _ & H).
  exists R, C, S. auto.
Qed.

Lemma nodup_keys_b (d : Dict.t) :
  forallb (fun k => (count_occ String.string_dec (Dict.keys d) k =? 1)%nat) (Dict.keys d) = true ->
  List.NoDup (Dict.keys d).
Proof.
  intros H. apply (NoDup_count_occ' String.string_dec). intros k Hk.
  rewrite forallb_forall in H. apply Nat.eqb_eq, H, Hk.
Qed.

Lemma restaurant_conservation_witness :
  let cs := [NewDict [(NORMAL, 2)]; AddOrder "t" (VDict 2%nat); NewDict [(NORMAL, 7)];
             SetCapacity 3%nat; AddOrder "u" (VDict 2%nat); AddOrder "v" (VDict 3%nat);
             AddOrder "w" (VInt 3); AddOrder "x" (VDict 1%nat)] in
  let w1 := fst (Restaurant.__init__ "r" 1 0%nat (fst (dict_new [(NORMAL, 5)] empty_world))) in
  let self := length (restaurants (fst (dict_new [(NORMAL, 5)] empty_world))) in
  let w := fst (after_calls self cs w1 0%nat) in
  let mark := snd (after_calls self cs w1 0%nat) in
  snd (Restaurant.__init__ "r" 1 0%nat (fst (dict_new [(NORMAL, 5)] empty_world))) = inr self /\
  (Forall (fun c => ~ is_reset c) cs -> mark = 0%nat) /\
  exists R C S,
    restaurants w !! self = Some R /\
    dicts w !! RestaurantObj._capacity R = Some C /\
    dicts w !! RestaurantObj._foodInStock R = Some S /\
    forall c qty, Dict.get c C = Some qty ->
      exists s, Dict.get c S = Some s /\ 0 <= s <= qty /\
        qty - s = total_granted w c (drop mark (RestaurantObj._orderHistory R)).
Proof.
  apply (restaurant_conservation "r" 1 0%nat [(NORMAL, 5)]
           [NewDict [(NORMAL, 2)]; AddOrder "t" (VDict 2%nat); NewDict [(NORMAL, 7)];
            SetCapacity 3%nat; AddOrder "u" (VDict 2%nat); AddOrder "v" (VDict 3%nat);
            AddOrder "w" (VInt 3); AddOrder "x" (VDict 1%nat)]
           (fst (dict_new [(NORMAL, 5)] empty_world))).
  - vm_compute. reflexivity.
  - apply nonneg_b_nonneg. vm_compute. reflexivity.
  - repeat lazymatch goal with
           | |- calls_ok _ _ _ => cbn [calls_ok call_ok]
           | |- True => exact I
           | |- _ /\ _ => split
           | |- forall R, _ = Some R -> _ <> _ =>
               let R := fresh "R" in let HR := fresh "HR" in
               intros R HR; vm_compute in HR; injection HR as <-; vm_compute; discriminate
           | |- exists _, _ => eexists
           | |- _ !! _ = Some _ => vm_compute; reflexivity
           | |- List.NoDup _ => apply nodup_keys_b; vm_compute; reflexivity
           | |- nonneg _ => apply nonneg_b_nonneg; vm_compute; reflexivity
           end.
Defined.

(** The steps of the witness end with a capacity of 7 and a stock of 2,
    and the three orders placed since the reset grant 5. *)
Lemma restaurant_conservation_run :
  let cs := [NewDict [(NORMAL, 2)]; AddOrder "t" (VDict 2%nat); NewDict [(NORMAL, 7)];
             SetCapacity 3%nat; AddOrder "u" (VDict 2%nat); AddOrder "v" (VDict 3%nat);
             AddOrder "w" (VInt 3); AddOrder "x" (VDict 1%nat)] in
  let r := after_calls 0%nat cs lone_restaurant_world 0%nat in
  restaurants (fst r) !! 0%nat
    = Some (RestaurantObj.mk "r" 1 3%nat [("t", 2%nat); ("u", 2%nat); ("x", 1%nat)] 4%nat) /\
  snd r = 1%nat /\
  dicts (fst r) !! 3%nat = Some [(NORMAL, 7)] /\
  dicts (fst r) !! 4%nat = Some [(NORMAL, 2)] /\
  total_granted (fst r) NORMAL [("u", 2%nat); ("x", 1%nat)] = 5.
Proof. vm_compute. repeat split. Qed.

(** ** The queue *)

Create HintDb quiet.

Lemma quiet_ret {A} (a : A) : quiet (ret a).
Proof. intros w. split; [reflexivity|discriminate]. Qed.

Lemma quiet_raise {A} e : e <> OutOfFuel -> quiet (@raise A e).
Proof. intros He w. split; [reflexivity|]. simpl. congruence. Qed.

Lemma quiet_bind {A B} (m : M A) (f : A -> M B) :
  quiet m -> (forall a, quiet (f a)) -> quiet (bind m f).
Proof.
  intros Hm Hf w. unfold bind. destruct (Hm w) as [H1 H2].
  destruct (m w) as [w1 [e|a]]; simpl in *.
  - split; [exact H1|]. intros [= ->]. apply H2. reflexivity.
  - destruct (Hf a w1) as [H3 H4]. split; [congruence|exact H4].
Qed.

Lemma quiet_for_each {A} (xs : list A) body :
  (forall x, quiet (body x)) -> quiet (for_each xs body).
Proof.
  intros H. induction xs as [|x xs IH]; simpl; [apply quiet_ret|].
  apply quiet_bind; [apply H|intros _; exact IH].
Qed.

Lemma quiet_dict_read d : quiet (dict_read d).
Proof.
  intros w. unfold dict_read, from_option. destruct (dicts w !! d); simpl; split;
    try reflexivity; discriminate.
Qed.

Lemma quiet_dict_write d c : quiet (dict_write d c).
Proof. intros w. split; [reflexivity|discriminate]. Qed.

Lemma quiet_dict_new c : quiet (dict_new c).
Proof. intros w. split; [reflexivity|discriminate]. Qed.

Lemma quiet_rest_read r : quiet (rest_read r).
Proof.
  intros w. unfold rest_read, from_option. destruct (restaurants w !! r); simpl; split;
    try reflexivity; discriminate.
Qed.

Lemma quiet_rest_write r o : quiet (rest_write r o).
Proof. intros w. split; [reflexivity|discriminate]. Qed.

Lemma quiet_team_read t : quiet (team_read t).
Proof.
  intros w. unfold team_read, from_option. destruct (teams w !! t); simpl; split;
    try reflexivity; discriminate.
Qed.

Lemma quiet_team_write t o : quiet (team_write t o).
Proof. intros w. split; [reflexivity|discriminate]. Qed.

Lemma quiet_list_read l : quiet (list_read l).
Proof.
  intros w. unfold list_read, from_option. destruct (lists w !! l); simpl; split;
    try reflexivity; discriminate.
Qed.

Lemma quiet_list_write l c : quiet (list_write l c).
Proof. intros w. split; [reflexivity|discriminate]. Qed.

#[local] Hint Resolve quiet_ret quiet_dict_read quiet_dict_write quiet_dict_new
  quiet_rest_read quiet_rest_write quiet_team_read quiet_team_write
  quiet_list_read quiet_list_write : quiet.

Ltac quiet_step :=
  match goal with
  | |- quiet (bind _ _) => apply quiet_bind; [|intros]
  | |- quiet (for_each _ _) => apply quiet_for_each; intros
  | |- quiet (raise _) => apply quiet_raise; discriminate
  | |- quiet (if ?b then _ else _) => destruct b
  | |- quiet (match ?x with _ => _ end) => destruct x
  | |- quiet _ => solve [auto with quiet]
  end.

Ltac quiet_run := repeat quiet_step.

Lemma quiet_contains d k : quiet (contains d k).
Proof. unfold contains. quiet_run. Qed.

Lemma quiet_getitem d k : quiet (getitem d k).
Proof. unfold getitem. quiet_run. Qed.

Lemma quiet_setitem d k v : quiet (setitem d k v).
Proof. unfold setitem. quiet_run. Qed.

Lemma quiet_dict_copy d : quiet (dict_copy d).
Proof. unfold dict_copy. quiet_run. Qed.

Lemma quiet_dict_keys d : quiet (dict_keys d).
Proof. unfold dict_keys. quiet_run. Qed.

Lemma quiet_sum_values d : quiet (sum_values d).
Proof. unfold sum_values. quiet_run. Qed.

Lemma quiet_checkFood r : quiet (Restaurant.checkFood r).
Proof. unfold Restaurant.checkFood. quiet_run. Qed.

Lemma quiet_rest_name r : quiet (Restaurant.name r).
Proof. unfold Restaurant.name. quiet_run. Qed.

Lemma quiet_rest_rate r : quiet (Restaurant.rate r).
Proof. unfold Restaurant.rate. quiet_run. Qed.

Lemma quiet_team_name t : quiet (Team.name t).
Proof. unfold Team.name. quiet_run. Qed.

Lemma quiet_team_demand t : quiet (Team.demand t).
Proof. unfold Team.demand. quiet_run. Qed.

Lemma quiet_team_addOrder t n o : quiet (Team.addOrder t n o).
Proof. unfold Team.addOrder. quiet_run. Qed.

#[local] Hint Resolve quiet_contains quiet_getitem quiet_setitem quiet_dict_copy
  quiet_dict_keys quiet_sum_values quiet_checkFood quiet_rest_name quiet_rest_rate
  quiet_team_name quiet_team_demand quiet_team_addOrder : quiet.

Lemma quiet_rest_addOrder r n o : quiet (Restaurant.addOrder r n o).
Proof.
  unfold Restaurant.addOrder, Restaurant.check_meal, Restaurant.take_meal. quiet_run.
Qed.

Lemma quiet_with_keys {K} (key : nat -> M K) xs :
  (forall x, quiet (key x)) -> quiet (with_keys key xs).
Proof.
  intros H. induction xs as [|x xs IH]; simpl; [apply quiet_ret|].
  apply quiet_bind; [apply H|]. intros k.
  apply quiet_bind; [exact IH|]. intros ks. apply quiet_ret.
Qed.

Lemma quiet_list_sort_reverse {K} (ltb : K -> K -> bool) l key :
  (forall x, quiet (key x)) -> quiet (list_sort_reverse ltb l key).
Proof.
  intros H. unfold list_sort_reverse.
  apply quiet_bind; [auto with quiet|]. intros xs.
  apply quiet_bind; [apply quiet_with_keys, H|]. intros ks. auto with quiet.
Qed.

#[local] Hint Resolve quiet_rest_addOrder : quiet.

Lemma quiet_optimizeOrder team l flag : quiet (OrderSystem.optimizeOrder team l flag).
Proof.
  unfold OrderSystem.optimizeOrder, OrderSystem.place_orders, OrderSystem.check_demand.
  apply quiet_bind.
  - apply quiet_bind.
    + destruct flag; simpl; apply quiet_list_sort_reverse; intros x.
      * unfold OrderSystem.key_rate_size. quiet_run.
      * unfold OrderSystem.key_rate. auto with quiet.
    + intros _. unfold OrderSystem.the_team, OrderSystem.serve, OrderSystem.fill. quiet_run.
  - intros placed. unfold OrderSystem.check. quiet_run.
Qed.

Lemma while_FIFO_S fuel self l flag :
  OrderSystem.while_FIFO (S fuel) self l flag =
    (FIFO <- fifo_read self ;;
     match FIFO with
     | [] => ret tt
     | team :: FIFO' =>
         fifo_write self FIFO' ;;;
         OrderSystem.optimizeOrder team l flag ;;;
         OrderSystem.while_FIFO fuel self l flag
     end).
Proof. reflexivity. Qed.

Lemma while_FIFO_nil fuel self l flag w :
  systems w !! self = Some [] ->
  OrderSystem.while_FIFO (S fuel) self l flag w = (w, inr tt).
Proof.
  intros Hq. rewrite while_FIFO_S.
  rewrite (bind_ok _ _ _ _ _ (fifo_read_ok _ _ _ Hq)). reflexivity.
Qed.

Lemma processOrder_step self l flag w team q :
  systems w !! self = Some (team :: q) ->
  systems (fst (OrderSystem.optimizeOrder team l flag
                  (with_systems w (<[self := q]> (systems w))))) !! self = Some q /\
  OrderSystem.processOrder self l flag w =
    match snd (OrderSystem.optimizeOrder team l flag
                 (with_systems w (<[self := q]> (systems w)))) with
    | inl e => (fst (OrderSystem.optimizeOrder team l flag
                       (with_systems w (<[self := q]> (systems w)))), inl e)
    | inr _ => OrderSystem.processOrder self l flag
                 (fst (OrderSystem.optimizeOrder team l flag
                         (with_systems w (<[self := q]> (systems w)))))
    end.
Proof.
  intros Hq.
  destruct (quiet_optimizeOrder team l flag (with_systems w (<[self := q]> (systems w))))
    as [Hsys _].
  assert (Hq' : systems (fst (OrderSystem.optimizeOrder team l flag
                  (with_systems w (<[self := q]> (systems w))))) !! self = Some q).
  { rewrite Hsys. simpl. apply list_lookup_insert_eq. eapply lookup_lt_Some; eassumption. }
  split; [exact Hq'|].
  unfold OrderSystem.processOrder at 1.
  rewrite (bind_ok _ _ _ _ _ (fifo_read_ok _ _ _ Hq)).
  rewrite while_FIFO_S.
  rewrite (bind_ok _ _ _ _ _ (fifo_read_ok _ _ _ Hq)).
  unfold bind at 1. unfold fifo_write at 1. fold (with_systems w (<[self := q]> (systems w))).
  unfold bind at 1. simpl length.
  destruct (OrderSystem.optimizeOrder team l flag (with_systems w (<[self := q]> (systems w))))
    as [w2 [e|[]]]; cbn [fst snd] in *; [reflexivity|].
  unfold OrderSystem.processOrder.
  rewrite (bind_ok _ _ _ _ _ (fifo_read_ok _ _ _ Hq')). reflexivity.
Qed.

Lemma processOrder_ends self l flag q :
  forall w, systems w !! self = Some q ->
    snd (OrderSystem.processOrder self l flag w) <> inl OutOfFuel /\
    (snd (OrderSystem.processOrder self l flag w) = inr tt ->
     systems (fst (OrderSystem.processOrder self l flag w)) !! self = Some []).
Proof.
  induction q as [|team q IH]; intros w Hq.
  - unfold OrderSystem.processOrder.
    rewrite (bind_ok _ _ _ _ _ (fifo_read_ok _ _ _ Hq)).
    rewrite (while_FIFO_nil _ _ _ _ _ Hq). simpl. split; [discriminate|auto].
  - destruct (processOrder_step self l flag w team q Hq) as [Hq' ->].
    destruct (quiet_optimizeOrder team l flag (with_systems w (<[self := q]> (systems w))))
      as [_ Hfuel].
    destruct (OrderSystem.optimizeOrder team l flag (with_systems w (<[self := q]> (systems w))))
      as [w2 [e|[]]]; simpl in *.
    + split; [exact Hfuel|discriminate].
    + apply IH, Hq'.
Qed.

(** C9.  [processOrder] takes the teams off the front of the queue one
    by one.  With an empty queue it returns at once.  Otherwise the first
    team leaves the queue and [optimizeOrder] runs for it on the same
    list, in the store as the earlier runs left it; if that run raises,
    [processOrder] raises the same exception there and then, and the
    teams behind stay in the queue; if it returns, [processOrder] goes on
    in the same way with the rest of the queue.  The loop comes to an
    end, and when it returns the queue is empty. *)
Theorem processOrder_first_in_first_out self l flag w q :
  systems w !! self = Some q ->
  match q with
  | [] => OrderSystem.processOrder self l flag w = (w, inr tt)
  | team :: q' =>
      let r := OrderSystem.optimizeOrder team l flag
                 (with_systems w (<[self := q']> (systems w))) in
      systems (fst r) !! self = Some q' /\
      OrderSystem.processOrder self l flag w =
        match snd r with
        | inl e => (fst r, inl e)
        | inr _ => OrderSystem.processOrder self l flag (fst r)
        end
  end /\
  snd (OrderSystem.processOrder self l flag w) <> inl OutOfFuel /\
  (snd (OrderSystem.processOrder self l flag w) = inr tt ->
   systems (fst (OrderSystem.processOrder self l flag w)) !! self = Some []).
Proof.
  intros Hq. split; [|apply (processOrder_ends self l flag q w Hq)].
  destruct q as [|team q'].
  - unfold OrderSystem.processOrder.
    rewrite (bind_ok _ _ _ _ _ (fifo_read_ok _ _ _ Hq)).
    apply while_FIFO_nil, Hq.
  - apply processOrder_step, Hq.
Qed.

Lemma processOrder_first_in_first_out_witness :
  (let r := OrderSystem.optimizeOrder (VTeam 0%nat) 0%nat false
              (with_systems two_teams_world (<[0%nat := [VTeam 1%nat]]> (systems two_teams_world))) in
   systems (fst r) !! 0%nat = Some [VTeam 1%nat] /\
   OrderSystem.processOrder 0%nat 0%nat false two_teams_world =
     match snd r with
     | inl e => (fst r, inl e)
     | inr _ => OrderSystem.processOrder 0%nat 0%nat false (fst r)
     end) /\
  snd (OrderSystem.processOrder 0%nat 0%nat false two_teams_world) <> inl OutOfFuel /\
  (snd (OrderSystem.processOrder 0%nat 0%nat false two_teams_world) = inr tt ->
   systems (fst (OrderSystem.processOrder 0%nat 0%nat false two_teams_world)) !! 0%nat = Some []).
Proof.
  apply (processOrder_first_in_first_out 0%nat 0%nat false two_teams_world
           [VTeam 0%nat; VTeam 1%nat]).
  vm_compute. reflexivity.
Defined.

(** Scenario C: the second team is served from what the first team left.
    The first team takes all of "rest1" and 2, 1 and 7 meals of "rest2";
    the second team finds "rest1" empty and takes its 30, 8 and 10 meals
    from "rest2", which is left with 28, 11 and 3. *)
Lemma testMultipleTeamTest_result :
  let w := fst (OrderSystemTests.testMultipleTeamTest empty_world) in
  snd (OrderSystemTests.testMultipleTeamTest empty_world) = inr tt /\
  teams w !! 1%nat = Some (TeamObj.mk "cisco2" 1%nat [("rest2", 10%nat)]) /\
  dicts w !! 10%nat = Some [(NORMAL, 30); (VEGETARIAN, 8); (GLUTEN_FREE, 10)] /\
  dicts w !! 3%nat = Some [(NORMAL, 0); (VEGETARIAN, 0)] /\
  dicts w !! 5%nat = Some [(NORMAL, 28); (VEGETARIAN, 11); (GLUTEN_FREE, 3)].
Proof. vm_compute. repeat split. Qed.

(** Scenario A: the single team gets 36 and 4 meals from "rest1" and 2, 1
    and 7 from "rest2". *)
Lemma testSingleTeamTestWithUniqueRates_result :
  let w := fst (OrderSystemTests.testSingleTeamTestWithUniqueRates empty_world) in
  snd (OrderSystemTests.testSingleTeamTestWithUniqueRates empty_world) = inr tt /\
  teams w !! 0%nat = Some (TeamObj.mk "cisco1" 0%nat [("rest1", 6%nat); ("rest2", 7%nat)]) /\
  dicts w !! 6%nat = Some [(NORMAL, 36); (VEGETARIAN, 4)] /\
  dicts w !! 7%nat = Some [(NORMAL, 2); (VEGETARIAN, 1); (GLUTEN_FREE, 7)] /\
  dicts w !! 2%nat = Some [(NORMAL, 0); (VEGETARIAN, 0)] /\
  dicts w !! 4%nat = Some [(NORMAL, 58); (VEGETARIAN, 19); (GLUTEN_FREE, 13)].
Proof. vm_compute. repeat split. Qed.

(** ** [addTeam] *)

Lemma addTeam_list_loop self items : forall w q,
  systems w !! self = Some q ->
  for_each items (fun i => FIFO <- fifo_read self ;; fifo_write self (FIFO ++ [i])) w
    = (with_systems w (<[self := q ++ items]> (systems w)), inr tt).
Proof.
  induction items as [|i items IH]; intros w q Hq; simpl.
  - rewrite app_nil_r, list_insert_id by exact Hq. destruct w; reflexivity.
  - unfold bind at 1. rewrite (bind_ok _ _ _ _ _ (fifo_read_ok _ _ _ Hq)).
    unfold fifo_write at 1.
    rewrite (IH _ (q ++ [i])).
    + unfold with_systems. simpl. rewrite list_insert_insert_eq, <- app_assoc. reflexivity.
    + simpl. apply list_lookup_insert_eq. eapply lookup_lt_Some; eassumption.
Qed.

(** C10.  [addTeam] checks nothing about what it is given.  An argument
    that is neither a [Team] nor a list leaves the queue, and the whole
    store, as it is, and nothing is raised; a list has every one of its
    elements appended to the queue in order, whatever they are; a [Team]
    is appended. *)
Theorem addTeam_checks_nothing self w q :
  systems w !! self = Some q ->
  (forall team, (forall t, team <> VTeam t) -> (forall items, team <> VList items) ->
     OrderSystem.addTeam self team w = (w, inr tt)) /\
  (forall items,
     OrderSystem.addTeam self (VList items) w
       = (with_systems w (<[self := q ++ items]> (systems w)), inr tt)) /\
  (forall t,
     OrderSystem.addTeam self (VTeam t) w
       = (with_systems w (<[self := q ++ [VTeam t]]> (systems w)), inr tt)).
Proof.
  intros Hq. split; [|split].
  - intros team Ht Hl. destruct team; try reflexivity.
    + exfalso. eapply Hl. reflexivity.
    + exfalso. eapply Ht. reflexivity.
  - intros items. unfold OrderSystem.addTeam. apply addTeam_list_loop, Hq.
  - intros t. unfold OrderSystem.addTeam.
    rewrite (bind_ok _ _ _ _ _ (fifo_read_ok _ _ _ Hq)). reflexivity.
Qed.

Lemma addTeam_checks_nothing_witness :
  (forall team, (forall t, team <> VTeam t) -> (forall items, team <> VList items) ->
     OrderSystem.addTeam 0%nat team two_teams_world = (two_teams_world, inr tt)) /\
  (forall items,
     OrderSystem.addTeam 0%nat (VList items) two_teams_world
       = (with_systems two_teams_world
            (<[0%nat := [VTeam 0%nat; VTeam 1%nat] ++ items]> (systems two_teams_world)), inr tt)) /\
  (forall t,
     OrderSystem.addTeam 0%nat (VTeam t) two_teams_world
       = (with_systems two_teams_world
            (<[0%nat := [VTeam 0%nat; VTeam 1%nat] ++ [VTeam t]]> (systems two_teams_world)),
          inr tt)).
Proof.
  apply (addTeam_checks_nothing 0%nat two_teams_world [VTeam 0%nat; VTeam 1%nat]).
  vm_compute. reflexivity.
Defined.

(** * Further properties *)

(** ** The order of one restaurant, in closed form *)

Lemma fill_step_get_other S D O ft c :
  ft <> c ->
  Dict.get c (fst (fill_step S (D, O) ft)) = Dict.get c D /\
  Dict.get c (snd (fill_step S (D, O) ft)) = Dict.get c O.
Proof.
  intros Hne. unfold fill_step. simpl.
  destruct (Dict.get ft D); [|auto]. destruct (Dict.get ft S); [|auto].
  simpl. rewrite !get_set_ne by exact Hne. auto.
Qed.

Lemma filled_get_out S D O fts c :
  ~ In c fts ->
  Dict.get c (fst (filled S D O fts)) = Dict.get c D /\
  Dict.get c (snd (filled S D O fts)) = Dict.get c O.
Proof.
  revert D O. induction fts as [|ft fts IH]; intros D O Hout; [auto|].
  unfold filled. simpl. destruct (fill_step S (D, O) ft) as [D1 O1] eqn:E.
  fold (filled S D1 O1 fts).
  destruct (IH D1 O1) as [H1 H2]; [intros H; apply Hout; right; exact H|].
  destruct (fill_step_get_other S D O ft c) as [H3 H4]; [intros ->; apply Hout; left; reflexivity|].
  rewrite E in H3, H4. simpl in H3, H4. split; congruence.
Qed.

Lemma filled_get_in S D O fts c :
  List.NoDup fts -> In c fts ->
  Dict.get c (fst (filled S D O fts)) =
    match Dict.get c D, Dict.get c S with
    | Some d, Some s => Some (d - Z.min d s)
    | _, _ => Dict.get c D
    end /\
  Dict.get c (snd (filled S D O fts)) =
    match Dict.get c D, Dict.get c S with
    | Some d, Some s => Some (Z.min d s)
    | _, _ => Dict.get c O
    end.
Proof.
  revert D O. induction fts as [|ft fts IH]; intros D O Hnd Hin; [destruct Hin|].
  inversion Hnd as [|? ? Hft Hnd']; subst.
  unfold filled. simpl. destruct (fill_step S (D, O) ft) as [D1 O1] eqn:E.
  fold (filled S D1 O1 fts).
  destruct (String.string_dec ft c) as [->|Hne].
  - destruct (filled_get_out S D1 O1 fts c Hft) as [-> ->].
    revert E. unfold fill_step. simpl.
    destruct (Dict.get c D) as [d|] eqn:GD; [|intros [= <- <-]; rewrite GD; auto].
    destruct (Dict.get c S) as [s|] eqn:GS; intros [= <- <-]; [|rewrite GD; auto].
    rewrite !get_set_eq. auto.
  - destruct Hin as [Heq|Hin]; [contradiction|].
    destruct (IH D1 O1 Hnd' Hin) as [H1 H2].
    destruct (fill_step_get_other S D O ft c Hne) as [H3 H4].
    rewrite E in H3, H4. simpl in H3, H4. rewrite H1, H2, H3, H4. auto.
Qed.

(** X1.  What a restaurant with stock left gives in its turn: for each of
    the five food types that both the working demand and the stock have,
    the order holds the smaller of the two counts and both counts go down
    by it; for anything else the order has no key and demand and stock
    keep what they have. *)
Theorem serve_grants_the_minimum w t demand rest T R S D :
  teams w !! t = Some T ->
  restaurants w !! rest = Some R ->
  dicts w !! RestaurantObj._foodInStock R = Some S ->
  dicts w !! demand = Some D ->
  RestaurantObj._foodInStock R <> demand ->
  sum (Dict.values S) <> 0 ->
  exists w' O' D' S',
    OrderSystem.serve t demand rest w = (w', inr tt) /\
    dicts w' !! length (dicts w) = Some O' /\
    dicts w' !! demand = Some D' /\
    dicts w' !! RestaurantObj._foodInStock R = Some S' /\
    (forall c d s, In c OrderSystem.FOODTYPE ->
       Dict.get c D = Some d -> Dict.get c S = Some s ->
       Dict.get c O' = Some (Z.min d s) /\
       Dict.get c D' = Some (d - Z.min d s) /\
       Dict.get c S' = Some (s - Z.min d s)) /\
    (forall c, ~ In c OrderSystem.FOODTYPE \/ Dict.get c D = None \/ Dict.get c S = None ->
       Dict.get c O' = None /\
       Dict.get c D' = Dict.get c D /\
       Dict.get c S' = Dict.get c S).
Proof.
  intros HT HR HS HD Hne Hsum.
  rewrite (serve_spec w t demand rest T R S D HT HR HS HD Hne).
  destruct (Z.eqb_spec (sum (Dict.values S)) 0) as [|_]; [contradiction|].
  set (DO := filled S D [] OrderSystem.FOODTYPE).
  exists (served w t demand rest T R S D), (snd DO), (fst DO),
         (taken S (snd DO) (Dict.keys (snd DO))).
  pose proof (lookup_lt_Some _ _ _ HS) as Hs. pose proof (lookup_lt_Some _ _ _ HD) as Hd.
  assert (Hnd : List.NoDup (Dict.keys (snd DO))) by (apply filled_NoDup; constructor).
  assert (Hin : within S (snd DO)) by apply filled_within, within_nil.
  split; [reflexivity|]. unfold served. simpl. fold DO.
  split; [rewrite !list_lookup_insert_ne by lia; apply lookup_at_end|].
  split; [rewrite list_lookup_insert_ne by exact Hne;
          apply list_lookup_insert_eq; rewrite length_app; simpl; lia|].
  split; [apply list_lookup_insert_eq; rewrite length_insert, length_app; simpl; lia|].
  split.
  - intros c d s Hc GD GS.
    destruct (filled_get_in S D [] OrderSystem.FOODTYPE c FOODTYPE_NoDup Hc) as [H1 H2].
    rewrite GD, GS in H1, H2. fold DO in H1, H2.
    split; [exact H2|]. split; [exact H1|].
    rewrite (taken_keys c S (snd DO) s Hnd GS). unfold Dict.count. rewrite H2. reflexivity.
  - intros c Hcase.
    assert (HO : Dict.get c (snd DO) = None /\ Dict.get c (fst DO) = Dict.get c D).
    { destruct (in_dec String.string_dec c OrderSystem.FOODTYPE) as [Hc|Hc].
      - destruct (filled_get_in S D [] OrderSystem.FOODTYPE c FOODTYPE_NoDup Hc) as [H1 H2].
        fold DO in H1, H2. rewrite H1, H2.
        destruct Hcase as [Hn|[Hn|Hn]]; [contradiction| |]; rewrite Hn; [auto|].
        destruct (Dict.get c D); auto.
      - destruct (filled_get_out S D [] OrderSystem.FOODTYPE c Hc) as [H1 H2].
        fold DO in H1, H2. rewrite H1, H2. auto. }
    destruct HO as [HO1 HO2]. split; [exact HO1|]. split; [exact HO2|].
    rewrite taken_get_out; [reflexivity|].
    intros Hk. apply get_In_keys in Hk. rewrite contains_get, HO1 in Hk. discriminate.
Qed.

Lemma serve_grants_the_minimum_witness :
  exists w' O' D' S',
    OrderSystem.serve 0%nat 5%nat 0%nat
      (fst (dict_new OrderSystemTests.team1_demand single_team_world)) = (w', inr tt) /\
    dicts w' !! length (dicts (fst (dict_new OrderSystemTests.team1_demand single_team_world)))
      = Some O' /\
    dicts w' !! 5%nat = Some D' /\
    dicts w' !! 2%nat = Some S' /\
    (forall c d s, In c OrderSystem.FOODTYPE ->
       Dict.get c OrderSystemTests.team1_demand = Some d ->
       Dict.get c OrderSystemTests.rest1_capacity = Some s ->
       Dict.get c O' = Some (Z.min d s) /\
       Dict.get c D' = Some (d - Z.min d s) /\
       Dict.get c S' = Some (s - Z.min d s)) /\
    (forall c, ~ In c OrderSystem.FOODTYPE \/
               Dict.get c OrderSystemTests.team1_demand = None \/
               Dict.get c OrderSystemTests.rest1_capacity = None ->
       Dict.get c O' = None /\
       Dict.get c D' = Dict.get c OrderSystemTests.team1_demand /\
       Dict.get c S' = Dict.get c OrderSystemTests.rest1_capacity).
Proof.
  apply (serve_grants_the_minimum
           (fst (dict_new OrderSystemTests.team1_demand single_team_world))
           0%nat 5%nat 0%nat (TeamObj.mk "cisco1" 0%nat [])
           (RestaurantObj.mk "rest1" 5 1%nat [] 2%nat)
           OrderSystemTests.rest1_capacity OrderSystemTests.team1_demand).
  - vm_compute. reflexivity.
  - vm_compute. reflexivity.
  - vm_compute. reflexivity.
  - vm_compute. reflexivity.
  - vm_compute. lia.
  - vm_compute. discriminate.
Defined.

(** ** What a call leaves untouched *)

Lemma Framed_started w t l rs D0 : Framed t rs w (started w l rs D0).
Proof.
  unfold Framed, started. simpl. rewrite length_app. simpl.
  split; [lia|]. split; [reflexivity|]. split; [auto|]. split; [auto|].
  intros x Hx _. apply lookup_app_l, Hx.
Qed.

Lemma Framed_served w0 l rs D0 w t rest T R0 R S D :
  Framed t rs w0 w ->
  Settled (started w0 l rs D0) w ->
  In rest rs ->
  restaurants w0 !! rest = Some R0 ->
  restaurants w !! rest = Some R ->
  dicts w !! length (dicts w0) = Some D ->
  Framed t rs w0 (served w t (length (dicts w0)) rest T R S D).
Proof.
  intros (Hlen & Hsys & Ht & Hr & Hd) [_ Hset] Hin HR0 HR HD.
  pose proof (lookup_lt_Some _ _ _ HD) as Hdl.
  repeat split.
  - unfold served. simpl. rewrite !length_insert, length_app. simpl. lia.
  - exact Hsys.
  - intros t' Hne. unfold served. simpl. rewrite list_lookup_insert_ne by congruence.
    apply Ht, Hne.
  - intros r Hout. unfold served. simpl.
    rewrite list_lookup_insert_ne by (intros ->; contradiction). apply Hr, Hout.
  - intros x Hx Hfree. rewrite <- (Hd x Hx Hfree). apply served_other; [|lia|lia].
    destruct (Hset rest R0 HR0) as (R' & HR' & _ & _ & _ & Hst).
    assert (R' = R) by congruence. subst R'. rewrite Hst.
    intros ->. exact (Hfree rest R0 Hin HR0 eq_refl).
Qed.

(** A run of [optimizeOrder] without the flag, with the invariants of the
    loop and one more of the caller's choice. *)
Lemma optimizeOrder_run_with (Q : World -> Prop) w t l T D0 rs :
  teams w !! t = Some T ->
  dicts w !! TeamObj._demand T = Some D0 ->
  lists w !! l = Some rs ->
  Forall (fun r => has_stock w r = true) rs ->
  Q (started w l rs D0) ->
  (forall w1 rest T1 R0 R S D,
     Accounted t (length (dicts w)) T D0 w1 ->
     Settled (started w l rs D0) w1 ->
     Framed t rs w w1 ->
     Q w1 ->
     In rest rs ->
     restaurants w !! rest = Some R0 ->
     teams w1 !! t = Some T1 ->
     restaurants w1 !! rest = Some R ->
     RestaurantObj._foodInStock R = RestaurantObj._foodInStock R0 ->
     dicts w1 !! RestaurantObj._foodInStock R = Some S ->
     dicts w1 !! length (dicts w) = Some D ->
     (RestaurantObj._foodInStock R < length (dicts w))%nat ->
     sum (Dict.values S) <> 0 ->
     Q (served w1 t (length (dicts w)) rest T1 R S D)) ->
  exists w' D,
    OrderSystem.place_orders (VTeam t) l false w = (w', inr (t, length (dicts w))) /\
    for_each (by_rate (rate_of w) rs) (OrderSystem.serve t (length (dicts w)))
      (started w l rs D0) = (w', inr tt) /\
    Accounted t (length (dicts w)) T D0 w' /\
    Settled (started w l rs D0) w' /\
    Framed t rs w w' /\
    Q w' /\
    dicts w' !! length (dicts w) = Some D /\
    OrderSystem.optimizeOrder (VTeam t) l false w = (w', verdict (TeamObj._name T) D).
Proof.
  intros HT HD0 Hl Hrs Hinit Hstep.
  destruct (place_orders_spec w t l T D0 rs HT HD0 Hl Hrs
              (fun w' => Accounted t (length (dicts w)) T D0 w' /\
                         Settled (started w l rs D0) w' /\
                         Framed t rs w w' /\ Q w'))
    as [w' [Hrun [Hloop [HV (HA & HS & HF & HQ)]]]].
  - split; [apply Accounted_started, HT|]. split; [apply Settled_refl|].
    split; [apply Framed_started|exact Hinit].
  - intros w1 rest T1 R S D _ (HA1 & HS1 & HF1 & HQ1) Hin HT1 HR1 HSw HDw Hlt Hsum.
    assert (Hin' : In rest rs).
    { eapply Permutation_in; [symmetry; apply by_rate_perm|exact Hin]. }
    assert (Hr : has_stock w rest = true).
    { rewrite List.Forall_forall in Hrs. apply Hrs, Hin'. }
    destruct (has_stock_inv _ _ Hr) as (R0 & S0 & HR0 & _).
    pose proof HS1 as [_ Hset]. destruct (Hset rest R0 HR0) as (R' & HR' & _ & _ & _ & Hst).
    assert (R' = R) by congruence. subst R'.
    split; [apply Accounted_served; assumption|].
    split; [apply Settled_served; assumption|].
    split; [eapply Framed_served; eassumption|].
    eapply Hstep; eassumption.
  - pose proof HA as (T' & new & D & HT' & Hname & _ & _ & _ & HD & _).
    exists w', D.
    split; [exact Hrun|]. split; [exact Hloop|]. split; [exact HA|]. split; [exact HS|].
    split; [exact HF|]. split; [exact HQ|]. split; [exact HD|].
    unfold OrderSystem.optimizeOrder. rewrite (bind_ok _ _ _ _ _ Hrun). simpl fst. simpl snd.
    rewrite (check_demand_spec _ _ _ _ _ HT' HD), Hname. reflexivity.
Qed.

(** X5.  A call of [optimizeOrder], whether it returns or raises, touches
    nothing but the team it is for, the restaurants of the list, the stock
    dictionaries of those restaurants and the list itself: every other
    team, every other restaurant, every other list, every queue and every
    other dictionary that was there (the capacities, the demands, the
    orders of earlier runs) is as it was. *)
Theorem optimizeOrder_touches_only_its_own w t l flag rs :
  ready w t l = true ->
  lists w !! l = Some rs ->
  systems (fst (OrderSystem.optimizeOrder (VTeam t) l flag w)) = systems w /\
  (forall l', l' <> l ->
     lists (fst (OrderSystem.optimizeOrder (VTeam t) l flag w)) !! l' = lists w !! l') /\
  (forall t', t' <> t ->
     teams (fst (OrderSystem.optimizeOrder (VTeam t) l flag w)) !! t' = teams w !! t') /\
  (forall r, ~ In r rs ->
     restaurants (fst (OrderSystem.optimizeOrder (VTeam t) l flag w)) !! r
       = restaurants w !! r) /\
  (forall x, (x < length (dicts w))%nat ->
     (forall r R, In r rs -> restaurants w !! r = Some R ->
        RestaurantObj._foodInStock R <> x) ->
     dicts (fst (OrderSystem.optimizeOrder (VTeam t) l flag w)) !! x = dicts w !! x).
Proof.
  intros Hready Hl.
  destruct (optimizeOrder_flag w t l flag Hready) as [E|E]; rewrite E;
    [|simpl; repeat split; auto].
  destruct (ready_inv _ _ _ Hready) as (T & D0 & rs1 & HT & HD0 & Hl1 & Hrs).
  assert (rs1 = rs) by congruence. subst rs1.
  destruct (optimizeOrder_run_with (fun _ => True) w t l T D0 rs HT HD0 Hl Hrs I)
    as (w' & D & _ & _ & _ & [Hlists _] & (_ & Hsys & Ht & Hr & Hd) & _ & _ & Hopt); [auto|].
  rewrite Hopt. simpl. repeat split; try assumption.
  intros l' Hne. rewrite Hlists. unfold started. simpl.
  apply list_lookup_insert_ne. congruence.
Qed.

Lemma optimizeOrder_touches_only_its_own_witness :
  systems (fst (OrderSystem.optimizeOrder (VTeam 0%nat) 1%nat false short_list_world))
    = systems short_list_world /\
  (forall l', l' <> 1%nat ->
     lists (fst (OrderSystem.optimizeOrder (VTeam 0%nat) 1%nat false short_list_world)) !! l'
       = lists short_list_world !! l') /\
  (forall t', t' <> 0%nat ->
     teams (fst (OrderSystem.optimizeOrder (VTeam 0%nat) 1%nat false short_list_world)) !! t'
       = teams short_list_world !! t') /\
  (forall r, ~ In r [0%nat] ->
     restaurants (fst (OrderSystem.optimizeOrder (VTeam 0%nat) 1%nat false short_list_world)) !! r
       = restaurants short_list_world !! r) /\
  (forall x, (x < length (dicts short_list_world))%nat ->
     (forall r R, In r [0%nat] -> restaurants short_list_world !! r = Some R ->
        RestaurantObj._foodInStock R <> x) ->
     dicts (fst (OrderSystem.optimizeOrder (VTeam 0%nat) 1%nat false short_list_world)) !! x
       = dicts short_list_world !! x).
Proof.
  apply (optimizeOrder_touches_only_its_own
           short_list_world 0%nat 1%nat false [0%nat]);
    vm_compute; reflexivity.
Defined.

(** ** Food types that are never served *)

(** X7.  Only the five food types of [FOODTYPE] are ever ordered.  A
    demand with a positive count under any other key, such as [TOTAL],
    cannot be met whatever the restaurants have: the call never returns,
    and without the flag it raises the exception of an unmet demand. *)
Theorem optimizeOrder_other_key_never_met w t l T D0 k v :
  ready w t l = true ->
  teams w !! t = Some T ->
  dicts w !! TeamObj._demand T = Some D0 ->
  Dict.get k D0 = Some v ->
  0 < v ->
  ~ In k OrderSystem.FOODTYPE ->
  (exists foodType,
     snd (OrderSystem.optimizeOrder (VTeam t) l false w)
       = inl (Exception (OrderSystem.not_satisfied (TeamObj._name T) foodType))) /\
  (forall flag, snd (OrderSystem.optimizeOrder (VTeam t) l flag w) <> inr tt).
Proof.
  intros Hready HT HD0 Hk Hv Hout.
  destruct (ready_inv _ _ _ Hready) as (T1 & D1 & rs & HT1 & HD1 & Hl & Hrs).
  assert (T1 = T) by congruence. subst T1. clear HD1.
  destruct (optimizeOrder_run_with
              (fun w1 => exists D, dicts w1 !! length (dicts w) = Some D /\
                                   Dict.get k D = Dict.get k D0)
              w t l T D0 rs HT HD0 Hl Hrs)
    as (w' & D & _ & _ & _ & _ & _ & (D' & HD' & Hkeep) & HD & Hopt).
  - exists D0. split; [apply lookup_at_end|reflexivity].
  - intros w1 rest T1 R0 R S D _ _ _ (D' & HD' & Hkeep) _ _ _ _ _ _ HDw Hlt _.
    assert (D' = D) by congruence. subst D'.
    eexists. split; [apply served_demand; [exact Hlt|eapply lookup_lt_Some; eassumption]|].
    destruct (filled_get_out S D [] OrderSystem.FOODTYPE k Hout) as [-> _]. exact Hkeep.
  - assert (D' = D) by congruence. subst D'.
    assert (Hraise : exists foodType, unmet D (Dict.keys D) = Some foodType).
    { destruct (unmet D (Dict.keys D)) as [ft|] eqn:Hu; [eauto|]. exfalso.
      rewrite unmet_None in Hu.
      assert (Hin : In k (Dict.keys D)).
      { apply get_In_keys. rewrite contains_get, Hkeep, Hk. reflexivity. }
      specialize (Hu k Hin). unfold Dict.count in Hu. rewrite Hkeep, Hk in Hu. lia. }
    destruct Hraise as [ft Hft].
    assert (Hfalse : snd (OrderSystem.optimizeOrder (VTeam t) l false w)
              = inl (Exception (OrderSystem.not_satisfied (TeamObj._name T) ft))).
    { rewrite Hopt. unfold verdict. rewrite Hft. reflexivity. }
    split; [exists ft; exact Hfalse|].
    intros flag. destruct (optimizeOrder_flag w t l flag Hready) as [E|E]; rewrite E.
    + rewrite Hfalse. discriminate.
    + discriminate.
Qed.

Lemma optimizeOrder_other_key_never_met_witness :
  (exists foodType,
     snd (OrderSystem.optimizeOrder (VTeam 0%nat) 0%nat false total_world)
       = inl (Exception (OrderSystem.not_satisfied "t" foodType))) /\
  (forall flag, snd (OrderSystem.optimizeOrder (VTeam 0%nat) 0%nat flag total_world) <> inr tt).
Proof.
  apply (optimizeOrder_other_key_never_met total_world 0%nat 0%nat
           (TeamObj.mk "t" 0%nat []) [(TOTAL, 50); (VEGETARIAN, 5)] TOTAL 50).
  - vm_compute. reflexivity.
  - vm_compute. reflexivity.
  - vm_compute. reflexivity.
  - vm_compute. reflexivity.
  - lia.
  - vm_compute. intros H. repeat (destruct H as [H|H]; [discriminate|]). exact H.
Defined.

(** ** The stock through a run *)

Lemma fill_step_order_nonneg S D O ft :
  nonneg S -> nonneg D -> nonneg O -> nonneg (snd (fill_step S (D, O) ft)).
Proof.
  intros HS HD HO. unfold fill_step. simpl.
  destruct (Dict.get ft D) as [d|] eqn:GD; [|exact HO].
  destruct (Dict.get ft S) as [s|] eqn:GS; [|exact HO].
  simpl. intros k v. rewrite get_set. destruct (String.eqb ft k); [|apply HO].
  intros [= <-]. pose proof (HD _ _ GD). pose proof (HS _ _ GS). lia.
Qed.

Lemma filled_order_nonneg S D O fts :
  nonneg S -> nonneg D -> nonneg O -> nonneg (snd (filled S D O fts)).
Proof.
  intros HS. revert D O. induction fts as [|ft fts IH]; intros D O HD HO; [exact HO|].
  unfold filled. simpl. destruct (fill_step S (D, O) ft) as [D1 O1] eqn:E.
  fold (filled S D1 O1 fts). apply IH.
  - replace D1 with (fst (fill_step S (D, O) ft)) by (rewrite E; reflexivity).
    apply fill_step_nonneg, HD.
  - replace O1 with (snd (fill_step S (D, O) ft)) by (rewrite E; reflexivity).
    apply fill_step_order_nonneg; assumption.
Qed.

Lemma nonneg_nil : nonneg [].
Proof. intros k v H. discriminate. Qed.

(** X4.  No over-allocation by [optimizeOrder] itself.  When the counts
    of the demand and of the stocks are not negative, then after the
    call, returned or raised, every restaurant of the list has the same
    stock dictionary with the same keys, and every count of it is at
    least 0 and at most what it was before the call. *)
Theorem optimizeOrder_stock_only_goes_down w t l flag T D0 rs :
  ready w t l = true ->
  teams w !! t = Some T ->
  dicts w !! TeamObj._demand T = Some D0 ->
  lists w !! l = Some rs ->
  nonneg D0 ->
  (forall r R S, In r rs -> restaurants w !! r = Some R ->
     dicts w !! RestaurantObj._foodInStock R = Some S -> nonneg S) ->
  forall r R S, In r rs -> restaurants w !! r = Some R ->
    dicts w !! RestaurantObj._foodInStock R = Some S ->
    exists R' S',
      restaurants (fst (OrderSystem.optimizeOrder (VTeam t) l flag w)) !! r = Some R' /\
      RestaurantObj._foodInStock R' = RestaurantObj._foodInStock R /\
      dicts (fst (OrderSystem.optimizeOrder (VTeam t) l flag w)) !! RestaurantObj._foodInStock R
        = Some S' /\
      Dict.keys S' = Dict.keys S /\
      forall c s, Dict.get c S = Some s ->
        exists s', Dict.get c S' = Some s' /\ 0 <= s' <= s.
Proof.
  intros Hready HT HD0 Hl Hnn Hstocks r R S Hr HR HS.
  destruct (optimizeOrder_flag w t l flag Hready) as [E|E]; rewrite E.
  2:{ simpl. exists R, S. repeat split; try assumption.
      intros c s Hc. exists s. split; [exact Hc|].
      pose proof (Hstocks r R S Hr HR HS c s Hc). lia. }
  destruct (ready_inv _ _ _ Hready) as (T1 & D1 & rs1 & HT1 & HD1 & Hl1 & Hrs).
  assert (rs1 = rs) by congruence. subst rs1. clear HT1 HD1 Hl1.
  destruct (optimizeOrder_run_with
              (fun w1 => forall r R S, In r rs -> restaurants w !! r = Some R ->
                 dicts w !! RestaurantObj._foodInStock R = Some S ->
                 exists S1, dicts w1 !! RestaurantObj._foodInStock R = Some S1 /\
                   Dict.keys S1 = Dict.keys S /\
                   forall c s, Dict.get c S = Some s ->
                     exists s1, Dict.get c S1 = Some s1 /\ 0 <= s1 <= s)
              w t l T D0 rs HT HD0 Hl Hrs)
    as (w' & D & _ & _ & _ & [_ Hset] & _ & HQ & _ & Hopt).
  - intros r1 R1 S1 Hr1 HR1 HS1. exists S1. unfold started. simpl.
    split; [apply lookup_app_l_Some, HS1|]. split; [reflexivity|].
    intros c s Hc. exists s. split; [exact Hc|].
    pose proof (Hstocks r1 R1 S1 Hr1 HR1 HS1 c s Hc). lia.
  - intros w1 rest T2 R0 Rc Sc D HA _ HF HQ Hrest HR0 HT2 HRc Hst HSc HDw Hlt _
      r1 R1 S1 Hr1 HR1 HS1.
    destruct (HQ r1 R1 S1 Hr1 HR1 HS1) as (S1' & HS1' & Hkeys & Hb).
    pose proof (lookup_lt_Some _ _ _ HDw) as Hdl.
    destruct (Nat.eq_dec (RestaurantObj._foodInStock R1) (RestaurantObj._foodInStock Rc))
      as [Heq|Hne].
    + rewrite Heq in *. assert (S1' = Sc) by congruence. subst S1'.
      set (O' := snd (filled Sc D [] OrderSystem.FOODTYPE)).
      assert (HnnS : nonneg Sc).
      { intros c v Hc.
        assert (Hin : In c (Dict.keys S1)).
        { rewrite <- Hkeys. apply get_In_keys. rewrite contains_get, Hc. reflexivity. }
        apply get_In_keys in Hin. rewrite contains_get in Hin.
        destruct (Dict.get c S1) as [s|] eqn:G; [|discriminate].
        destruct (Hb c s G) as (s1 & Hs1 & Hle). rewrite Hc in Hs1.
        injection Hs1 as <-. lia. }
      assert (HnnD : nonneg D).
      { destruct HA as (T' & new & D' & _ & _ & _ & _ & _ & HD' & _ & HnnD & _).
        assert (D' = D) by congruence. subst D'. apply HnnD, Hnn. }
      assert (HnnO : nonneg O') by (apply filled_order_nonneg; auto using nonneg_nil).
      assert (Hwithin : within Sc O') by apply filled_within, within_nil.
      assert (Hnd : List.NoDup (Dict.keys O')) by (apply filled_NoDup; constructor).
      exists (taken Sc O' (Dict.keys O')).
      split; [apply served_stock; assumption|].
      split.
      { rewrite <- Hkeys. apply taken_same_keys. apply List.Forall_forall. intros meal Hm.
        apply get_In_keys in Hm. rewrite contains_get in Hm.
        destruct (Dict.get meal O') as [q|] eqn:G; [|discriminate].
        destruct (Hwithin meal q G) as (s & Hs & _). rewrite contains_get, Hs. reflexivity. }
      intros c s Hc. destruct (Hb c s Hc) as (s1 & Hs1 & Hle).
      exists (s1 - Dict.count c O'). split; [apply taken_keys; assumption|].
      pose proof (count_nonneg c O' HnnO) as Hge.
      assert (Hcnt : Dict.count c O' <= s1).
      { unfold Dict.count. destruct (Dict.get c O') as [q|] eqn:G; [|lia].
        destruct (Hwithin c q G) as (s2 & Hs2 & Hq). congruence. }
      lia.
    + exists S1'. split; [|split; assumption].
      rewrite <- HS1'. apply served_other; [exact Hne| |].
      * apply lookup_lt_Some in HS1. lia.
      * eapply lookup_lt_Some; eassumption.
  - rewrite Hopt. simpl.
    destruct (Hset r R HR) as (R' & HR' & _ & _ & _ & Hst).
    destruct (HQ r R S Hr HR HS) as (S' & HS' & Hkeys & Hb).
    exists R', S'. auto.
Qed.

Lemma optimizeOrder_stock_only_goes_down_witness :
  exists R' S',
    restaurants (fst (OrderSystem.optimizeOrder (VTeam 0%nat) 0%nat false single_team_world))
      !! 1%nat = Some R' /\
    RestaurantObj._foodInStock R' = 4%nat /\
    dicts (fst (OrderSystem.optimizeOrder (VTeam 0%nat) 0%nat false single_team_world)) !! 4%nat
      = Some S' /\
    Dict.keys S' = Dict.keys OrderSystemTests.rest2_capacity /\
    forall c s, Dict.get c OrderSystemTests.rest2_capacity = Some s ->
      exists s', Dict.get c S' = Some s' /\ 0 <= s' <= s.
Proof.
  apply (optimizeOrder_stock_only_goes_down single_team_world 0%nat 0%nat false
           (TeamObj.mk "cisco1" 0%nat []) OrderSystemTests.team1_demand [0%nat; 1%nat])
    with (r := 1%nat) (R := RestaurantObj.mk "rest2" 3 3%nat [] 4%nat).
  - vm_compute. reflexivity.
  - vm_compute. reflexivity.
  - vm_compute. reflexivity.
  - vm_compute. reflexivity.
  - apply nonneg_b_nonneg. vm_compute. reflexivity.
  - intros r R S [<-|[<-|[]]] HR HS; vm_compute in HR; injection HR as <-;
      vm_compute in HS; injection HS as <-; apply nonneg_b_nonneg; vm_compute; reflexivity.
  - right. left. reflexivity.
  - vm_compute. reflexivity.
  - vm_compute. reflexivity.
Defined.

(** ** The two sides of an order *)

(** X6.  Team and restaurants record the same orders.  After a call of
    [optimizeOrder] without the flag, every entry that the call appended
    to the result of the team names a restaurant of the list, and the
    history of that restaurant holds, under the name of the team, the very
    same order dictionary. *)
Theorem optimizeOrder_both_sides_record w t l T rs :
  ready w t l = true ->
  teams w !! t = Some T ->
  lists w !! l = Some rs ->
  exists T',
    teams (fst (OrderSystem.optimizeOrder (VTeam t) l false w)) !! t = Some T' /\
    forall restName o,
      In (restName, o) (drop (length (TeamObj._orderResult T)) (TeamObj._orderResult T')) ->
      exists r R',
        In r rs /\
        restaurants (fst (OrderSystem.optimizeOrder (VTeam t) l false w)) !! r = Some R' /\
        RestaurantObj._name R' = restName /\
        In (TeamObj._name T, o) (RestaurantObj._orderHistory R').
Proof.
  intros Hready HT Hl.
  destruct (ready_inv _ _ _ Hready) as (T1 & D0 & rs1 & HT1 & HD0 & Hl1 & Hrs).
  assert (T1 = T) by congruence. subst T1.
  assert (rs1 = rs) by congruence. subst rs1. clear HT1 Hl1.
  destruct (optimizeOrder_run_with
              (fun w1 => forall T1, teams w1 !! t = Some T1 ->
                 forall restName o,
                   In (restName, o)
                      (drop (length (TeamObj._orderResult T)) (TeamObj._orderResult T1)) ->
                   exists r R1, In r rs /\ restaurants w1 !! r = Some R1 /\
                     RestaurantObj._name R1 = restName /\
                     In (TeamObj._name T, o) (RestaurantObj._orderHistory R1))
              w t l T D0 rs HT HD0 Hl Hrs)
    as (w' & D & _ & _ & HA & _ & _ & HQ & _ & Hopt).
  - intros T1 HT1 restName o. unfold started in HT1. simpl in HT1.
    assert (T1 = T) by congruence. subst T1. rewrite drop_all. intros [].
  - intros w1 rest T2 R0 Rc Sc D HA _ _ HQ Hrest HR0 HT2 HRc _ _ _ _ _ T3 HT3 restName o Hin.
    pose proof (served_team w1 t (length (dicts w)) rest T2 Rc Sc D ltac:(eauto)) as Eteam.
    pose proof (served_restaurant w1 t (length (dicts w)) rest T2 Rc Sc D ltac:(eauto)) as Erest.
    rewrite Eteam in HT3. injection HT3 as <-.
    simpl in Hin.
    destruct HA as (T' & new & D' & HT' & Hname & _ & Hres & _).
    assert (T' = T2) by congruence. subst T'.
    rewrite drop_app_le in Hin by (rewrite Hres, length_app; lia).
    apply in_app_or in Hin. destruct Hin as [Hin|[Hin|[]]].
    + destruct (HQ T2 HT2 restName o Hin) as (r & R1 & Hr & HR1 & Hn & Hh).
      destruct (Nat.eq_dec rest r) as [->|Hne].
      * assert (R1 = Rc) by congruence. subst R1.
        exists r. eexists. split; [exact Hr|].
        split; [exact Erest|].
        split; [exact Hn|]. simpl. apply in_or_app. left. exact Hh.
      * exists r, R1. split; [exact Hr|]. split; [|auto].
        unfold served. simpl. rewrite list_lookup_insert_ne by exact Hne. exact HR1.
    + injection Hin as <- <-. exists rest. eexists. split; [exact Hrest|].
      split; [exact Erest|].
      split; [reflexivity|]. simpl. apply in_or_app. right. left. rewrite Hname. reflexivity.
  - rewrite Hopt. simpl.
    destruct HA as (T' & new & D' & HT' & _).
    exists T'. split; [exact HT'|]. apply HQ, HT'.
Qed.

Lemma optimizeOrder_both_sides_record_witness :
  exists T',
    teams (fst (OrderSystem.optimizeOrder (VTeam 0%nat) 0%nat false single_team_world)) !! 0%nat
      = Some T' /\
    forall restName o,
      In (restName, o) (drop (length (@nil (string * nat))) (TeamObj._orderResult T')) ->
      exists r R',
        In r [0%nat; 1%nat] /\
        restaurants (fst (OrderSystem.optimizeOrder (VTeam 0%nat) 0%nat false single_team_world))
          !! r = Some R' /\
        RestaurantObj._name R' = restName /\
        In ("cisco1", o) (RestaurantObj._orderHistory R').
Proof.
  apply (optimizeOrder_both_sides_record single_team_world 0%nat 0%nat
           (TeamObj.mk "cisco1" 0%nat []) [0%nat; 1%nat]);
    vm_compute; reflexivity.
Defined.

(** ** Demand against supply *)

Lemma sum_from (l : list Z) (a : Z) : fold_left Z.add l a = a + fold_left Z.add l 0.
Proof.
  revert a. induction l as [|x l IH]; intros a; simpl; [lia|].
  rewrite (IH (a + x)), (IH (0 + x)). lia.
Qed.

Lemma nonneg_b_sum_zero S c :
  nonneg_b S = true -> sum (Dict.values S) = 0 -> Dict.count c S = 0.
Proof.
  unfold sum, nonneg_b, Dict.count.
  induction S as [|[k v] S IH]; simpl; intros Hnn Hsum; [reflexivity|].
  apply andb_prop in Hnn. destruct Hnn as [Hv Hnn]. apply Z.leb_le in Hv. simpl in Hv.
  rewrite sum_from in Hsum.
  assert (Hrest : 0 <= fold_left Z.add (Dict.values S) 0).
  { clear - Hnn. induction S as [|[k' v'] S IH]; simpl; [lia|].
    simpl in Hnn. apply andb_prop in Hnn. destruct Hnn as [Hv Hnn].
    apply Z.leb_le in Hv. simpl in Hv. rewrite sum_from. specialize (IH Hnn). lia. }
  destruct (String.eqb c k); [lia|]. apply IH; [exact Hnn|]. unfold Dict.values in *. lia.
Qed.

Lemma filled_count_demand S D c :
  nonneg S -> nonneg D -> In c OrderSystem.FOODTYPE ->
  Dict.count c (fst (filled S D [] OrderSystem.FOODTYPE))
    = Z.max (Dict.count c D - Dict.count c S) 0.
Proof.
  intros HS HD Hc.
  destruct (filled_get_in S D [] OrderSystem.FOODTYPE c FOODTYPE_NoDup Hc) as [H _].
  unfold Dict.count. rewrite H.
  destruct (Dict.get c D) as [d|] eqn:GD; destruct (Dict.get c S) as [s|] eqn:GS;
    try (pose proof (HD _ _ GD)); try (pose proof (HS _ _ GS)); try rewrite GD; lia.
Qed.

Lemma supply_nonneg w rs c :
  (forall r, In r rs -> 0 <= in_stock w r c) -> 0 <= supply w rs c.
Proof.
  induction rs as [|r rs IH]; simpl; intros H; [lia|].
  pose proof (H r (or_introl eq_refl)).
  assert (0 <= supply w rs c) by (apply IH; intros r' Hr'; apply H; right; exact Hr').
  lia.
Qed.

Lemma supply_ext w w' rs c :
  (forall r, In r rs -> in_stock w' r c = in_stock w r c) ->
  supply w' rs c = supply w rs c.
Proof.
  induction rs as [|r rs IH]; simpl; intros H; [reflexivity|].
  rewrite (H r (or_introl eq_refl)), IH; [reflexivity|].
  intros r' Hr'. apply H. right. exact Hr'.
Qed.

Lemma supply_perm w rs rs' c : Permutation rs rs' -> supply w rs c = supply w rs' c.
Proof.
  induction 1; simpl; lia.
Qed.

Lemma Stocked_in_stock t demand rs w r c :
  Stocked t demand rs w -> In r rs -> 0 <= in_stock w r c.
Proof.
  intros (_ & _ & Hrs & _) Hr. destruct (Hrs r Hr) as (R & S & HR & _ & HS & Hnn).
  unfold in_stock, stock_ref, granted. rewrite HR, HS.
  apply count_nonneg, nonneg_b_nonneg, Hnn.
Qed.

Lemma Stocked_tail t demand r rs w : Stocked t demand (r :: rs) w -> Stocked t demand rs w.
Proof.
  intros (Ht & Hd & Hrs & Hnd). repeat split; try assumption.
  - intros r' Hr'. apply Hrs. right. exact Hr'.
  - simpl in Hnd. inversion Hnd. assumption.
Qed.

(** serving the head of the list leaves the rest of the list as it is *)
Lemma Stocked_served t demand r rs w T R S D :
  Stocked t demand (r :: rs) w ->
  teams w !! t = Some T ->
  restaurants w !! r = Some R ->
  dicts w !! RestaurantObj._foodInStock R = Some S ->
  dicts w !! demand = Some D ->
  Stocked t demand rs (served w t demand r T R S D) /\
  forall c, supply (served w t demand r T R S D) rs c = supply w rs c.
Proof.
  intros (Ht & (D' & HD' & HnnD) & Hrs & Hnd) HT HR HS HD.
  assert (D' = D) by congruence. subst D'.
  destruct (Hrs r (or_introl eq_refl)) as (R1 & S1 & HR1 & Hlt & HS1 & HnnS).
  assert (R1 = R) by congruence. subst R1. assert (S1 = S) by congruence. subst S1.
  pose proof (lookup_lt_Some _ _ _ HD) as Hdl.
  simpl in Hnd. inversion Hnd as [|? ? Hout Hnd']; subst.
  assert (Hsame : forall r', In r' rs ->
            restaurants (served w t demand r T R S D) !! r' = restaurants w !! r' /\
            forall R', restaurants w !! r' = Some R' ->
              dicts (served w t demand r T R S D) !! RestaurantObj._foodInStock R'
                = dicts w !! RestaurantObj._foodInStock R').
  { intros r' Hr'. destruct (Hrs r' (or_intror Hr')) as (R' & S' & HR' & Hlt' & HS' & _).
    assert (Hne : RestaurantObj._foodInStock R' <> RestaurantObj._foodInStock R).
    { intros Heq. apply Hout. apply in_map_iff. exists r'. split; [|exact Hr'].
      unfold stock_ref. rewrite HR', HR. exact Heq. }
    assert (Hr : r <> r') by (intros ->; congruence).
    split.
    - unfold served. simpl. apply list_lookup_insert_ne, Hr.
    - intros R'' HR''. assert (R'' = R') by congruence. subst R''.
      apply served_other; [exact Hne|lia|lia]. }
  assert (Hstock : forall r', In r' rs ->
            stock_ref (served w t demand r T R S D) r' = stock_ref w r').
  { intros r' Hr'. unfold stock_ref. destruct (Hsame r' Hr') as [-> _]. reflexivity. }
  split.
  - split; [apply list_lookup_insert_is_Some; exact Ht|].
    split.
    { eexists. split; [apply served_demand; assumption|].
      apply filled_nonneg, HnnD. }
    split.
    { intros r' Hr'. destruct (Hrs r' (or_intror Hr')) as (R' & S' & HR' & Hlt' & HS' & Hnn').
      destruct (Hsame r' Hr') as [E1 E2].
      exists R', S'. rewrite E1, (E2 R' HR'). auto. }
    rewrite (map_ext_in _ _ _ Hstock). exact Hnd'.
  - intros c. apply supply_ext. intros r' Hr'. unfold in_stock, granted.
    rewrite (Hstock r' Hr'). unfold stock_ref.
    destruct (Hrs r' (or_intror Hr')) as (R' & S' & HR' & _).
    rewrite HR'. destruct (Hsame r' Hr') as [_ E2]. rewrite (E2 R' HR'). reflexivity.
Qed.

Lemma serve_loop_supply t demand rs : forall w D,
  Stocked t demand rs w ->
  dicts w !! demand = Some D ->
  exists w' D',
    for_each rs (OrderSystem.serve t demand) w = (w', inr tt) /\
    dicts w' !! demand = Some D' /\
    forall c, In c OrderSystem.FOODTYPE ->
      Dict.count c D' = Z.max (Dict.count c D - supply w rs c) 0.
Proof.
  induction rs as [|r rs IH]; intros w D HSt HD.
  - exists w, D. split; [reflexivity|]. split; [exact HD|].
    intros c Hc. simpl.
    destruct HSt as (_ & (D' & HD' & HnnD) & _). assert (D' = D) by congruence. subst D'.
    pose proof (count_nonneg c D HnnD). lia.
  - pose proof HSt as (Ht & (D' & HD' & HnnD) & Hrs & Hnd).
    assert (D' = D) by congruence. subst D'.
    destruct Ht as [T HT].
    destruct (Hrs r (or_introl eq_refl)) as (R & S & HR & Hlt & HS & HnnS).
    simpl for_each. unfold bind at 1.
    rewrite (serve_spec w t demand r T R S D HT HR HS HD ltac:(lia)).
    assert (Hin : forall c, in_stock w r c = Dict.count c S).
    { intros c. unfold in_stock, stock_ref, granted. rewrite HR, HS. reflexivity. }
    destruct (Z.eqb_spec (sum (Dict.values S)) 0) as [Hz|Hnz].
    + destruct (IH w D (Stocked_tail _ _ _ _ _ HSt) HD) as (w' & D2 & Hrun & HD2 & Hcount).
      exists w', D2. split; [exact Hrun|]. split; [exact HD2|].
      intros c Hc. rewrite (Hcount c Hc). simpl.
      rewrite Hin, (nonneg_b_sum_zero S c HnnS Hz). f_equal; lia.
    + destruct (Stocked_served t demand r rs w T R S D HSt HT HR HS HD) as [HSt' Hsup].
      destruct (IH _ _ HSt' (served_demand w t demand r T R S D Hlt
                               (lookup_lt_Some _ _ _ HD)))
        as (w' & D2 & Hrun & HD2 & Hcount).
      exists w', D2. split; [exact Hrun|]. split; [exact HD2|].
      intros c Hc. rewrite (Hcount c Hc), Hsup. simpl. rewrite Hin.
      rewrite (filled_count_demand S D c (nonneg_b_nonneg _ HnnS) HnnD Hc).
      assert (0 <= supply w rs c).
      { apply supply_nonneg. intros r' Hr'.
        apply (Stocked_in_stock t demand (r :: rs) w r' c HSt). right. exact Hr'. }
      lia.
Qed.

(** The working demand at the end of the loop, for restaurants that each
    have a stock dictionary of their own. *)
Lemma optimizeOrder_final_demand w t l T D0 rs :
  ready w t l = true ->
  teams w !! t = Some T ->
  dicts w !! TeamObj._demand T = Some D0 ->
  lists w !! l = Some rs ->
  nonneg D0 ->
  (forall r R S, In r rs -> restaurants w !! r = Some R ->
     dicts w !! RestaurantObj._foodInStock R = Some S -> nonneg_b S = true) ->
  List.NoDup (map (stock_ref w) rs) ->
  exists w' D T' new,
    OrderSystem.optimizeOrder (VTeam t) l false w = (w', verdict (TeamObj._name T) D) /\
    Dict.keys D = Dict.keys D0 /\
    (forall c, In c OrderSystem.FOODTYPE ->
       Dict.count c D = Z.max (Dict.count c D0 - supply w rs c) 0) /\
    (forall c, ~ In c OrderSystem.FOODTYPE -> Dict.get c D = Dict.get c D0) /\
    teams w' !! t = Some T' /\
    TeamObj._orderResult T' = TeamObj._orderResult T ++ new /\
    (forall c, Dict.count c D + total_granted w' c new = Dict.count c D0) /\
    (forall c, 0 <= supply w rs c).
Proof.
  intros Hready HT HD0 Hl Hnn Hstocks Hnd.
  destruct (ready_inv _ _ _ Hready) as (T1 & D1 & rs1 & HT1 & HD1 & Hl1 & Hrs).
  assert (rs1 = rs) by congruence. subst rs1. clear T1 D1 HT1 HD1 Hl1.
  set (demand := length (dicts w)).
  set (sorted := by_rate (rate_of w) rs).
  assert (Hperm : Permutation rs sorted) by apply by_rate_perm.
  destruct (optimizeOrder_run_with
              (fun w1 => exists D, dicts w1 !! demand = Some D /\
                 forall k, ~ In k OrderSystem.FOODTYPE -> Dict.get k D = Dict.get k D0)
              w t l T D0 rs HT HD0 Hl Hrs)
    as (w' & D & _ & Hloop & HA & _ & _ & (D' & HD' & Hkeep) & HD & Hopt).
  { exists D0. split; [apply lookup_at_end|reflexivity]. }
  { intros w1 rest T1 R0 R S D _ _ _ (D' & HD' & Hkeep) _ _ _ _ _ _ HDw Hlt _.
    unfold demand in *.
    assert (D' = D) by congruence. subst D'.
    eexists. split; [apply served_demand; [exact Hlt|eapply lookup_lt_Some; eassumption]|].
    intros k Hk. destruct (filled_get_out S D [] OrderSystem.FOODTYPE k Hk) as [-> _].
    apply Hkeep, Hk. }
  assert (D' = D) by (unfold demand in HD'; congruence). subst D'.
  assert (Hin_stock : forall r c, In r rs ->
            in_stock (started w l rs D0) r c = in_stock w r c).
  { intros r c Hr. unfold in_stock, stock_ref, granted, started. simpl.
    rewrite List.Forall_forall in Hrs. specialize (Hrs r Hr).
    destruct (has_stock_inv _ _ Hrs) as (R & S & HR & HS). rewrite HR.
    rewrite (lookup_app_l_Some _ _ _ _ HS), HS. reflexivity. }
  assert (HSt : Stocked t demand sorted (started w l rs D0)).
  { split; [exists T; exact HT|]. split.
    { exists D0. split; [apply lookup_at_end|exact Hnn]. }
    split.
    - intros r Hr. assert (Hr' : In r rs) by (eapply Permutation_in; [symmetry|]; eassumption).
      rewrite List.Forall_forall in Hrs. specialize (Hrs r Hr').
      destruct (has_stock_inv _ _ Hrs) as (R & S & HR & HS).
      exists R, S. unfold started. simpl. split; [exact HR|].
      split; [eapply lookup_lt_Some; eassumption|].
      split; [apply lookup_app_l_Some, HS|]. eapply Hstocks; eassumption.
    - eapply Permutation_NoDup; [apply Permutation_map, Hperm|]. exact Hnd. }
  destruct (serve_loop_supply t demand sorted (started w l rs D0) D0 HSt
              ltac:(apply lookup_at_end)) as (w2 & D2 & Hrun2 & HD2 & Hcount).
  fold demand sorted in Hloop. rewrite Hloop in Hrun2. injection Hrun2 as <-.
  assert (D2 = D) by congruence. subst D2.
  assert (Hsupply : forall c, supply (started w l rs D0) sorted c = supply w rs c).
  { intros c. rewrite (supply_perm w rs sorted c Hperm). apply supply_ext.
    intros r Hr. apply Hin_stock. eapply Permutation_in; [symmetry|]; eassumption. }
  destruct HA as (T' & new & D' & HT' & _ & _ & Hres & _ & HD'' & Hkeys & _ & Hsum).
  fold demand in HD''. assert (D' = D) by congruence. subst D'.
  exists w', D, T', new.
  split; [exact Hopt|]. split; [exact Hkeys|].
  split; [intros c Hc; rewrite (Hcount c Hc), Hsupply; reflexivity|].
  split; [exact Hkeep|]. split; [exact HT'|]. split; [exact Hres|]. split; [exact Hsum|].
  intros c. rewrite <- Hsupply. apply supply_nonneg. intros r Hr.
  eapply Stocked_in_stock; eassumption.
Qed.

(** X2.  When a run succeeds.  For a team with demand counts that are not
    negative and restaurants that each have their own stock dictionary,
    without negative counts, [optimizeOrder] without the flag returns if
    and only if the restaurants of the list together have, of each of the
    five food types, at least what the demand asks, and the demand asks
    nothing under any other key; otherwise it raises.  The order in which
    the restaurants are tried does not matter for that. *)
Theorem optimizeOrder_returns_iff_supplied w t l T D0 rs :
  ready w t l = true ->
  teams w !! t = Some T ->
  dicts w !! TeamObj._demand T = Some D0 ->
  lists w !! l = Some rs ->
  nonneg D0 ->
  (forall r R S, In r rs -> restaurants w !! r = Some R ->
     dicts w !! RestaurantObj._foodInStock R = Some S -> nonneg_b S = true) ->
  List.NoDup (map (stock_ref w) rs) ->
  (snd (OrderSystem.optimizeOrder (VTeam t) l false w) = inr tt <->
   forall c d, Dict.get c D0 = Some d ->
     (In c OrderSystem.FOODTYPE -> d <= supply w rs c) /\
     (~ In c OrderSystem.FOODTYPE -> d <= 0)).
Proof.
  intros Hready HT HD0 Hl Hnn Hstocks Hnd.
  destruct (optimizeOrder_final_demand w t l T D0 rs Hready HT HD0 Hl Hnn Hstocks Hnd)
    as (w' & D & T' & new & Hopt & Hkeys & Hfood & Hother & _ & _ & _ & Hsup).
  rewrite Hopt. simpl. unfold verdict.
  assert (Hiff : unmet D (Dict.keys D) = None <->
            forall c d, Dict.get c D0 = Some d ->
              (In c OrderSystem.FOODTYPE -> d <= supply w rs c) /\
              (~ In c OrderSystem.FOODTYPE -> d <= 0)).
  { rewrite unmet_None, Hkeys. split.
    - intros H c d Hc.
      assert (Hin : In c (Dict.keys D0)).
      { apply get_In_keys. rewrite contains_get, Hc. reflexivity. }
      specialize (H c Hin). split; intros Hfc.
      + rewrite (Hfood c Hfc) in H. unfold Dict.count in H. rewrite Hc in H. lia.
      + unfold Dict.count in H. rewrite (Hother c Hfc), Hc in H. exact H.
    - intros H c Hin. apply get_In_keys in Hin. rewrite contains_get in Hin.
      destruct (Dict.get c D0) as [d|] eqn:Hc; [|discriminate].
      destruct (H c d Hc) as [H1 H2].
      destruct (in_dec String.string_dec c OrderSystem.FOODTYPE) as [Hfc|Hfc].
      + rewrite (Hfood c Hfc). unfold Dict.count. rewrite Hc. specialize (H1 Hfc). lia.
      + unfold Dict.count. rewrite (Hother c Hfc), Hc. apply H2, Hfc. }
  rewrite <- Hiff. destruct (unmet D (Dict.keys D)); split; intros H; try reflexivity;
    discriminate.
Qed.

Lemma optimizeOrder_returns_iff_supplied_witness :
  snd (OrderSystem.optimizeOrder (VTeam 0%nat) 0%nat false single_team_world) = inr tt <->
  forall c d, Dict.get c OrderSystemTests.team1_demand = Some d ->
    (In c OrderSystem.FOODTYPE -> d <= supply single_team_world [0%nat; 1%nat] c) /\
    (~ In c OrderSystem.FOODTYPE -> d <= 0).
Proof.
  apply (optimizeOrder_returns_iff_supplied single_team_world 0%nat 0%nat
           (TeamObj.mk "cisco1" 0%nat []) OrderSystemTests.team1_demand [0%nat; 1%nat]).
  - vm_compute. reflexivity.
  - vm_compute. reflexivity.
  - vm_compute. reflexivity.
  - vm_compute. reflexivity.
  - apply nonneg_b_nonneg. vm_compute. reflexivity.
  - intros r R S [<-|[<-|[]]] HR HS; vm_compute in HR; injection HR as <-;
      vm_compute in HS; injection HS as <-; vm_compute; reflexivity.
  - vm_compute. repeat constructor; simpl; intuition discriminate.
Defined.

(** X3.  What a run grants.  Under the same conditions, whether the run
    returns or raises, the orders recorded for the team during the run
    grant of each of the five food types the smaller of what the demand
    asks and what the restaurants of the list together have: a run that
    fails has still taken all there was. *)
Theorem optimizeOrder_grants_all_there_is w t l T D0 rs c :
  ready w t l = true ->
  teams w !! t = Some T ->
  dicts w !! TeamObj._demand T = Some D0 ->
  lists w !! l = Some rs ->
  nonneg D0 ->
  (forall r R S, In r rs -> restaurants w !! r = Some R ->
     dicts w !! RestaurantObj._foodInStock R = Some S -> nonneg_b S = true) ->
  List.NoDup (map (stock_ref w) rs) ->
  In c OrderSystem.FOODTYPE ->
  exists T',
    teams (fst (OrderSystem.optimizeOrder (VTeam t) l false w)) !! t = Some T' /\
    total_granted (fst (OrderSystem.optimizeOrder (VTeam t) l false w)) c
      (drop (length (TeamObj._orderResult T)) (TeamObj._orderResult T'))
    = Z.min (Dict.count c D0) (supply w rs c).
Proof.
  intros Hready HT HD0 Hl Hnn Hstocks Hnd Hc.
  destruct (optimizeOrder_final_demand w t l T D0 rs Hready HT HD0 Hl Hnn Hstocks Hnd)
    as (w' & D & T' & new & Hopt & _ & Hfood & _ & HT' & Hres & Hsum & Hsup).
  rewrite Hopt. simpl. exists T'. split; [exact HT'|].
  rewrite Hres, drop_app_length.
  specialize (Hsum c). rewrite (Hfood c Hc) in Hsum.
  pose proof (count_nonneg c D0 Hnn). specialize (Hsup c). lia.
Qed.

Lemma optimizeOrder_grants_all_there_is_witness :
  exists T',
    teams (fst (OrderSystem.optimizeOrder (VTeam 0%nat) 0%nat false single_team_world))
      !! 0%nat = Some T' /\
    total_granted (fst (OrderSystem.optimizeOrder (VTeam 0%nat) 0%nat false single_team_world))
      VEGETARIAN
      (drop (length (TeamObj._orderResult (TeamObj.mk "cisco1" 0%nat [])))
         (TeamObj._orderResult T'))
    = Z.min (Dict.count VEGETARIAN OrderSystemTests.team1_demand)
        (supply single_team_world [0%nat; 1%nat] VEGETARIAN).
Proof.
  apply (optimizeOrder_grants_all_there_is single_team_world 0%nat 0%nat
           (TeamObj.mk "cisco1" 0%nat []) OrderSystemTests.team1_demand [0%nat; 1%nat]
           VEGETARIAN).
  - vm_compute. reflexivity.
  - vm_compute. reflexivity.
  - vm_compute. reflexivity.
  - vm_compute. reflexivity.
  - apply nonneg_b_nonneg. vm_compute. reflexivity.
  - intros r R S [<-|[<-|[]]] HR HS; vm_compute in HR; injection HR as <-;
      vm_compute in HS; injection HS as <-; vm_compute; reflexivity.
  - vm_compute. repeat constructor; simpl; intuition discriminate.
  - right. left. reflexivity.
Defined.

(** ** The restaurants in their turn *)

Lemma nonneg_b_set k v S :
  nonneg_b S = true -> 0 <= v -> nonneg_b (Dict.set k v S) = true.
Proof.
  unfold nonneg_b. induction S as [|[k' v'] S IH]; simpl; intros H Hv.
  - rewrite andb_true_r. apply Z.leb_le, Hv.
  - apply andb_prop in H. destruct H as [H1 H2].
    destruct (String.eqb k k'); simpl.
    + rewrite H2, andb_true_r. apply Z.leb_le, Hv.
    + rewrite H1. simpl. apply IH; assumption.
Qed.

Lemma nonneg_b_taken O meals : forall S,
  List.NoDup meals ->
  (forall meal, In meal meals -> Dict.count meal O <= Dict.count meal S) ->
  nonneg_b S = true -> nonneg_b (taken S O meals) = true.
Proof.
  induction meals as [|meal meals IH]; intros S Hnd Hle HS; simpl; [exact HS|].
  inversion Hnd as [|? ? Hout Hnd']; subst.
  apply IH; [exact Hnd'| |].
  - intros m Hm. rewrite count_set. destruct (String.eqb meal m) eqn:E.
    + apply String.eqb_eq in E. subst. contradiction.
    + apply Hle. right. exact Hm.
  - apply nonneg_b_set; [exact HS|]. specialize (Hle meal (or_introl eq_refl)). lia.
Qed.

(** what the order of one turn holds of each food type *)
Lemma filled_count_order S D c :
  nonneg S -> nonneg D ->
  Dict.count c (snd (filled S D [] OrderSystem.FOODTYPE))
    = if in_dec String.string_dec c OrderSystem.FOODTYPE
      then Z.min (Dict.count c D) (Dict.count c S) else 0.
Proof.
  intros HS HD. destruct (in_dec String.string_dec c OrderSystem.FOODTYPE) as [Hc|Hc].
  - destruct (filled_get_in S D [] OrderSystem.FOODTYPE c FOODTYPE_NoDup Hc) as [_ H].
    unfold Dict.count. rewrite H.
    destruct (Dict.get c D) as [d|] eqn:GD; destruct (Dict.get c S) as [s|] eqn:GS;
      try (pose proof (HD _ _ GD)); try (pose proof (HS _ _ GS)); simpl; lia.
  - destruct (filled_get_out S D [] OrderSystem.FOODTYPE c Hc) as [_ H].
    unfold Dict.count. rewrite H. reflexivity.
Qed.

(** what the second loop of [addOrder] leaves of each count, for an
    order within the stock *)
Lemma taken_count S O c :
  List.NoDup (Dict.keys O) -> within S O ->
  Dict.count c (taken S O (Dict.keys O)) = Dict.count c S - Dict.count c O.
Proof.
  intros Hnd Hin. destruct (Dict.get c S) as [s|] eqn:GS.
  - unfold Dict.count at 1 2. rewrite (taken_keys c S O s Hnd GS), GS. reflexivity.
  - assert (GO : Dict.get c O = None).
    { destruct (Dict.get c O) as [v|] eqn:GO; [|reflexivity].
      destruct (Hin c v GO) as (s & Hs & _). congruence. }
    unfold Dict.count. rewrite taken_get_out, GS, GO; [reflexivity|].
    intros Hk. apply get_In_keys in Hk. rewrite contains_get, GO in Hk. discriminate.
Qed.

(** One turn of the loop, for the head of a list of restaurants with
    stocks of their own: whether the restaurant is skipped or served, the
    working demand and its stock go down by the smaller of the two, and
    the rest of the list is as it was. *)
Lemma serve_turn t demand r rs w D :
  Stocked t demand (r :: rs) w ->
  dicts w !! demand = Some D ->
  exists w1 D1 S1,
    for_each (r :: rs) (OrderSystem.serve t demand) w
      = for_each rs (OrderSystem.serve t demand) w1 /\
    Stocked t demand rs w1 /\
    dicts w1 !! demand = Some D1 /\
    (length (dicts w) <= length (dicts w1))%nat /\
    (forall x, stock_ref w1 x = stock_ref w x) /\
    (forall d, d <> demand -> d <> stock_ref w r -> (d < length (dicts w))%nat ->
       dicts w1 !! d = dicts w !! d) /\
    dicts w1 !! stock_ref w r = Some S1 /\
    nonneg_b S1 = true /\
    (forall c, In c OrderSystem.FOODTYPE ->
       Dict.count c D1 = Z.max (Dict.count c D - in_stock w r c) 0 /\
       Dict.count c S1 = in_stock w r c - Z.min (Dict.count c D) (in_stock w r c)) /\
    (forall c, ~ In c OrderSystem.FOODTYPE -> Dict.count c S1 = in_stock w r c).
Proof.
  intros HSt HD.
  pose proof HSt as (Ht & (D' & HD' & HnnD) & Hrs & Hnd).
  assert (D' = D) by congruence. subst D'.
  destruct Ht as [T HT].
  destruct (Hrs r (or_introl eq_refl)) as (R & S & HR & Hlt & HS & HnnS).
  assert (Hsr : stock_ref w r = RestaurantObj._foodInStock R)
    by (unfold stock_ref; rewrite HR; reflexivity).
  assert (Hin : forall c, in_stock w r c = Dict.count c S).
  { intros c. unfold in_stock, granted. rewrite Hsr, HS. reflexivity. }
  pose proof (lookup_lt_Some _ _ _ HD) as Hdl.
  simpl for_each. unfold bind at 1.
  rewrite (serve_spec w t demand r T R S D HT HR HS HD ltac:(lia)).
  destruct (Z.eqb_spec (sum (Dict.values S)) 0) as [Hz|Hnz].
  - exists w, D, S.
    split; [reflexivity|]. split; [eapply Stocked_tail; eassumption|]. split; [exact HD|].
    split; [lia|]. split; [reflexivity|]. split; [reflexivity|].
    rewrite Hsr. split; [exact HS|]. split; [exact HnnS|].
    split.
    + intros c Hc. rewrite Hin, (nonneg_b_sum_zero S c HnnS Hz).
      pose proof (count_nonneg c D HnnD). lia.
    + intros c _. rewrite Hin. reflexivity.
  - destruct (Stocked_served t demand r rs w T R S D HSt HT HR HS HD) as [HSt' _].
    set (DO := filled S D [] OrderSystem.FOODTYPE).
    assert (HndO : List.NoDup (Dict.keys (snd DO))) by (apply filled_NoDup; constructor).
    assert (HwO : within S (snd DO)) by apply filled_within, within_nil.
    assert (HcS : forall c, Dict.count c (taken S (snd DO) (Dict.keys (snd DO)))
                            = Dict.count c S - Dict.count c (snd DO))
      by (intros c; apply taken_count; assumption).
    exists (served w t demand r T R S D), (fst DO), (taken S (snd DO) (Dict.keys (snd DO))).
    split; [reflexivity|]. split; [exact HSt'|].
    split; [apply served_demand; assumption|].
    split; [rewrite served_length by assumption; lia|].
    split.
    { intros x. unfold stock_ref, served. simpl. destruct (Nat.eq_dec r x) as [<-|Hne].
      - rewrite list_lookup_insert_eq by (eapply lookup_lt_Some; eassumption).
        rewrite HR. reflexivity.
      - rewrite list_lookup_insert_ne by exact Hne. reflexivity. }
    split.
    { intros d H1 H2 H3. apply served_other; [rewrite <- Hsr; exact H2|exact H1|exact H3]. }
    rewrite Hsr. split; [apply served_stock; assumption|].
    split.
    { apply nonneg_b_taken; [exact HndO| |exact HnnS].
      intros meal Hm. apply get_In_keys in Hm. rewrite contains_get in Hm.
      unfold Dict.count. destruct (Dict.get meal (snd DO)) as [v|] eqn:GO; [|discriminate].
      destruct (HwO meal v GO) as (s & -> & Hle). exact Hle. }
    split.
    + intros c Hc. subst DO.
      rewrite (filled_count_demand S D c (nonneg_b_nonneg _ HnnS) HnnD Hc).
      rewrite HcS, (filled_count_order S D c (nonneg_b_nonneg _ HnnS) HnnD), Hin.
      destruct (in_dec String.string_dec c OrderSystem.FOODTYPE); [|contradiction].
      split; reflexivity.
    + intros c Hc. subst DO.
      rewrite HcS, (filled_count_order S D c (nonneg_b_nonneg _ HnnS) HnnD), Hin.
      destruct (in_dec String.string_dec c OrderSystem.FOODTYPE); [contradiction|]. lia.
Qed.

Lemma supply_app w a b c : supply w (a ++ b) c = supply w a c + supply w b c.
Proof.
  induction a as [|x a IH]; simpl; [reflexivity|]. rewrite IH. lia.
Qed.

(** The loop over restaurants with stocks of their own, in closed form:
    a restaurant gives of each food type what those before it in the list
    have left of the demand, as far as its stock goes. *)
Lemma serve_loop_greedy t demand rs : forall w D,
  Stocked t demand rs w ->
  dicts w !! demand = Some D ->
  exists w',
    for_each rs (OrderSystem.serve t demand) w = (w', inr tt) /\
    (length (dicts w) <= length (dicts w'))%nat /\
    (forall x, stock_ref w' x = stock_ref w x) /\
    (forall d, d <> demand -> ~ In d (map (stock_ref w) rs) -> (d < length (dicts w))%nat ->
       dicts w' !! d = dicts w !! d) /\
    (forall r, In r rs ->
       exists S', dicts w' !! stock_ref w r = Some S' /\ nonneg_b S' = true) /\
    (forall r c, In r rs -> ~ In c OrderSystem.FOODTYPE -> in_stock w' r c = in_stock w r c) /\
    (forall pre r post c, rs = pre ++ r :: post -> In c OrderSystem.FOODTYPE ->
       in_stock w' r c =
         in_stock w r c - Z.min (Z.max (Dict.count c D - supply w pre c) 0) (in_stock w r c)) /\
    (forall c, In c OrderSystem.FOODTYPE ->
       supply w' rs c = Z.max (supply w rs c - Dict.count c D) 0).
Proof.
  induction rs as [|r rs IH]; intros w D HSt HD.
  - exists w. split; [reflexivity|]. split; [lia|]. split; [reflexivity|].
    split; [reflexivity|]. split; [intros r []|]. split; [intros r c []|].
    split; [intros pre r post c H; destruct pre; discriminate|].
    intros c _. simpl.
    destruct HSt as (_ & (D' & HD' & HnnD) & _). assert (D' = D) by congruence. subst D'.
    pose proof (count_nonneg c D HnnD). lia.
  - pose proof HSt as (_ & (D' & HD' & HnnD) & Hrs & Hnd).
    assert (D' = D) by congruence. subst D'.
    destruct (Hrs r (or_introl eq_refl)) as (R & S & HR & Hlt & HS & HnnS).
    assert (Hsr : stock_ref w r = RestaurantObj._foodInStock R)
      by (unfold stock_ref; rewrite HR; reflexivity).
    destruct (serve_turn t demand r rs w D HSt HD)
      as (w1 & D1 & S1 & Hstep & HSt1 & HD1 & Hlen1 & Href1 & Hframe1 & HS1 & HnnS1
            & Hfood1 & Hother1).
    destruct (IH w1 D1 HSt1 HD1)
      as (w' & Hrun & Hlen & Href & Hframe & Hnn & Hother & Hform & Hsup).
    simpl in Hnd. inversion Hnd as [|? ? Hout Hnd']; subst.
    assert (Hmap : map (stock_ref w1) rs = map (stock_ref w) rs)
      by (apply map_ext; exact Href1).
    assert (Hhead : dicts w' !! stock_ref w r = Some S1).
    { rewrite <- HS1. apply Hframe.
      - rewrite Hsr. lia.
      - rewrite Hmap. exact Hout.
      - eapply lookup_lt_Some; eassumption. }
    assert (Hhead_in : forall c, in_stock w' r c = Dict.count c S1).
    { intros c. unfold in_stock, granted. rewrite Href, Href1, Hhead. reflexivity. }
    assert (Htail : forall r' c, In r' rs -> in_stock w1 r' c = in_stock w r' c).
    { intros r' c Hr'. unfold in_stock, granted. rewrite Href1.
      destruct (Hrs r' (or_intror Hr')) as (R' & S' & HR' & Hlt' & HS' & _).
      assert (Hsr' : stock_ref w r' = RestaurantObj._foodInStock R')
        by (unfold stock_ref; rewrite HR'; reflexivity).
      rewrite Hframe1; [reflexivity| | |].
      - rewrite Hsr'. lia.
      - intros Heq. apply Hout. rewrite <- Heq. apply in_map, Hr'.
      - rewrite Hsr'. eapply lookup_lt_Some; eassumption. }
    assert (Hsup1 : forall l c, (forall x, In x l -> In x rs) ->
              supply w1 l c = supply w l c).
    { intros l c Hl. apply supply_ext. intros x Hx. apply Htail, Hl, Hx. }
    assert (Hpos : forall l c, (forall x, In x l -> In x rs) -> 0 <= supply w l c).
    { intros l c Hl. apply supply_nonneg. intros x Hx.
      apply (Stocked_in_stock t demand (r :: rs) w x c HSt). right. apply Hl, Hx. }
    assert (Hpos_r : forall c, 0 <= in_stock w r c)
      by (intros c; apply (Stocked_in_stock t demand (r :: rs) w r c HSt); left; reflexivity).
    exists w'. split; [rewrite Hstep; exact Hrun|]. split; [lia|].
    split; [intros x; rewrite Href; apply Href1|].
    split.
    { intros d H1 H2 H3. simpl in H2.
      rewrite Hframe; [apply Hframe1; [exact H1| |exact H3]|exact H1| |lia].
      - intros ->. apply H2. left. reflexivity.
      - rewrite Hmap. intros H. apply H2. right. exact H. }
    split.
    { intros r' [<-|Hr']; [eauto|].
      destruct (Hnn r' Hr') as (S' & HS' & HnnS'). rewrite Href1 in HS'. eauto. }
    split.
    { intros r' c [<-|Hr'] Hc.
      - rewrite Hhead_in. apply Hother1, Hc.
      - rewrite (Hother r' c Hr' Hc). apply Htail, Hr'. }
    split.
    { intros pre r' post c Heq Hc. destruct pre as [|p pre]; simpl in Heq.
      - injection Heq as <- <-. rewrite Hhead_in.
        destruct (Hfood1 c Hc) as [_ ->]. simpl.
        pose proof (count_nonneg c D HnnD). f_equal. f_equal. lia.
      - injection Heq as <- ->.
        assert (Hr' : In r' (pre ++ r' :: post)) by (apply in_or_app; right; left; reflexivity).
        assert (Hpre : forall x, In x pre -> In x (pre ++ r' :: post))
          by (intros x Hx; apply in_or_app; left; exact Hx).
        rewrite (Hform pre r' post c eq_refl Hc).
        rewrite (Htail r' c Hr'), (Hsup1 pre c Hpre).
        destruct (Hfood1 c Hc) as [-> _]. simpl.
        pose proof (Hpos pre c Hpre). specialize (Hpos_r c).
        f_equal. f_equal. lia. }
    intros c Hc. simpl. rewrite Hhead_in, (Hsup c Hc), (Hsup1 rs c (fun x H => H)).
    destruct (Hfood1 c Hc) as [-> ->].
    pose proof (Hpos rs c (fun x H => H)). specialize (Hpos_r c).
    pose proof (count_nonneg c D HnnD). lia.
Qed.

(** A run of [optimizeOrder] over restaurants with stocks of their own,
    in terms of the stocks before and after the call. *)
Lemma optimizeOrder_greedy w t l T D0 rs :
  ready w t l = true ->
  teams w !! t = Some T ->
  dicts w !! TeamObj._demand T = Some D0 ->
  lists w !! l = Some rs ->
  nonneg D0 ->
  (forall r R S, In r rs -> restaurants w !! r = Some R ->
     dicts w !! RestaurantObj._foodInStock R = Some S -> nonneg_b S = true) ->
  List.NoDup (map (stock_ref w) rs) ->
  exists w' D,
    OrderSystem.optimizeOrder (VTeam t) l false w = (w', verdict (TeamObj._name T) D) /\
    dicts w' !! length (dicts w) = Some D /\
    Accounted t (length (dicts w)) T D0 w' /\
    Settled (started w l rs D0) w' /\
    Framed t rs w w' /\
    (forall x, stock_ref w' x = stock_ref w x) /\
    (forall r c, In r rs -> 0 <= in_stock w r c) /\
    (forall r, In r rs ->
       exists S', dicts w' !! stock_ref w r = Some S' /\ nonneg_b S' = true) /\
    (forall r c, In r rs -> ~ In c OrderSystem.FOODTYPE -> in_stock w' r c = in_stock w r c) /\
    (forall pre r post c, by_rate (rate_of w) rs = pre ++ r :: post ->
       In c OrderSystem.FOODTYPE ->
       in_stock w' r c =
         in_stock w r c - Z.min (Z.max (Dict.count c D0 - supply w pre c) 0) (in_stock w r c)) /\
    (forall c, In c OrderSystem.FOODTYPE ->
       supply w' rs c = Z.max (supply w rs c - Dict.count c D0) 0).
Proof.
  intros Hready HT HD0 Hl Hnn Hstocks Hnd.
  destruct (ready_inv _ _ _ Hready) as (T1 & D1 & rs1 & HT1 & HD1 & Hl1 & Hrs).
  assert (rs1 = rs) by congruence. subst rs1. clear T1 D1 HT1 HD1 Hl1.
  set (sorted := by_rate (rate_of w) rs).
  assert (Hperm : Permutation rs sorted) by apply by_rate_perm.
  assert (Hsub : forall x, In x sorted -> In x rs)
    by (intros x Hx; eapply Permutation_in; [symmetry|]; eassumption).
  destruct (optimizeOrder_run_with (fun _ => True) w t l T D0 rs HT HD0 Hl Hrs I)
    as (w' & D & _ & Hloop & HA & HS & HF & _ & HD & Hopt); [intros; exact I|].
  assert (Hin_stock : forall r c, In r rs ->
            in_stock (started w l rs D0) r c = in_stock w r c).
  { intros r c Hr. unfold in_stock, stock_ref, granted, started. simpl.
    rewrite List.Forall_forall in Hrs. specialize (Hrs r Hr).
    destruct (has_stock_inv _ _ Hrs) as (R & S & HR & HS'). rewrite HR.
    rewrite (lookup_app_l_Some _ _ _ _ HS'), HS'. reflexivity. }
  assert (HSt : Stocked t (length (dicts w)) sorted (started w l rs D0)).
  { split; [exists T; exact HT|]. split.
    { exists D0. split; [apply lookup_at_end|exact Hnn]. }
    split.
    - intros r Hr. apply Hsub in Hr.
      rewrite List.Forall_forall in Hrs. specialize (Hrs r Hr).
      destruct (has_stock_inv _ _ Hrs) as (R & S & HR & HS').
      exists R, S. unfold started. simpl. split; [exact HR|].
      split; [eapply lookup_lt_Some; eassumption|].
      split; [apply lookup_app_l_Some, HS'|]. eapply Hstocks; eassumption.
    - eapply Permutation_NoDup; [apply Permutation_map, Hperm|]. exact Hnd. }
  destruct (serve_loop_greedy t (length (dicts w)) sorted (started w l rs D0) D0 HSt
              ltac:(apply lookup_at_end))
    as (w2 & Hrun2 & _ & Href & _ & Hnn2 & Hother & Hform & Hsup).
  fold sorted in Hloop. rewrite Hloop in Hrun2. injection Hrun2 as <-.
  assert (Hsupply : forall l' c, (forall x, In x l' -> In x rs) ->
            supply (started w l rs D0) l' c = supply w l' c).
  { intros l' c Hl'. apply supply_ext. intros r Hr. apply Hin_stock, Hl', Hr. }
  exists w', D.
  split; [exact Hopt|]. split; [exact HD|]. split; [exact HA|]. split; [exact HS|].
  split; [exact HF|]. split; [exact Href|].
  split.
  { intros r c Hr. rewrite <- (Hin_stock r c Hr).
    eapply Stocked_in_stock; [exact HSt|]. eapply Permutation_in; eassumption. }
  split.
  { intros r Hr. apply Hnn2. eapply Permutation_in; eassumption. }
  split.
  { intros r c Hr Hc. rewrite <- (Hin_stock r c Hr). apply Hother; [|exact Hc].
    eapply Permutation_in; eassumption. }
  split.
  { intros pre r post c Heq Hc. rewrite (Hform pre r post c Heq Hc).
    assert (Hr : In r rs).
    { apply Hsub. rewrite Heq. apply in_or_app. right. left. reflexivity. }
    rewrite (Hin_stock r c Hr), Hsupply; [reflexivity|].
    intros x Hx. apply Hsub. rewrite Heq. apply in_or_app. left. exact Hx. }
  intros c Hc. rewrite (supply_perm w' rs sorted c Hperm), (Hsup c Hc).
  rewrite (Hsupply sorted c Hsub), <- (supply_perm w rs sorted c Hperm). reflexivity.
Qed.

Lemma StronglySorted_after {A} (R : A -> A -> Prop) pre x post y :
  StronglySorted R (pre ++ x :: post) -> In y post -> R x y.
Proof.
  induction pre as [|p pre IH]; simpl; intros H Hy.
  - apply StronglySorted_inv in H. destruct H as [_ H].
    rewrite List.Forall_forall in H. apply H, Hy.
  - apply StronglySorted_inv in H. destruct H as [H _]. apply IH; assumption.
Qed.

(** X8.  The greedy order, in closed form.  For a team with demand
    counts that are not negative and restaurants that each have their own
    stock dictionary, without negative counts: after [optimizeOrder]
    without the flag, returned or raised, a restaurant has given of each
    of the five food types what the restaurants before it in the sorted
    list could not give of the demand, as far as its own stock goes. *)
Theorem optimizeOrder_serves_in_sorted_order w t l T D0 rs pre r post c :
  ready w t l = true ->
  teams w !! t = Some T ->
  dicts w !! TeamObj._demand T = Some D0 ->
  lists w !! l = Some rs ->
  nonneg D0 ->
  (forall r R S, In r rs -> restaurants w !! r = Some R ->
     dicts w !! RestaurantObj._foodInStock R = Some S -> nonneg_b S = true) ->
  List.NoDup (map (stock_ref w) rs) ->
  by_rate (rate_of w) rs = pre ++ r :: post ->
  In c OrderSystem.FOODTYPE ->
  lists (fst (OrderSystem.optimizeOrder (VTeam t) l false w)) !! l = Some (pre ++ r :: post) /\
  in_stock (fst (OrderSystem.optimizeOrder (VTeam t) l false w)) r c =
    in_stock w r c - Z.min (Z.max (Dict.count c D0 - supply w pre c) 0) (in_stock w r c).
Proof.
  intros Hready HT HD0 Hl Hnn Hstocks Hnd Heq Hc.
  destruct (optimizeOrder_greedy w t l T D0 rs Hready HT HD0 Hl Hnn Hstocks Hnd)
    as (w' & D & Hopt & _ & _ & [Hlists _] & _ & _ & _ & _ & _ & Hform & _).
  rewrite Hopt. simpl. split; [|apply (Hform pre r post c Heq Hc)].
  rewrite Hlists, <- Heq. unfold started. simpl.
  apply list_lookup_insert_eq. eapply lookup_lt_Some; eassumption.
Qed.

Lemma optimizeOrder_serves_in_sorted_order_witness :
  lists (fst (OrderSystem.optimizeOrder (VTeam 0%nat) 0%nat false plenty_world)) !! 0%nat
    = Some ([] ++ 1%nat :: [0%nat]) /\
  in_stock (fst (OrderSystem.optimizeOrder (VTeam 0%nat) 0%nat false plenty_world)) 1%nat NORMAL =
    in_stock plenty_world 1%nat NORMAL
    - Z.min (Z.max (Dict.count NORMAL [(NORMAL, 2)] - supply plenty_world [] NORMAL) 0)
        (in_stock plenty_world 1%nat NORMAL).
Proof.
  apply (optimizeOrder_serves_in_sorted_order plenty_world 0%nat 0%nat
           (TeamObj.mk "t" 0%nat []) [(NORMAL, 2)] [0%nat; 1%nat] [] 1%nat [0%nat] NORMAL).
  - vm_compute. reflexivity.
  - vm_compute. reflexivity.
  - vm_compute. reflexivity.
  - vm_compute. reflexivity.
  - apply nonneg_b_nonneg. vm_compute. reflexivity.
  - intros r R S [<-|[<-|[]]] HR HS; vm_compute in HR; injection HR as <-;
      vm_compute in HS; injection HS as <-; vm_compute; reflexivity.
  - vm_compute. repeat constructor; simpl; intuition discriminate.
  - vm_compute. reflexivity.
  - left. reflexivity.
Defined.

(** X9.  The better restaurant first.  Under the same conditions, as
    long as a restaurant of the list still has some of a food type in
    stock after the call, no restaurant of the list with a lower rate has
    given any of that food type. *)
Theorem optimizeOrder_prefers_higher_rate w t l T D0 rs r1 r2 c :
  ready w t l = true ->
  teams w !! t = Some T ->
  dicts w !! TeamObj._demand T = Some D0 ->
  lists w !! l = Some rs ->
  nonneg D0 ->
  (forall r R S, In r rs -> restaurants w !! r = Some R ->
     dicts w !! RestaurantObj._foodInStock R = Some S -> nonneg_b S = true) ->
  List.NoDup (map (stock_ref w) rs) ->
  In r1 rs -> In r2 rs ->
  rate_of w r2 < rate_of w r1 ->
  0 < in_stock (fst (OrderSystem.optimizeOrder (VTeam t) l false w)) r1 c ->
  in_stock (fst (OrderSystem.optimizeOrder (VTeam t) l false w)) r2 c = in_stock w r2 c.
Proof.
  intros Hready HT HD0 Hl Hnn Hstocks Hnd Hr1 Hr2 Hrate Hleft.
  destruct (optimizeOrder_greedy w t l T D0 rs Hready HT HD0 Hl Hnn Hstocks Hnd)
    as (w' & D & Hopt & _ & _ & _ & _ & _ & Hpos & _ & Hother & Hform & _).
  rewrite Hopt in *. simpl in *.
  destruct (in_dec String.string_dec c OrderSystem.FOODTYPE) as [Hc|Hc];
    [|apply Hother; assumption].
  set (sorted := by_rate (rate_of w) rs) in *.
  assert (Hperm : Permutation rs sorted) by apply by_rate_perm.
  assert (Hsub : forall x, In x sorted -> In x rs)
    by (intros x Hx; eapply Permutation_in; [symmetry|]; eassumption).
  assert (Hsorted : StronglySorted (fun a b => rate_of w b <= rate_of w a) sorted)
    by apply by_rate_sorted.
  destruct (in_split r2 sorted (Permutation_in _ Hperm Hr2)) as (pre & post & Heq).
  assert (Hin1 : In r1 (pre ++ r2 :: post)) by (rewrite <- Heq; eapply Permutation_in; eassumption).
  apply in_app_or in Hin1. destruct Hin1 as [Hpre|[->|Hpost]].
  - destruct (in_split r1 pre Hpre) as (p1 & mid & ->).
    assert (Heq1 : sorted = p1 ++ r1 :: (mid ++ r2 :: post))
      by (rewrite Heq, <- app_assoc; reflexivity).
    rewrite (Hform _ _ _ c Heq1 Hc) in Hleft.
    rewrite (Hform _ _ _ c Heq Hc), supply_app. simpl.
    assert (0 <= supply w mid c).
    { apply supply_nonneg. intros x Hx. apply Hpos, Hsub. rewrite Heq.
      apply in_or_app. left. apply in_or_app. right. right. exact Hx. }
    pose proof (Hpos r2 c Hr2). lia.
  - lia.
  - rewrite Heq in Hsorted.
    pose proof (StronglySorted_after _ pre r2 post r1 Hsorted Hpost) as H. simpl in H. lia.
Qed.

Lemma optimizeOrder_prefers_higher_rate_witness :
  in_stock (fst (OrderSystem.optimizeOrder (VTeam 0%nat) 0%nat false plenty_world)) 0%nat NORMAL
  = in_stock plenty_world 0%nat NORMAL.
Proof.
  apply (optimizeOrder_prefers_higher_rate plenty_world 0%nat 0%nat
           (TeamObj.mk "t" 0%nat []) [(NORMAL, 2)] [0%nat; 1%nat] 1%nat 0%nat NORMAL).
  - vm_compute. reflexivity.
  - vm_compute. reflexivity.
  - vm_compute. reflexivity.
  - vm_compute. reflexivity.
  - apply nonneg_b_nonneg. vm_compute. reflexivity.
  - intros r R S [<-|[<-|[]]] HR HS; vm_compute in HR; injection HR as <-;
      vm_compute in HS; injection HS as <-; vm_compute; reflexivity.
  - vm_compute. repeat constructor; simpl; intuition discriminate.
  - right. left. reflexivity.
  - left. reflexivity.
  - vm_compute. reflexivity.
  - vm_compute. reflexivity.
Defined.

(** ** The whole queue against the supply *)

Lemma verdict_supplied name D D0 (sup : string -> Z) :
  Dict.keys D = Dict.keys D0 ->
  (forall c, In c OrderSystem.FOODTYPE ->
     Dict.count c D = Z.max (Dict.count c D0 - sup c) 0) ->
  (forall c, ~ In c OrderSystem.FOODTYPE -> Dict.get c D = Dict.get c D0) ->
  (forall c, 0 <= sup c) ->
  (verdict name D = inr tt <->
   (forall c, In c OrderSystem.FOODTYPE -> Dict.count c D0 <= sup c) /\
   (forall c, ~ In c OrderSystem.FOODTYPE -> Dict.count c D0 <= 0)).
Proof.
  intros Hkeys Hfood Hother Hsup. unfold verdict.
  assert (Hiff : unmet D (Dict.keys D) = None <->
            (forall c, In c OrderSystem.FOODTYPE -> Dict.count c D0 <= sup c) /\
            (forall c, ~ In c OrderSystem.FOODTYPE -> Dict.count c D0 <= 0)).
  { rewrite unmet_None, Hkeys. split.
    - intros H. split; intros c Hc;
        (destruct (in_dec String.string_dec c (Dict.keys D0)) as [Hin|Hout];
         [specialize (H c Hin)|rewrite (count_absent c D0 Hout)]).
      + rewrite (Hfood c Hc) in H. lia.
      + apply Hsup.
      + unfold Dict.count in *. rewrite (Hother c Hc) in H. exact H.
      + lia.
    - intros [H1 H2] c _.
      destruct (in_dec String.string_dec c OrderSystem.FOODTYPE) as [Hc|Hc].
      + rewrite (Hfood c Hc). specialize (H1 c Hc). lia.
      + unfold Dict.count. rewrite (Hother c Hc). apply H2, Hc. }
  rewrite <- Hiff. destruct (unmet D (Dict.keys D)); split; intros H; try reflexivity;
    discriminate.
Qed.

Lemma ready_intro w t l T D rs :
  teams w !! t = Some T ->
  dicts w !! TeamObj._demand T = Some D ->
  lists w !! l = Some rs ->
  (forall r, In r rs ->
     exists R S, restaurants w !! r = Some R /\
       dicts w !! RestaurantObj._foodInStock R = Some S /\ nonneg_b S = true) ->
  ready w t l = true.
Proof.
  intros HT HD Hl Hrs. unfold ready. rewrite HT, Hl.
  apply andb_true_intro. split.
  - apply Nat.ltb_lt. eapply lookup_lt_Some; eassumption.
  - apply forallb_forall. intros r Hr. destruct (Hrs r Hr) as (R & S & HR & HS & _).
    unfold has_stock. rewrite HR. apply Nat.ltb_lt. eapply lookup_lt_Some; eassumption.
Qed.

Lemma Orderly_in_stock w l rs ts r c : Orderly w l rs ts -> In r rs -> 0 <= in_stock w r c.
Proof.
  intros (_ & Hrs & _) Hr. destruct (Hrs r Hr) as (R & S & HR & HS & Hnn).
  unfold in_stock, stock_ref, granted. rewrite HR, HS.
  apply count_nonneg, nonneg_b_nonneg, Hnn.
Qed.

Lemma Orderly_asked w l rs ts t c : Orderly w l rs ts -> In t ts -> 0 <= asked w t c.
Proof.
  intros (_ & _ & _ & Hts) Ht. destruct (Hts t Ht) as (T & D & HT & HD & Hnn & _).
  unfold asked, demand_ref, granted. rewrite HT, HD. apply count_nonneg, Hnn.
Qed.

Lemma total_asked_nonneg w ts c :
  (forall t, In t ts -> 0 <= asked w t c) -> 0 <= total_asked w ts c.
Proof.
  induction ts as [|t ts IH]; simpl; intros H; [lia|].
  pose proof (H t (or_introl eq_refl)).
  assert (0 <= total_asked w ts c) by (apply IH; intros t' Ht'; apply H; right; exact Ht').
  lia.
Qed.

Lemma total_asked_ext w w' ts c :
  (forall t, In t ts -> asked w' t c = asked w t c) ->
  total_asked w' ts c = total_asked w ts c.
Proof.
  induction ts as [|t ts IH]; simpl; intros H; [reflexivity|].
  rewrite (H t (or_introl eq_refl)), IH; [reflexivity|].
  intros t' Ht'. apply H. right. exact Ht'.
Qed.

(** After the run for the team [t], the store is again as [processOrder]
    needs it for the teams behind, which ask what they asked, and the
    supply is lower by what the run has taken. *)
Lemma Orderly_optimizeOrder w l rs t ts T D0 :
  Orderly w l rs (t :: ts) ->
  teams w !! t = Some T ->
  dicts w !! TeamObj._demand T = Some D0 ->
  exists D,
    snd (OrderSystem.optimizeOrder (VTeam t) l false w) = verdict (TeamObj._name T) D /\
    (verdict (TeamObj._name T) D = inr tt <->
     (forall c, In c OrderSystem.FOODTYPE -> Dict.count c D0 <= supply w rs c) /\
     (forall c, ~ In c OrderSystem.FOODTYPE -> Dict.count c D0 <= 0)) /\
    Orderly (fst (OrderSystem.optimizeOrder (VTeam t) l false w)) l
      (by_rate (rate_of w) rs) ts /\
    (forall t' c, In t' ts ->
       asked (fst (OrderSystem.optimizeOrder (VTeam t) l false w)) t' c = asked w t' c) /\
    (forall c, In c OrderSystem.FOODTYPE ->
       supply (fst (OrderSystem.optimizeOrder (VTeam t) l false w)) (by_rate (rate_of w) rs) c
       = Z.max (supply w rs c - Dict.count c D0) 0).
Proof.
  intros HO HT HD0.
  pose proof HO as (Hl & Hrs & Hnd & Hts).
  destruct (Hts t (or_introl eq_refl)) as (T1 & D1 & HT1 & HD1 & Hnn & Hapart).
  assert (T1 = T) by congruence. subst T1. assert (D1 = D0) by congruence. subst D1.
  assert (Hready : ready w t l = true) by (eapply ready_intro; eassumption).
  assert (Hstocks : forall r R S, In r rs -> restaurants w !! r = Some R ->
            dicts w !! RestaurantObj._foodInStock R = Some S -> nonneg_b S = true).
  { intros r R S Hr HR HS. destruct (Hrs r Hr) as (R' & S' & HR' & HS' & Hnn').
    congruence. }
  destruct (optimizeOrder_greedy w t l T D0 rs Hready HT HD0 Hl Hnn Hstocks Hnd)
    as (w' & D & Hopt & HD & HA & [Hlists Hset] & HF & Href & Hpos & Hnn' & _ & _ & Hsup).
  destruct (optimizeOrder_final_demand w t l T D0 rs Hready HT HD0 Hl Hnn Hstocks Hnd)
    as (w1 & D1 & T1 & new & Hopt1 & Hkeys & Hfood & Hothr & _ & _ & _ & Hsup0).
  assert (Hfst : fst (OrderSystem.optimizeOrder (VTeam t) l false w) = w')
    by (rewrite Hopt; reflexivity).
  rewrite Hfst.
  set (sorted := by_rate (rate_of w) rs).
  assert (Hperm : Permutation rs sorted) by apply by_rate_perm.
  assert (Hsub : forall x, In x sorted -> In x rs)
    by (intros x Hx; eapply Permutation_in; [symmetry|]; eassumption).
  destruct HF as (Hlen & _ & Hteams & _ & Hdicts).
  assert (Hteam : forall t', In t' (t :: ts) ->
            exists T0 D' T', teams w !! t' = Some T0 /\
              dicts w !! TeamObj._demand T0 = Some D' /\ nonneg D' /\
              (forall r, In r rs -> stock_ref w r <> TeamObj._demand T0) /\
              teams w' !! t' = Some T' /\ TeamObj._demand T' = TeamObj._demand T0 /\
              dicts w' !! TeamObj._demand T0 = Some D').
  { intros t' Ht'. destruct (Hts t' Ht') as (T0 & D' & HT0 & HD' & Hnn0 & Hap0).
    assert (Hsame : dicts w' !! TeamObj._demand T0 = Some D').
    { rewrite Hdicts; [exact HD'|eapply lookup_lt_Some; eassumption|].
      intros r R Hr HR Heq. apply (Hap0 r Hr). unfold stock_ref. rewrite HR. exact Heq. }
    destruct (Nat.eq_dec t' t) as [->|Hne].
    - destruct HA as (T' & new' & D'' & HT' & _ & Hdem & _).
      assert (T0 = T) by congruence. subst T0.
      exists T, D', T'. repeat split; assumption.
    - exists T0, D', T0. rewrite (Hteams t' Hne). repeat split; assumption. }
  exists D1. split; [rewrite Hopt1; reflexivity|].
  split; [apply verdict_supplied; assumption|].
  split; [|split].
  - split.
    { rewrite Hlists. unfold started. simpl.
      apply list_lookup_insert_eq. eapply lookup_lt_Some; eassumption. }
    split.
    { intros r Hr. apply Hsub in Hr. destruct (Hrs r Hr) as (R & S & HR & HS & _).
      destruct (Hset r R HR) as (R' & HR' & _ & _ & _ & Hstock).
      destruct (Hnn' r Hr) as (S' & HS' & HnnS').
      exists R', S'. split; [exact HR'|]. split; [|exact HnnS'].
      rewrite Hstock. unfold stock_ref in HS'. rewrite HR in HS'. exact HS'. }
    split.
    { rewrite (map_ext _ _ Href).
      eapply Permutation_NoDup; [apply Permutation_map, Hperm|]. exact Hnd. }
    intros t' Ht'.
    destruct (Hteam t' (or_intror Ht')) as (T0 & D' & T' & _ & _ & Hnn0 & Hap0 & HT' & Hdem & HD').
    exists T', D'. rewrite Hdem. split; [exact HT'|]. split; [exact HD'|].
    split; [exact Hnn0|]. intros r Hr. rewrite Href. apply Hap0, Hsub, Hr.
  - intros t' c Ht'.
    destruct (Hteam t' (or_intror Ht')) as (T0 & D' & T' & HT0 & HD0' & _ & _ & HT' & Hdem & HD').
    unfold asked, demand_ref, granted. rewrite HT', HT0, Hdem, HD', HD0'. reflexivity.
  - intros c Hc. rewrite <- (supply_perm w' rs sorted c Hperm). apply Hsup, Hc.
Qed.

(** X10.  The whole queue against the supply.  For a queue of teams
    whose demand counts are not negative and restaurants that each have
    their own stock dictionary, without negative counts, and no demand
    dictionary for stock: [processOrder] without the flag returns if and
    only if the restaurants of the list together have, of each of the five
    food types, at least what all the teams of the queue together ask,
    and no team asks anything under another key; otherwise it raises. *)
Theorem processOrder_returns_iff_supplied self l ts w rs :
  systems w !! self = Some (map VTeam ts) ->
  Orderly w l rs ts ->
  (snd (OrderSystem.processOrder self l false w) = inr tt <->
   (forall c, In c OrderSystem.FOODTYPE -> total_asked w ts c <= supply w rs c) /\
   (forall t c, In t ts -> ~ In c OrderSystem.FOODTYPE -> asked w t c <= 0)).
Proof.
  revert w rs. induction ts as [|t ts IH]; intros w rs Hq HO.
  - unfold OrderSystem.processOrder.
    rewrite (bind_ok _ _ _ _ _ (fifo_read_ok _ _ _ Hq)).
    rewrite (while_FIFO_nil _ _ _ _ _ Hq). simpl.
    split; [intros _|reflexivity]. split; [|intros t c []].
    intros c _. apply supply_nonneg. intros r Hr. eapply Orderly_in_stock; eassumption.
  - simpl in Hq.
    destruct (processOrder_step self l false w (VTeam t) (map VTeam ts) Hq) as [Hq' ->].
    set (w0 := with_systems w (<[self := map VTeam ts]> (systems w))) in *.
    assert (HO0 : Orderly w0 l rs (t :: ts)) by exact HO.
    pose proof HO0 as (_ & _ & _ & Hts).
    destruct (Hts t (or_introl eq_refl)) as (T & D0 & HT & HD0 & Hnn & _).
    destruct (Orderly_optimizeOrder w0 l rs t ts T D0 HO0 HT HD0)
      as (D & -> & Hv & HO' & Hask0 & Hsup).
    assert (Hask : forall t' c, In t' ts ->
              asked (fst (OrderSystem.optimizeOrder (VTeam t) l false w0)) t' c = asked w t' c)
      by exact Hask0.
    specialize (IH _ _ Hq' HO').
    assert (Hme : forall c, asked w t c = Dict.count c D0).
    { intros c. unfold asked, demand_ref, granted.
      change (teams w) with (teams w0). rewrite HT.
      change (dicts w) with (dicts w0). rewrite HD0. reflexivity. }
    assert (Hrest : forall c, 0 <= total_asked w ts c).
    { intros c. apply total_asked_nonneg. intros t' Ht'.
      apply (Orderly_asked w l rs (t :: ts) t' c HO). right. exact Ht'. }
    assert (Hsame : forall c,
              total_asked (fst (OrderSystem.optimizeOrder (VTeam t) l false w0)) ts c
              = total_asked w ts c).
    { intros c. apply total_asked_ext. intros t' Ht'. apply Hask, Ht'. }
    assert (Hsupply : forall c, supply w0 rs c = supply w rs c) by reflexivity.
    destruct (verdict (TeamObj._name T) D) as [e|[]] eqn:Ev.
    + simpl. split; [discriminate|]. intros [H1 H2]. exfalso.
      assert (Hok : @inl exn unit e = inr tt); [|discriminate].
      apply Hv. split.
      * intros c Hc. specialize (H1 c Hc). simpl in H1. rewrite Hme in H1.
        specialize (Hrest c). rewrite Hsupply. lia.
      * intros c Hc. rewrite <- Hme. apply H2; [left; reflexivity|exact Hc].
    + destruct Hv as [Hv _]. destruct (Hv eq_refl) as [A1 A2].
      rewrite IH. split.
      * intros [H1 H2]. split.
        -- intros c Hc. specialize (H1 c Hc). rewrite Hsame, (Hsup c Hc), Hsupply in H1.
           specialize (A1 c Hc). rewrite Hsupply in A1. simpl. rewrite Hme. lia.
        -- intros t' c [<-|Ht'] Hc.
           ++ rewrite Hme. apply A2, Hc.
           ++ rewrite <- (Hask t' c Ht'). apply H2; assumption.
      * intros [H1 H2]. split.
        -- intros c Hc. specialize (H1 c Hc). simpl in H1. rewrite Hme in H1.
           rewrite Hsame, (Hsup c Hc), Hsupply. lia.
        -- intros t' c Ht' Hc. rewrite (Hask t' c Ht'). apply H2; [right; exact Ht'|exact Hc].
Qed.

Lemma processOrder_returns_iff_supplied_witness :
  snd (OrderSystem.processOrder 0%nat 0%nat false two_teams_world) = inr tt <->
  (forall c, In c OrderSystem.FOODTYPE ->
     total_asked two_teams_world [0%nat; 1%nat] c <= supply two_teams_world [0%nat; 1%nat] c) /\
  (forall t c, In t [0%nat; 1%nat] -> ~ In c OrderSystem.FOODTYPE ->
     asked two_teams_world t c <= 0).
Proof.
  apply (processOrder_returns_iff_supplied 0%nat 0%nat [0%nat; 1%nat] two_teams_world
           [0%nat; 1%nat]).
  - vm_compute. reflexivity.
  - split; [vm_compute; reflexivity|]. split; [|split].
    + intros r [<-|[<-|[]]]; eexists; eexists;
        (split; [vm_compute; reflexivity|]); (split; vm_compute; reflexivity).
    + vm_compute. repeat constructor; simpl; intuition discriminate.
    + intros t [<-|[<-|[]]]; eexists; eexists;
        (split; [vm_compute; reflexivity|]); (split; [vm_compute; reflexivity|]);
        (split; [apply nonneg_b_nonneg; vm_compute; reflexivity|]);
        intros r [<-|[<-|[]]]; vm_compute; discriminate.
Defined.

(** ** What is not a team *)

Lemma optimizeOrder_not_a_team w v l rs :
  (forall t, v <> VTeam t) ->
  lists w !! l = Some rs ->
  Forall (fun r => has_stock w r = true) rs ->
  OrderSystem.optimizeOrder v l false w =
    (with_lists w (<[l := by_rate (rate_of w) rs]> (lists w)),
     inl (no_attribute v "demand")).
Proof.
  intros Hv Hl Hrs. unfold OrderSystem.optimizeOrder.
  apply bind_raise. unfold OrderSystem.place_orders. simpl negb. cbv iota.
  unfold bind at 1. rewrite (sort_by_rate _ _ _ Hl Hrs).
  destruct v; try reflexivity. exfalso. eapply Hv. reflexivity.
Qed.

(** X11.  What [addTeam] lets into the queue, [processOrder] trips on.
    When the element at the front of the queue is not a team,
    [processOrder] without the flag takes it off the queue, sorts the list
    of restaurants, and raises the [AttributeError] of the missing
    attribute [demand]; no order is placed and what is behind stays in
    the queue. *)
Theorem processOrder_trips_on_what_is_not_a_team self l w v q rs :
  systems w !! self = Some (v :: q) ->
  (forall t, v <> VTeam t) ->
  lists w !! l = Some rs ->
  Forall (fun r => has_stock w r = true) rs ->
  OrderSystem.processOrder self l false w =
    (mkWorld (dicts w) (restaurants w) (teams w)
       (<[l := by_rate (rate_of w) rs]> (lists w)) (<[self := q]> (systems w)),
     inl (no_attribute v "demand")).
Proof.
  intros Hq Hv Hl Hrs.
  destruct (processOrder_step self l false w v q Hq) as [_ ->].
  rewrite (optimizeOrder_not_a_team (with_systems w (<[self := q]> (systems w))) v l rs Hv Hl Hrs).
  reflexivity.
Qed.

Lemma processOrder_trips_on_what_is_not_a_team_witness :
  OrderSystem.processOrder 0%nat 0%nat false stray_world =
    (mkWorld (dicts stray_world) (restaurants stray_world) (teams stray_world)
       (<[0%nat := by_rate (rate_of stray_world) [0%nat; 1%nat]]> (lists stray_world))
       (<[0%nat := [VTeam 0%nat]]> (systems stray_world)),
     inl (no_attribute (VStr "cisco1") "demand")).
Proof.
  apply (processOrder_trips_on_what_is_not_a_team 0%nat 0%nat stray_world
           (VStr "cisco1") [VTeam 0%nat] [0%nat; 1%nat]).
  - vm_compute. reflexivity.
  - intros t. discriminate.
  - vm_compute. reflexivity.
  - repeat constructor.
Defined.

(** ** The format functions *)

Lemma append_cons a (s1 s2 : string) : (String a s1 ++ s2 = String a (s1 ++ s2))%string.
Proof. reflexivity. Qed.

Lemma append_nil_r (s : string) : (s ++ "" = s)%string.
Proof. induction s as [|a s IH]; [reflexivity|]. rewrite append_cons, IH. reflexivity. Qed.

Lemma append_assoc (s1 s2 s3 : string) : ((s1 ++ s2) ++ s3 = s1 ++ s2 ++ s3)%string.
Proof.
  induction s1 as [|a s1 IH]; [reflexivity|]. rewrite !append_cons, IH. reflexivity.
Qed.

Lemma format_line_ok indent order O w acc foodType :
  dicts w !! order = Some O ->
  OrderSystem.format_line indent order acc foodType w =
    (w, inr (match Dict.get foodType O with
             | Some count => (acc ++ indent ++ OrderSystem.format_count foodType count)%string
             | None => acc
             end)).
Proof.
  intros HO. unfold OrderSystem.format_line.
  rewrite (bind_ok _ _ _ _ _ (contains_ok _ _ _ _ HO)), contains_get.
  destruct (Dict.get foodType O) as [count|] eqn:G; [|reflexivity].
  rewrite (bind_ok _ _ _ _ _ (getitem_ok _ _ _ _ _ HO G)). reflexivity.
Qed.

Lemma format_lines_spec indent order O w :
  dicts w !! order = Some O ->
  forall foodTypes acc,
    fold_each foodTypes (OrderSystem.format_line indent order) acc w
    = (w, inr (acc ++ shown indent O foodTypes)%string).
Proof.
  intros HO. induction foodTypes as [|ft fts IH]; intros acc; simpl.
  - rewrite append_nil_r. reflexivity.
  - rewrite (bind_ok _ _ _ _ _ (format_line_ok indent order O w acc ft HO)), IH.
    destruct (Dict.get ft O); [|reflexivity]. rewrite !append_assoc. reflexivity.
Qed.

Lemma formatOrder_spec order O w :
  dicts w !! order = Some O ->
  OrderSystem.formatOrder order w
  = (w, inr (shown OrderSystem.COMMON_INDENT O OrderSystem.FOODTYPE)).
Proof.
  intros HO. unfold OrderSystem.formatOrder.
  rewrite (format_lines_spec _ _ _ _ HO). reflexivity.
Qed.

Lemma shown_ext indent O1 O2 foodTypes :
  (forall c, In c foodTypes -> Dict.get c O1 = Dict.get c O2) ->
  shown indent O1 foodTypes = shown indent O2 foodTypes.
Proof.
  induction foodTypes as [|ft fts IH]; intros H; simpl; [reflexivity|].
  rewrite (H ft (or_introl eq_refl)), IH; [reflexivity|].
  intros c Hc. apply H. right. exact Hc.
Qed.

Lemma shown_new_line O foodTypes : new_line (shown OrderSystem.COMMON_INDENT O foodTypes).
Proof.
  induction foodTypes as [|ft fts IH]; simpl; [left; reflexivity|].
  destruct (Dict.get ft O); [|exact IH]. right. eexists. reflexivity.
Qed.

(** the first line that is shown is that of one of the food types *)
Lemma shown_first O foodTypes :
  shown OrderSystem.COMMON_INDENT O foodTypes = "" \/
  exists ft count rest, In ft foodTypes /\
    shown OrderSystem.COMMON_INDENT O foodTypes
    = (OrderSystem.COMMON_INDENT ++ OrderSystem.format_count ft count ++ rest)%string.
Proof.
  induction foodTypes as [|ft fts IH]; simpl; [left; reflexivity|].
  destruct (Dict.get ft O) as [count|].
  - right. exists ft, count, (shown OrderSystem.COMMON_INDENT O fts). auto.
  - destruct IH as [IH|(ft' & count & rest & Hin & IH)]; [left; exact IH|].
    right. exists ft', count, rest. auto.
Qed.

Lemma pretty_N_char_one_line x : pretty_N_char x <> "010"%char.
Proof. unfold pretty_N_char. repeat case_match; discriminate. Qed.

Lemma pretty_N_go_one_line x : forall s, one_line s -> one_line (pretty_N_go x s).
Proof.
  induction (N.lt_wf_0 x) as [x _ IH]. intros s Hs.
  destruct (N.eq_dec x 0) as [->|Hx]; [rewrite pretty_N_go_0; exact Hs|].
  rewrite pretty_N_go_step by lia. apply IH.
  - apply N.div_lt; lia.
  - split; [apply pretty_N_char_one_line|exact Hs].
Qed.

Lemma pretty_N_one_line (x : N) : one_line (pretty x).
Proof.
  unfold pretty, pretty_N. destruct (decide (x = 0%N)).
  - split; [discriminate|exact I].
  - apply pretty_N_go_one_line. exact I.
Qed.

(** an integer is written on one line *)
Lemma pretty_Z_one_line (z : Z) : one_line (pretty z).
Proof.
  destruct z as [|p|p]; unfold pretty, pretty_Z.
  - split; [discriminate|exact I].
  - apply pretty_N_one_line.
  - split; [discriminate|apply pretty_N_one_line].
Qed.

(** what is written on a line ends where the next line starts *)
Lemma one_line_cancel (s1 : string) : forall s2 r1 r2 : string,
  one_line s1 -> one_line s2 -> new_line r1 -> new_line r2 ->
  (s1 ++ r1 = s2 ++ r2)%string -> s1 = s2 /\ r1 = r2.
Proof.
  induction s1 as [|a s1 IH]; intros [|b s2] r1 r2 H1 H2 N1 N2 E.
  - auto.
  - exfalso. change (r1 = String b (s2 ++ r2)%string) in E. destruct H2 as [Hb _].
    destruct N1 as [->|[r ->]]; [discriminate|]. injection E as <- _. contradiction.
  - exfalso. change (String a (s1 ++ r1)%string = r2) in E. destruct H1 as [Ha _].
    destruct N2 as [->|[r ->]]; [discriminate|]. injection E as -> _. contradiction.
  - rewrite !append_cons in E. injection E as -> E.
    destruct H1 as [_ H1]. destruct H2 as [_ H2].
    destruct (IH s2 r1 r2 H1 H2 N1 N2 E) as [-> ->]. auto.
Qed.

(** no food type is the start of another *)
Lemma FOODTYPE_apart ft ft' (x y : string) :
  In ft OrderSystem.FOODTYPE -> In ft' OrderSystem.FOODTYPE ->
  (ft ++ x = ft' ++ y)%string -> ft = ft'.
Proof.
  intros H H' E. unfold OrderSystem.FOODTYPE in H, H'. simpl in H, H'.
  destruct H as [<-|[<-|[<-|[<-|[<-|[]]]]]]; destruct H' as [<-|[<-|[<-|[<-|[<-|[]]]]]];
    try reflexivity; exfalso; revert E;
    unfold NORMAL, VEGETARIAN, GLUTEN_FREE, NUT_FREE, FISH_FREE;
    rewrite !append_cons; discriminate.
Qed.

Lemma shown_inj O1 O2 : forall foodTypes,
  List.NoDup foodTypes ->
  (forall ft, In ft foodTypes -> In ft OrderSystem.FOODTYPE) ->
  shown OrderSystem.COMMON_INDENT O1 foodTypes = shown OrderSystem.COMMON_INDENT O2 foodTypes ->
  forall c, In c foodTypes -> Dict.get c O1 = Dict.get c O2.
Proof.
  assert (Hmiss : forall O O' ft v fts,
            ~ In ft fts -> In ft OrderSystem.FOODTYPE ->
            (forall ft', In ft' fts -> In ft' OrderSystem.FOODTYPE) ->
            (OrderSystem.COMMON_INDENT ++ OrderSystem.format_count ft v
               ++ shown OrderSystem.COMMON_INDENT O fts)%string
            = shown OrderSystem.COMMON_INDENT O' fts -> False).
  { intros O O' ft v fts Hout Hft Hfts E.
    destruct (shown_first O' fts) as [E'|(ft' & v' & rest & Hin & E')]; rewrite E' in E.
    - discriminate.
    - apply String.app_inj in E. unfold OrderSystem.format_count in E.
      rewrite !append_assoc in E.
      apply FOODTYPE_apart in E; [|exact Hft|apply Hfts, Hin].
      subst ft'. contradiction. }
  induction foodTypes as [|ft fts IH]; intros Hnd Hall E c Hc; [destruct Hc|].
  inversion Hnd as [|? ? Hout Hnd']; subst.
  assert (Hft : In ft OrderSystem.FOODTYPE) by (apply Hall; left; reflexivity).
  assert (Hfts : forall ft', In ft' fts -> In ft' OrderSystem.FOODTYPE)
    by (intros ft' H; apply Hall; right; exact H).
  simpl in E.
  destruct (Dict.get ft O1) as [v1|] eqn:G1; destruct (Dict.get ft O2) as [v2|] eqn:G2.
  - apply String.app_inj in E. unfold OrderSystem.format_count in E.
    rewrite !append_assoc in E. apply String.app_inj in E. apply String.app_inj in E.
    destruct (one_line_cancel _ _ _ _ (pretty_Z_one_line v1) (pretty_Z_one_line v2)
                (shown_new_line O1 fts) (shown_new_line O2 fts) E) as [Hv E'].
    apply pretty_Z_inj in Hv. subst v2.
    destruct Hc as [<-|Hc]; [congruence|]. apply (IH Hnd' Hfts E' c Hc).
  - exfalso. eapply Hmiss; eassumption.
  - exfalso. symmetry in E. eapply Hmiss; eassumption.
  - destruct Hc as [<-|Hc]; [congruence|]. apply (IH Hnd' Hfts E c Hc).
Qed.

(** X12.  What [formatOrder] shows.  It returns a string and leaves the
    store as it is, and the strings it returns for two orders are the
    same if and only if the two orders have the same counts for the five
    food types: a key that is no food type is never shown, the order of
    the keys does not show, and no two different counts read the same. *)
Theorem formatOrder_shows_the_food_types w1 w2 o1 o2 O1 O2 :
  dicts w1 !! o1 = Some O1 ->
  dicts w2 !! o2 = Some O2 ->
  (exists s, OrderSystem.formatOrder o1 w1 = (w1, inr s)) /\
  (snd (OrderSystem.formatOrder o1 w1) = snd (OrderSystem.formatOrder o2 w2) <->
   forall c, In c OrderSystem.FOODTYPE -> Dict.get c O1 = Dict.get c O2).
Proof.
  intros H1 H2. rewrite (formatOrder_spec _ _ _ H1), (formatOrder_spec _ _ _ H2).
  split; [eauto|]. cbn [snd]. split.
  - intros [= E]. apply (shown_inj O1 O2 OrderSystem.FOODTYPE FOODTYPE_NoDup); auto.
  - intros H. f_equal. apply shown_ext, H.
Qed.

Lemma formatOrder_shows_the_food_types_witness :
  (exists s, OrderSystem.formatOrder 0%nat total_world = (total_world, inr s)) /\
  (snd (OrderSystem.formatOrder 0%nat total_world)
   = snd (OrderSystem.formatOrder 0%nat (lone_world [(VEGETARIAN, 5)])) <->
   forall c, In c OrderSystem.FOODTYPE ->
     Dict.get c [(TOTAL, 50); (VEGETARIAN, 5)] = Dict.get c [(VEGETARIAN, 5)]).
Proof.
  apply (formatOrder_shows_the_food_types total_world (lone_world [(VEGETARIAN, 5)])
           0%nat 0%nat); vm_compute; reflexivity.
Defined.

Lemma fold_each_cons {A B} (x : A) (xs : list A) (body : B -> A -> M B) acc :
  fold_each (x :: xs) body acc = (acc' <- body acc x ;; fold_each xs body acc').
Proof. reflexivity. Qed.

Lemma fold_each_app {A B} (xs ys : list A) (body : B -> A -> M B) acc w :
  fold_each (xs ++ ys) body acc w
  = (acc' <- fold_each xs body acc ;; fold_each ys body acc') w.
Proof.
  revert acc w. induction xs as [|x xs IH]; intros acc w; simpl; [reflexivity|].
  unfold bind. destruct (body acc x w) as [w1 [e|acc1]]; [reflexivity|].
  rewrite IH. reflexivity.
Qed.

Lemma formatOrderList_from w orderList :
  Forall (fun entry : string * ref => is_Some (dicts w !! snd entry)) orderList ->
  exists shown_list : string,
    forall acc,
      fold_each orderList
        (fun orderStr entry =>
           fold_each OrderSystem.FOODTYPE
             (OrderSystem.format_line (OrderSystem.COMMON_INDENT ++ String "009"%char "")
                (snd entry))
             (orderStr ++ OrderSystem.COMMON_INDENT ++ fst entry ++ ":")%string)
        acc w
      = (w, inr (acc ++ shown_list)%string).
Proof.
  induction 1 as [|[name order] orderList [O HO] _ [rest IH]].
  - exists ""%string. intros acc. simpl. rewrite append_nil_r. reflexivity.
  - eexists. intros acc. rewrite fold_each_cons. cbn [fst snd].
    rewrite (bind_ok _ _ _ _ _ (format_lines_spec _ _ _ _ HO _ _)), IH.
    rewrite !append_assoc. reflexivity.
Qed.

(** X13.  [formatOrderList] goes through the list from left to right:
    what it returns for a list is what it returns for the front of the
    list followed by what it returns for the rest, so that an order added
    to a history adds its lines at the end of what is shown; the store
    is left as it is. *)
Theorem formatOrderList_app w front rest :
  Forall (fun entry : string * ref => is_Some (dicts w !! snd entry)) (front ++ rest) ->
  exists s_front s_rest : string,
    OrderSystem.formatOrderList front w = (w, inr s_front) /\
    OrderSystem.formatOrderList rest w = (w, inr s_rest) /\
    OrderSystem.formatOrderList (front ++ rest) w = (w, inr (s_front ++ s_rest)%string).
Proof.
  intros H. apply Forall_app in H. destruct H as [Hf Hr].
  destruct (formatOrderList_from w front Hf) as [sf Ef].
  destruct (formatOrderList_from w rest Hr) as [sr Er].
  exists sf, sr. unfold OrderSystem.formatOrderList.
  split; [apply (Ef ""%string)|]. split; [apply (Er ""%string)|].
  rewrite fold_each_app, (bind_ok _ _ _ _ _ (Ef ""%string)). apply Er.
Qed.

Lemma formatOrderList_app_witness :
  exists s_front s_rest : string,
    OrderSystem.formatOrderList [("rest1"%string, 6%nat)]
      (fst (OrderSystem.optimizeOrder (VTeam 0%nat) 0%nat false single_team_world))
    = (fst (OrderSystem.optimizeOrder (VTeam 0%nat) 0%nat false single_team_world),
       inr s_front) /\
    OrderSystem.formatOrderList [("rest2"%string, 7%nat)]
      (fst (OrderSystem.optimizeOrder (VTeam 0%nat) 0%nat false single_team_world))
    = (fst (OrderSystem.optimizeOrder (VTeam 0%nat) 0%nat false single_team_world),
       inr s_rest) /\
    OrderSystem.formatOrderList ([("rest1"%string, 6%nat)] ++ [("rest2"%string, 7%nat)])
      (fst (OrderSystem.optimizeOrder (VTeam 0%nat) 0%nat false single_team_world))
    = (fst (OrderSystem.optimizeOrder (VTeam 0%nat) 0%nat false single_team_world),
       inr (s_front ++ s_rest)%string).
Proof.
  apply (formatOrderList_app
           (fst (OrderSystem.optimizeOrder (VTeam 0%nat) 0%nat false single_team_world))
           [("rest1"%string, 6%nat)] [("rest2"%string, 7%nat)]).
  repeat constructor; vm_compute; eexists; reflexivity.
Defined.
